(** * A shallow embedding of the RISC-V assembler (Assembler/assembler.c,
      Assembler/assembler_main.c) and the properties of its specification.

    Conventions of the embedding.
    - A C string is a [string] without the terminating NUL; writing a NUL
      into a buffer truncates the string there.
    - [int], [unsigned int], [unsigned char] and [long] values are [Z]; every
      conversion between them is written out ([s32], [u32], [uchar]).  A
      left shift whose mathematical result does not fit keeps the low 32
      bits, which is what the two's-complement targets of the program do.
    - [long] is 64 bits wide (LP64).
    - The functions compute with strings and numbers of any size.  The
      arrays of the source hold 20 bytes ([opcode], [rd], [rs1], [rs2],
      [temp]), 30 ([label], [label2]), 50 ([temp_inst]) and 256 ([line]),
      the label table has 100 entries and the counters are [int]s: a call
      that overruns one of them has no defined result.  The predicates of
      the section on the limits of the source say which calls stay inside
      them; a statement that would reach beyond them has these predicates
      as hypotheses.
    - A buffer that the source reads before anything was stored in it holds
      [uninit], an arbitrary string; the same predicates exclude the one
      call that depends on it ([first_pass] on a label without a token).
    - The branches of [assemble_instruction] are those of the source,
      statement by statement and in its order; they are split in four
      definitions, one for each value of [count]. *)

From Stdlib Require Import ZArith List Bool Ascii String Lia.
From Stdlib Require Import DecimalString DecimalPos.
Import ListNotations.

Local Open Scope string_scope.
Local Open Scope Z_scope.

(** ** The C library functions the program calls *)

Module Libc.

(** [isspace] in the C locale: space, \t, \n, \v, \f, \r. *)
Definition isspace (c : ascii) : bool :=
  let n := Z.of_nat (nat_of_ascii c) in
  (n =? 32) || ((9 <=? n) && (n <=? 13)).

Definition newline : ascii := ascii_of_nat 10.

Fixpoint skip_ws (s : string) : string :=
  match s with
  | String c r => if isspace c then skip_ws r else s
  | EmptyString => s
  end.

(** One [%s] conversion after the white space has been skipped: the longest
    run of non-space characters, and what follows it. *)
Fixpoint read_token (s : string) : string * string :=
  match s with
  | String c r =>
      if isspace c then (EmptyString, s)
      else let (t, r') := read_token r in (String c t, r')
  | EmptyString => (EmptyString, EmptyString)
  end.

(** The conversions of a [sscanf] whose format is [n] directives [%s]
    separated by white space: the tokens it stores, in order. *)
Fixpoint scan_tokens (n : nat) (s : string) : list string :=
  match n with
  | O => []
  | S n' =>
      match skip_ws s with
      | EmptyString => []
      | String c r =>
          let (t, rest) := read_token (String c r) in
          t :: scan_tokens n' rest
      end
  end.

(** The value [sscanf] returns: the number of conversions, or [EOF] when the
    input ends before the first one. *)
Definition EOF : Z := -1.

Definition scan_count (toks : list string) : Z :=
  match toks with
  | [] => EOF
  | _ => Z.of_nat (List.length toks)
  end.

(** [strchr s c] as a split: the text before the first [c], and the text
    from that [c] on. *)
Fixpoint strchr (s : string) (c : ascii) : option (string * string) :=
  match s with
  | EmptyString => None
  | String d r =>
      if Ascii.eqb d c then Some (EmptyString, s)
      else match strchr r c with
           | Some (b, a) => Some (String d b, a)
           | None => None
           end
  end.

(** [strncmp s p n == 0] for a literal [p] of length [n]. *)
Definition starts_with (p s : string) : bool := String.prefix p s.

Definition LONG_MAX : Z := 2 ^ 63 - 1.
Definition LONG_MIN : Z := - 2 ^ 63.

Definition digit_val (c : ascii) : option Z :=
  let n := Z.of_nat (nat_of_ascii c) in
  if (48 <=? n) && (n <=? 57) then Some (n - 48)
  else if (97 <=? n) && (n <=? 122) then Some (n - 87)
  else if (65 <=? n) && (n <=? 90) then Some (n - 55)
  else None.

Fixpoint strtol_digits (base acc : Z) (s : string) : Z :=
  match s with
  | String c r =>
      match digit_val c with
      | Some d => if d <? base then strtol_digits base (acc * base + d) r
                  else acc
      | None => acc
      end
  | EmptyString => acc
  end.

(** [strtol s NULL base] for base 10 and 16: white space, an optional sign,
    for base 16 an optional [0x]/[0X], then digits; no digits give 0, and a
    value out of the range of [long] is clamped.  (A [0x] that no hex digit
    follows is read as the number 0 either way.) *)
Definition strtol (s : string) (base : Z) : Z :=
  let s := skip_ws s in
  let '(neg, s) :=
    match s with
    | String "-" r => (true, r)
    | String "+" r => (false, r)
    | _ => (false, s)
    end in
  let s :=
    if base =? 16 then
      match s with
      | String "0" (String "x" r) => r
      | String "0" (String "X" r) => r
      | _ => s
      end
    else s in
  let v := strtol_digits base 0 s in
  let v := if neg then - v else v in
  Z.max LONG_MIN (Z.min LONG_MAX v).

(** Conversion to [int] and to [unsigned int] and [unsigned char]. *)
Definition s32 (z : Z) : Z := (z + 2 ^ 31) mod 2 ^ 32 - 2 ^ 31.
Definition u32 (z : Z) : Z := z mod 2 ^ 32.
Definition uchar (z : Z) : Z := z mod 256.

Definition atoi (s : string) : Z := s32 (strtol s 10).

(** [printf("%X")]: the upper-case hexadecimal digits of a non-negative
    number, most significant first, without leading zeros. *)
Definition hex_char (d : Z) : ascii :=
  match String.get (Z.to_nat d) "0123456789ABCDEF" with
  | Some c => c
  | None => "0"%char
  end.

Fixpoint hex_of (fuel : nat) (n : Z) : string :=
  match fuel with
  | O => EmptyString
  | S f =>
      if n <? 16 then String (hex_char n) EmptyString
      else hex_of f (n / 16) ++ String (hex_char (n mod 16)) EmptyString
  end.

Fixpoint zeros (k : nat) : string :=
  match k with
  | O => EmptyString
  | S k' => String "0" (zeros k')
  end.

(** The conversion [%08X] of an [unsigned int]: at least eight digits,
    padded with zeros on the left.  Eight rounds of [hex_of] print every
    32-bit value in full. *)
Definition printf_08X (n : Z) : string :=
  let d := hex_of 8 n in
  zeros (8 - String.length d) ++ d.

End Libc.

Import Libc.

(** ** assembler.c: the label table *)

Record Label := mkLabel { label : string; address : Z }.

(** The globals of assembler.c.  [labelCount] is the length of
    [labelTable]. *)
Record state := mkState {
  labelTable : list Label;
  instruction_count : Z;
  instruction_count2 : Z
}.

Definition labelCount (st : state) : Z := Z.of_nat (List.length (labelTable st)).

Definition initial_state : state := mkState [] 0 0.

(** [strcpy(labelTable[labelCount].label, label)] and the address, then
    [labelCount++].  The table of the source has [MAX_INSTRUCTIONS] entries
    of 256 bytes: [add_label_defined], further down, says which calls store
    within it. *)
Definition add_label (lbl : string) (addr : Z) (st : state) : state :=
  mkState (labelTable st ++ [mkLabel lbl addr])
          (instruction_count st) (instruction_count2 st).

Fixpoint find_in_table (tbl : list Label) (lbl : string) : Z :=
  match tbl with
  | e :: rest => if String.eqb (label e) lbl then address e
                 else find_in_table rest lbl
  | [] => -1
  end.

Definition find_label_address (st : state) (lbl : string) : Z :=
  find_in_table (labelTable st) lbl.

Definition remove_colon (str : string) : string :=
  let len := String.length str in
  if (0 <? len)%nat &&
     match String.get (len - 1) str with
     | Some c => Ascii.eqb c ":"
     | None => false
     end
  then String.substring 0 (len - 1) str
  else str.

(** ** assembler.c: register names *)

(** [a =s? b] is [strcmp(a, b) == 0]. *)
Infix "=s?" := String.eqb (at level 70, no associativity).

Definition get_register_number (reg : string) : Z :=
  if (reg =s? "x0") || (reg =s? "zero") then 0
  else if (reg =s? "x1") || (reg =s? "ra") then 1
  else if (reg =s? "x2") || (reg =s? "sp") then 2
  else if (reg =s? "x3") || (reg =s? "gp") then 3
  else if (reg =s? "x4") || (reg =s? "tp") then 4
  else if (reg =s? "x5") || (reg =s? "t0") then 5
  else if (reg =s? "x6") || (reg =s? "t1") then 6
  else if (reg =s? "x7") || (reg =s? "t2") then 7
  else if (reg =s? "x8") || (reg =s? "s0") then 8
  else if (reg =s? "x9") || (reg =s? "s1") then 9
  else if (reg =s? "x10") || (reg =s? "a0") then 10
  else if (reg =s? "x11") || (reg =s? "a1") then 11
  else if (reg =s? "x12") || (reg =s? "a2") then 12
  else if (reg =s? "x13") || (reg =s? "a3") then 13
  else if (reg =s? "x14") || (reg =s? "a4") then 14
  else if (reg =s? "x15") || (reg =s? "a5") then 15
  else if (reg =s? "x16") || (reg =s? "a6") then 16
  else if (reg =s? "x17") || (reg =s? "a7") then 17
  else if (reg =s? "x18") || (reg =s? "s2") then 18
  else if (reg =s? "x19") || (reg =s? "s3") then 19
  else if (reg =s? "x20") || (reg =s? "s4") then 20
  else if (reg =s? "x21") || (reg =s? "s5") then 21
  else if (reg =s? "x22") || (reg =s? "s6") then 22
  else if (reg =s? "x23") || (reg =s? "s7") then 23
  else if (reg =s? "x24") || (reg =s? "s8") then 24
  else if (reg =s? "x25") || (reg =s? "s9") then 25
  else if (reg =s? "x26") || (reg =s? "s10") then 26
  else if (reg =s? "x27") || (reg =s? "s11") then 27
  else if (reg =s? "x28") || (reg =s? "t3") then 28
  else if (reg =s? "x29") || (reg =s? "t4") then 29
  else if (reg =s? "x30") || (reg =s? "t5") then 30
  else if (reg =s? "x31") || (reg =s? "t6") then 31
  else if starts_with "x" reg then
    (* reg + 1: the text after the x *)
    let reg_num := atoi (String.substring 1 (String.length reg - 1) reg) in
    if (0 <=? reg_num) && (reg_num <=? 31) then reg_num else -1
  else -1.

(** ** assembler.c: the line normaliser *)

Fixpoint replaceCommas (str : string) : string :=
  match str with
  | String c r =>
      String (if Ascii.eqb c "," then " "%char else c) (replaceCommas r)
  | EmptyString => EmptyString
  end.

(** The loop of [removeBracket] goes on after it has written a NUL over a
    closing bracket, but the string ends at the first NUL. *)
Fixpoint removeBracket (str : string) : string :=
  match str with
  | String c r =>
      if Ascii.eqb c ")" then EmptyString
      else String (if Ascii.eqb c "(" then " "%char else c) (removeBracket r)
  | EmptyString => EmptyString
  end.

(** Everything from the first opening bracket on is overwritten with NUL. *)
Fixpoint separateImmediate (str : string) : string :=
  match str with
  | String c r =>
      if Ascii.eqb c "(" then EmptyString else String c (separateImmediate r)
  | EmptyString => EmptyString
  end.

(** The branch for a closing bracket is a comparison ([str[i] == 0]), it
    changes nothing. *)
Fixpoint separate_rs1_loop (signal : bool) (str : string) : string :=
  match str with
  | String c r =>
      if Ascii.eqb c "(" then String " " (separate_rs1_loop true r)
      else if negb signal then String " " (separate_rs1_loop signal r)
      else String c (separate_rs1_loop signal r)
  | EmptyString => EmptyString
  end.

Definition separate_rs1 (str : string) : string :=
  separate_rs1_loop false str.

Definition removeComment (str : string) : string :=
  match strchr str "#" with
  | Some (before, _) => before
  | None => str
  end.

(** [splitString str before after]: the pair [(before, after)]. *)
Definition splitString (str : string) : string * string :=
  match strchr str ":" with
  | Some (before, String _ after) => (before, after)
  | Some (before, EmptyString) => (before, EmptyString)
  | None => (str, EmptyString)
  end.

Definition convertToDecimal (str : string) : Z :=
  if starts_with "0x" str then strtol str 16 else strtol str 10.

(** ** assembler.c: scanning a line into its fields *)

(** The four buffers [opcode], [rd], [rs1], [rs2]. *)
Record fields := mkFields {
  f_opcode : string; f_rd : string; f_rs1 : string; f_rs2 : string
}.

(** [sscanf(s, "%s %s %s %s", opcode, rd, rs1, rs2)]: the count it returns
    and the buffers afterwards; a buffer without a conversion keeps what it
    held. *)
Definition sscanf4 (s : string) (old : fields) : Z * fields :=
  let toks := scan_tokens 4 s in
  (scan_count toks,
   match toks with
   | [] => old
   | [a] => mkFields a (f_rd old) (f_rs1 old) (f_rs2 old)
   | [a; b] => mkFields a b (f_rs1 old) (f_rs2 old)
   | [a; b; c] => mkFields a b c (f_rs2 old)
   | a :: b :: c :: d :: _ => mkFields a b c d
   end).

(** [sscanf(src, "%s", dst)], and also [sscanf(src, "%s(%s)", dst, _)]:
    after a [%s] the input stands at white space or at its end, so the
    literal bracket never matches and the second conversion never runs. *)
Definition sscanf_s (src old : string) : string :=
  match scan_tokens 1 src with
  | t :: _ => t
  | [] => old
  end.

(** ** assembler.c: the encoder *)

(** The binary literals of the source. *)
Definition b0110011 : Z := 0x33.
Definition b0010011 : Z := 0x13.
Definition b1100111 : Z := 0x67.
Definition b1100011 : Z := 0x63.
Definition b0000011 : Z := 0x03.
Definition b0100011 : Z := 0x23.
Definition b0010111 : Z := 0x17.
Definition b0110111 : Z := 0x37.
Definition b1101111 : Z := 0x6F.
Definition b0000000 : Z := 0.
Definition b0100000 : Z := 0x20.
Definition b000 : Z := 0.
Definition b001 : Z := 1.
Definition b010 : Z := 2.
Definition b011 : Z := 3.
Definition b100 : Z := 4.
Definition b101 : Z := 5.
Definition b110 : Z := 6.
Definition b111 : Z := 7.

(** [machine_code |= e]: [e] is converted to [unsigned int]. *)
Definition or_assign (machine_code e : Z) : Z := Z.lor machine_code (u32 e).

(** [instruction_count2++] and [instruction_count++], on [int]s: the sum is
    what the source computes as long as the counter is below [INT_MAX],
    which [state_ok], further down, says of a state. *)
Definition incr_count2 (st : state) : state :=
  mkState (labelTable st) (instruction_count st) (instruction_count2 st + 1).

Definition incr_count (st : state) : state :=
  mkState (labelTable st) (instruction_count st + 1) (instruction_count2 st).

Declare Scope c_scope.
Delimit Scope c_scope with C.
Notation "a & b" := (Z.land a b) (at level 40, left associativity) : c_scope.
Notation "a << b" := (Z.shiftl a b) (at level 32, left associativity) : c_scope.
Notation "a >> b" := (Z.shiftr a b) (at level 32, left associativity) : c_scope.
Notation "m |= e" := (or_assign m e) (at level 69, no associativity) : c_scope.
Local Open Scope c_scope.

Section Assembler.

(** What an uninitialised buffer on the stack happens to hold.  Of the
    arrays of the two functions only [label2] of [first_pass] can be read
    before anything is stored in it, when the text before the colon has no
    token; [first_pass_defined], further down, excludes that call. *)
Variable uninit : string.

Definition assemble_count4 (machine_code : Z) (st : state)
    (opcode rd rs1 rs2 : string) : Z * state :=
  if opcode =s? "add" then
    let st := incr_count2 st in
    let rd_num := uchar (get_register_number rd) in
    let rs1_num := uchar (get_register_number rs1) in
    let rs2_num := uchar (get_register_number rs2) in
    let machine_code := machine_code |= b0110011 in
    let machine_code := machine_code |= ((rd_num & 0x1F) << 7) in
    let machine_code := machine_code |= (b000 << 12) in
    let machine_code := machine_code |= ((rs1_num & 0x1F) << 15) in
    let machine_code := machine_code |= ((rs2_num & 0x1F) << 20) in
    let machine_code := machine_code |= (b0000000 << 25) in
    (machine_code, st)
  else if opcode =s? "sub" then
    let st := incr_count2 st in
    let rd_num := uchar (get_register_number rd) in
    let rs1_num := uchar (get_register_number rs1) in
    let rs2_num := uchar (get_register_number rs2) in
    let machine_code := machine_code |= b0110011 in
    let machine_code := machine_code |= ((rd_num & 0x1F) << 7) in
    let machine_code := machine_code |= (b000 << 12) in
    let machine_code := machine_code |= ((rs1_num & 0x1F) << 15) in
    let machine_code := machine_code |= ((rs2_num & 0x1F) << 20) in
    let machine_code := machine_code |= (b0100000 << 25) in
    (machine_code, st)
  else if opcode =s? "or" then
    let st := incr_count2 st in
    let rd_num := uchar (get_register_number rd) in
    let rs1_num := uchar (get_register_number rs1) in
    let rs2_num := uchar (get_register_number rs2) in
    let machine_code := machine_code |= b0110011 in
    let machine_code := machine_code |= ((rd_num & 0x1F) << 7) in
    let machine_code := machine_code |= (b110 << 12) in
    let machine_code := machine_code |= ((rs1_num & 0x1F) << 15) in
    let machine_code := machine_code |= ((rs2_num & 0x1F) << 20) in
    let machine_code := machine_code |= (b0000000 << 25) in
    (machine_code, st)
  else if opcode =s? "and" then
    let st := incr_count2 st in
    let rd_num := uchar (get_register_number rd) in
    let rs1_num := uchar (get_register_number rs1) in
    let rs2_num := uchar (get_register_number rs2) in
    let machine_code := machine_code |= b0110011 in
    let machine_code := machine_code |= ((rd_num & 0x1F) << 7) in
    let machine_code := machine_code |= (b111 << 12) in
    let machine_code := machine_code |= ((rs1_num & 0x1F) << 15) in
    let machine_code := machine_code |= ((rs2_num & 0x1F) << 20) in
    let machine_code := machine_code |= (b0000000 << 25) in
    (machine_code, st)
  else if opcode =s? "xor" then
    let st := incr_count2 st in
    let rd_num := uchar (get_register_number rd) in
    let rs1_num := uchar (get_register_number rs1) in
    let rs2_num := uchar (get_register_number rs2) in
    let machine_code := machine_code |= b0110011 in
    let machine_code := machine_code |= ((rd_num & 0x1F) << 7) in
    let machine_code := machine_code |= (b100 << 12) in
    let machine_code := machine_code |= ((rs1_num & 0x1F) << 15) in
    let machine_code := machine_code |= ((rs2_num & 0x1F) << 20) in
    let machine_code := machine_code |= (b0000000 << 25) in
    (machine_code, st)
  else if opcode =s? "sll" then
    let st := incr_count2 st in
    let rd_num := uchar (get_register_number rd) in
    let rs1_num := uchar (get_register_number rs1) in
    let rs2_num := uchar (get_register_number rs2) in
    let machine_code := machine_code |= b0110011 in
    let machine_code := machine_code |= ((rd_num & 0x1F) << 7) in
    let machine_code := machine_code |= (b001 << 12) in
    let machine_code := machine_code |= ((rs1_num & 0x1F) << 15) in
    let machine_code := machine_code |= ((rs2_num & 0x1F) << 20) in
    let machine_code := machine_code |= (b0000000 << 25) in
    (machine_code, st)
  else if opcode =s? "srl" then
    let st := incr_count2 st in
    let rd_num := uchar (get_register_number rd) in
    let rs1_num := uchar (get_register_number rs1) in
    let rs2_num := uchar (get_register_number rs2) in
    let machine_code := machine_code |= b0110011 in
    let machine_code := machine_code |= ((rd_num & 0x1F) << 7) in
    let machine_code := machine_code |= (b101 << 12) in
    let machine_code := machine_code |= ((rs1_num & 0x1F) << 15) in
    let machine_code := machine_code |= ((rs2_num & 0x1F) << 20) in
    let machine_code := machine_code |= (b0000000 << 25) in
    (machine_code, st)
  else if opcode =s? "sra" then
    let st := incr_count2 st in
    let rd_num := uchar (get_register_number rd) in
    let rs1_num := uchar (get_register_number rs1) in
    let rs2_num := uchar (get_register_number rs2) in
    let machine_code := machine_code |= b0110011 in
    let machine_code := machine_code |= ((rd_num & 0x1F) << 7) in
    let machine_code := machine_code |= (b101 << 12) in
    let machine_code := machine_code |= ((rs1_num & 0x1F) << 15) in
    let machine_code := machine_code |= ((rs2_num & 0x1F) << 20) in
    let machine_code := machine_code |= (b0100000 << 25) in
    (machine_code, st)
  else if opcode =s? "slt" then
    let st := incr_count2 st in
    let rd_num := uchar (get_register_number rd) in
    let rs1_num := uchar (get_register_number rs1) in
    let rs2_num := uchar (get_register_number rs2) in
    let machine_code := machine_code |= b0110011 in
    let machine_code := machine_code |= ((rd_num & 0x1F) << 7) in
    let machine_code := machine_code |= (b010 << 12) in
    let machine_code := machine_code |= ((rs1_num & 0x1F) << 15) in
    let machine_code := machine_code |= ((rs2_num & 0x1F) << 20) in
    let machine_code := machine_code |= (b0000000 << 25) in
    (machine_code, st)
  else if opcode =s? "sltu" then
    let st := incr_count2 st in
    let rd_num := uchar (get_register_number rd) in
    let rs1_num := uchar (get_register_number rs1) in
    let rs2_num := uchar (get_register_number rs2) in
    let machine_code := machine_code |= b0110011 in
    let machine_code := machine_code |= ((rd_num & 0x1F) << 7) in
    let machine_code := machine_code |= (b011 << 12) in
    let machine_code := machine_code |= ((rs1_num & 0x1F) << 15) in
    let machine_code := machine_code |= ((rs2_num & 0x1F) << 20) in
    let machine_code := machine_code |= (b0000000 << 25) in
    (machine_code, st)
  else if opcode =s? "addi" then
    let st := incr_count2 st in
    let rd_num := uchar (get_register_number rd) in
    let rs1_num := uchar (get_register_number rs1) in
    let imm := s32 (convertToDecimal rs2) in
    let machine_code := machine_code |= b0010011 in
    let machine_code := machine_code |= ((rd_num & 0x1F) << 7) in
    let machine_code := machine_code |= (b000 << 12) in
    let machine_code := machine_code |= ((rs1_num & 0x1F) << 15) in
    let machine_code := machine_code |= ((imm & 0xFFF) << 20) in
    (machine_code, st)
  else if opcode =s? "slli" then
    let st := incr_count2 st in
    let rd_num := uchar (get_register_number rd) in
    let rs1_num := uchar (get_register_number rs1) in
    let imm := s32 (convertToDecimal rs2) in
    let machine_code := machine_code |= b0010011 in
    let machine_code := machine_code |= ((rd_num & 0x1F) << 7) in
    let machine_code := machine_code |= (b001 << 12) in
    let machine_code := machine_code |= ((rs1_num & 0x1F) << 15) in
    let machine_code := machine_code |= ((imm & 0xFFF) << 20) in
    let machine_code := machine_code |= (b0000000 << 25) in
    (machine_code, st)
  else if opcode =s? "slti" then
    let st := incr_count2 st in
    let rd_num := uchar (get_register_number rd) in
    let rs1_num := uchar (get_register_number rs1) in
    let imm := s32 (convertToDecimal rs2) in
    let machine_code := machine_code |= b0010011 in
    let machine_code := machine_code |= ((rd_num & 0x1F) << 7) in
    let machine_code := machine_code |= (b010 << 12) in
    let machine_code := machine_code |= ((rs1_num & 0x1F) << 15) in
    let machine_code := machine_code |= ((imm & 0xFFF) << 20) in
    (machine_code, st)
  else if opcode =s? "sltiu" then
    let st := incr_count2 st in
    let rd_num := uchar (get_register_number rd) in
    let rs1_num := uchar (get_register_number rs1) in
    let imm := s32 (convertToDecimal rs2) in
    let machine_code := machine_code |= b0010011 in
    let machine_code := machine_code |= ((rd_num & 0x1F) << 7) in
    let machine_code := machine_code |= (b011 << 12) in
    let machine_code := machine_code |= ((rs1_num & 0x1F) << 15) in
    let machine_code := machine_code |= ((imm & 0xFFF) << 20) in
    (machine_code, st)
  else if opcode =s? "xori" then
    let st := incr_count2 st in
    let rd_num := uchar (get_register_number rd) in
    let rs1_num := uchar (get_register_number rs1) in
    let imm := s32 (convertToDecimal rs2) in
    let machine_code := machine_code |= b0010011 in
    let machine_code := machine_code |= ((rd_num & 0x1F) << 7) in
    let machine_code := machine_code |= (b100 << 12) in
    let machine_code := machine_code |= ((rs1_num & 0x1F) << 15) in
    let machine_code := machine_code |= ((imm & 0xFFF) << 20) in
    (machine_code, st)
  else if opcode =s? "srli" then
    let st := incr_count2 st in
    let rd_num := uchar (get_register_number rd) in
    let rs1_num := uchar (get_register_number rs1) in
    let imm := s32 (convertToDecimal rs2) in
    let machine_code := machine_code |= b0010011 in
    let machine_code := machine_code |= ((rd_num & 0x1F) << 7) in
    let machine_code := machine_code |= (b101 << 12) in
    let machine_code := machine_code |= ((rs1_num & 0x1F) << 15) in
    let machine_code := machine_code |= ((imm & 0xFFF) << 20) in
    let machine_code := machine_code |= (b0000000 << 25) in
    (machine_code, st)
  else if opcode =s? "srai" then
    let st := incr_count2 st in
    let rd_num := uchar (get_register_number rd) in
    let rs1_num := uchar (get_register_number rs1) in
    let imm := s32 (convertToDecimal rs2) in
    let machine_code := machine_code |= b0010011 in
    let machine_code := machine_code |= ((rd_num & 0x1F) << 7) in
    let machine_code := machine_code |= (b101 << 12) in
    let machine_code := machine_code |= ((rs1_num & 0x1F) << 15) in
    let machine_code := machine_code |= ((imm & 0xFFF) << 20) in
    let machine_code := machine_code |= (b0100000 << 25) in
    (machine_code, st)
  else if opcode =s? "ori" then
    let st := incr_count2 st in
    let rd_num := uchar (get_register_number rd) in
    let rs1_num := uchar (get_register_number rs1) in
    let imm := s32 (convertToDecimal rs2) in
    let machine_code := machine_code |= b0010011 in
    let machine_code := machine_code |= ((rd_num & 0x1F) << 7) in
    let machine_code := machine_code |= (b110 << 12) in
    let machine_code := machine_code |= ((rs1_num & 0x1F) << 15) in
    let machine_code := machine_code |= ((imm & 0xFFF) << 20) in
    (machine_code, st)
  else if opcode =s? "andi" then
    let st := incr_count2 st in
    let rd_num := uchar (get_register_number rd) in
    let rs1_num := uchar (get_register_number rs1) in
    let imm := s32 (convertToDecimal rs2) in
    let machine_code := machine_code |= b0010011 in
    let machine_code := machine_code |= ((rd_num & 0x1F) << 7) in
    let machine_code := machine_code |= (b111 << 12) in
    let machine_code := machine_code |= ((rs1_num & 0x1F) << 15) in
    let machine_code := machine_code |= ((imm & 0xFFF) << 20) in
    (machine_code, st)
  else if opcode =s? "jalr" then
    let st := incr_count2 st in
    let rd_num := uchar (get_register_number rd) in
    let rs1_num := uchar (get_register_number rs1) in
    let imm := s32 (convertToDecimal rs2) in
    let machine_code := machine_code |= b1100111 in
    let machine_code := machine_code |= ((rd_num & 0x1F) << 7) in
    let machine_code := machine_code |= (b000 << 12) in
    let machine_code := machine_code |= ((rs1_num & 0x1F) << 15) in
    let machine_code := machine_code |= ((imm & 0xFFF) << 20) in
    (machine_code, st)
  else if opcode =s? "beq" then
    let st := incr_count2 st in
    let rs1_num := uchar (get_register_number rd) in
    let rs2_num := uchar (get_register_number rs1) in
    let address := find_label_address st rs2 in
    let imm := address - instruction_count2 st in
    let imm := s32 (imm << 2) in
    let machine_code := machine_code |= b1100011 in
    let machine_code := machine_code |= ((imm & 0x800) >> 4) in
    let machine_code := machine_code |= ((imm & 0x1E) << 7) in
    let machine_code := machine_code |= (b000 << 12) in
    let machine_code := machine_code |= ((rs1_num & 0x1F) << 15) in
    let machine_code := machine_code |= ((rs2_num & 0x1F) << 20) in
    let machine_code := machine_code |= ((imm & 0x7E0) << 20) in
    let machine_code := machine_code |= ((imm & 0x1000) << 20) in
    (machine_code, st)
  else if opcode =s? "bne" then
    let st := incr_count2 st in
    let rs1_num := uchar (get_register_number rd) in
    let rs2_num := uchar (get_register_number rs1) in
    let address := find_label_address st rs2 in
    let imm := address - instruction_count2 st in
    let imm := s32 (imm << 2) in
    let machine_code := machine_code |= b1100011 in
    let machine_code := machine_code |= ((imm & 0x800) >> 4) in
    let machine_code := machine_code |= ((imm & 0x1E) << 7) in
    let machine_code := machine_code |= (b001 << 12) in
    let machine_code := machine_code |= ((rs1_num & 0x1F) << 15) in
    let machine_code := machine_code |= ((rs2_num & 0x1F) << 20) in
    let machine_code := machine_code |= ((imm & 0x7E0) << 20) in
    let machine_code := machine_code |= ((imm & 0x1000) << 20) in
    (machine_code, st)
  else if opcode =s? "blt" then
    let st := incr_count2 st in
    let rs1_num := uchar (get_register_number rd) in
    let rs2_num := uchar (get_register_number rs1) in
    let address := find_label_address st rs2 in
    let imm := address - instruction_count2 st in
    let imm := s32 (imm << 2) in
    let machine_code := machine_code |= b1100011 in
    let machine_code := machine_code |= ((imm & 0x800) >> 4) in
    let machine_code := machine_code |= ((imm & 0x1E) << 7) in
    let machine_code := machine_code |= (b100 << 12) in
    let machine_code := machine_code |= ((rs1_num & 0x1F) << 15) in
    let machine_code := machine_code |= ((rs2_num & 0x1F) << 20) in
    let machine_code := machine_code |= ((imm & 0x7E0) << 20) in
    let machine_code := machine_code |= ((imm & 0x1000) << 19) in
    (machine_code, st)
  else if opcode =s? "bgt" then
    let st := incr_count2 st in
    let rs2_num := uchar (get_register_number rd) in
    let rs1_num := uchar (get_register_number rs1) in
    let address := find_label_address st rs2 in
    let imm := address - instruction_count2 st in
    let imm := s32 (imm << 2) in
    let machine_code := machine_code |= b1100011 in
    let machine_code := machine_code |= ((imm & 0x800) >> 4) in
    let machine_code := machine_code |= ((imm & 0x1E) << 7) in
    let machine_code := machine_code |= (b100 << 12) in
    let machine_code := machine_code |= ((rs1_num & 0x1F) << 15) in
    let machine_code := machine_code |= ((rs2_num & 0x1F) << 20) in
    let machine_code := machine_code |= ((imm & 0x7E0) << 20) in
    let machine_code := machine_code |= ((imm & 0x1000) << 20) in
    (machine_code, st)
  else if opcode =s? "bge" then
    let st := incr_count2 st in
    let rs1_num := uchar (get_register_number rd) in
    let rs2_num := uchar (get_register_number rs1) in
    let address := find_label_address st rs2 in
    let imm := address - instruction_count2 st in
    let imm := s32 (imm << 2) in
    let machine_code := machine_code |= b1100011 in
    let machine_code := machine_code |= ((imm & 0x800) >> 4) in
    let machine_code := machine_code |= ((imm & 0x1E) << 7) in
    let machine_code := machine_code |= (b101 << 12) in
    let machine_code := machine_code |= ((rs1_num & 0x1F) << 15) in
    let machine_code := machine_code |= ((rs2_num & 0x1F) << 20) in
    let machine_code := machine_code |= ((imm & 0x7E0) << 20) in
    let machine_code := machine_code |= ((imm & 0x1000) << 20) in
    (machine_code, st)
  else if opcode =s? "ble" then
    let st := incr_count2 st in
    let rs2_num := uchar (get_register_number rd) in
    let rs1_num := uchar (get_register_number rs1) in
    let address := find_label_address st rs2 in
    let imm := address - instruction_count2 st in
    let imm := s32 (imm << 2) in
    let machine_code := machine_code |= b1100011 in
    let machine_code := machine_code |= ((imm & 0x800) >> 4) in
    let machine_code := machine_code |= ((imm & 0x1E) << 7) in
    let machine_code := machine_code |= (b101 << 12) in
    let machine_code := machine_code |= ((rs1_num & 0x1F) << 15) in
    let machine_code := machine_code |= ((rs2_num & 0x1F) << 20) in
    let machine_code := machine_code |= ((imm & 0x7E0) << 20) in
    let machine_code := machine_code |= ((imm & 0x1000) << 20) in
    (machine_code, st)
  else if opcode =s? "bltu" then
    let st := incr_count2 st in
    let rs1_num := uchar (get_register_number rd) in
    let rs2_num := uchar (get_register_number rs1) in
    let address := find_label_address st rs2 in
    let imm := address - instruction_count2 st in
    let imm := s32 (imm << 2) in
    let machine_code := machine_code |= b1100011 in
    let machine_code := machine_code |= ((imm & 0x800) >> 4) in
    let machine_code := machine_code |= ((imm & 0x1E) << 7) in
    let machine_code := machine_code |= (b110 << 12) in
    let machine_code := machine_code |= ((rs1_num & 0x1F) << 15) in
    let machine_code := machine_code |= ((rs2_num & 0x1F) << 20) in
    let machine_code := machine_code |= ((imm & 0x7E0) << 20) in
    let machine_code := machine_code |= ((imm & 0x1000) << 20) in
    (machine_code, st)
  else if opcode =s? "bgeu" then
    let st := incr_count2 st in
    let rs1_num := uchar (get_register_number rd) in
    let rs2_num := uchar (get_register_number rs1) in
    let address := find_label_address st rs2 in
    let imm := address - instruction_count2 st in
    let imm := s32 (imm << 2) in
    let machine_code := machine_code |= b1100011 in
    let machine_code := machine_code |= ((imm & 0x800) >> 4) in
    let machine_code := machine_code |= ((imm & 0x1E) << 7) in
    let machine_code := machine_code |= (b111 << 12) in
    let machine_code := machine_code |= ((rs1_num & 0x1F) << 15) in
    let machine_code := machine_code |= ((rs2_num & 0x1F) << 20) in
    let machine_code := machine_code |= ((imm & 0x7E0) << 20) in
    let machine_code := machine_code |= ((imm & 0x1000) << 20) in
    (machine_code, st)
  else (machine_code, st).

Definition assemble_count3 (machine_code : Z) (st : state)
    (opcode rd rs1 rs2 : string) : Z * state :=
  if opcode =s? "lb" then
    let st := incr_count2 st in
    let temp := uninit in
    let temp := sscanf_s rs1 temp in
    let temp := separateImmediate temp in
    let rs1 := separate_rs1 rs1 in
    let imm := s32 (convertToDecimal temp) in
    let rs1 := sscanf_s rs1 rs1 in
    let rs1 := removeBracket rs1 in
    let rs1_num := uchar (get_register_number rs1) in
    let rd_num := uchar (get_register_number rd) in
    let machine_code := machine_code |= b0000011 in
    let machine_code := machine_code |= ((rd_num & 0x1F) << 7) in
    let machine_code := machine_code |= (b000 << 12) in
    let machine_code := machine_code |= ((rs1_num & 0x1F) << 15) in
    let machine_code := machine_code |= ((imm & 0xFFF) << 20) in
    (machine_code, st)
  else if opcode =s? "lh" then
    let st := incr_count2 st in
    let temp := uninit in
    let temp := sscanf_s rs1 temp in
    let temp := separateImmediate temp in
    let rs1 := separate_rs1 rs1 in
    let imm := s32 (convertToDecimal temp) in
    let rs1 := sscanf_s rs1 rs1 in
    let rs1 := removeBracket rs1 in
    let rs1_num := uchar (get_register_number rs1) in
    let rd_num := uchar (get_register_number rd) in
    let machine_code := machine_code |= b0000011 in
    let machine_code := machine_code |= ((rd_num & 0x1F) << 7) in
    let machine_code := machine_code |= (b001 << 12) in
    let machine_code := machine_code |= ((rs1_num & 0x1F) << 15) in
    let machine_code := machine_code |= ((imm & 0xFFF) << 20) in
    (machine_code, st)
  else if opcode =s? "lw" then
    let st := incr_count2 st in
    let temp := uninit in
    let temp := sscanf_s rs1 temp in
    let temp := separateImmediate temp in
    let rs1 := separate_rs1 rs1 in
    let imm := s32 (convertToDecimal temp) in
    let rs1 := sscanf_s rs1 rs1 in
    let rs1 := removeBracket rs1 in
    let rs1_num := uchar (get_register_number rs1) in
    let rd_num := uchar (get_register_number rd) in
    let machine_code := machine_code |= b0000011 in
    let machine_code := machine_code |= ((rd_num & 0x1F) << 7) in
    let machine_code := machine_code |= (b010 << 12) in
    let machine_code := machine_code |= ((rs1_num & 0x1F) << 15) in
    let machine_code := machine_code |= ((imm & 0xFFF) << 20) in
    (machine_code, st)
  else if opcode =s? "lbu" then
    let st := incr_count2 st in
    let temp := uninit in
    let temp := sscanf_s rs1 temp in
    let temp := separateImmediate temp in
    let rs1 := separate_rs1 rs1 in
    let imm := s32 (convertToDecimal temp) in
    let rs1 := sscanf_s rs1 rs1 in
    let rs1 := removeBracket rs1 in
    let rs1_num := uchar (get_register_number rs1) in
    let rd_num := uchar (get_register_number rd) in
    let machine_code := machine_code |= b0000011 in
    let machine_code := machine_code |= ((rd_num & 0x1F) << 7) in
    let machine_code := machine_code |= (b100 << 12) in
    let machine_code := machine_code |= ((rs1_num & 0x1F) << 15) in
    let machine_code := machine_code |= ((imm & 0xFFF) << 20) in
    (machine_code, st)
  else if opcode =s? "lhu" then
    let st := incr_count2 st in
    let temp := uninit in
    let temp := sscanf_s rs1 temp in
    let temp := separateImmediate temp in
    let rs1 := separate_rs1 rs1 in
    let imm := s32 (convertToDecimal temp) in
    let rs1 := sscanf_s rs1 rs1 in
    let rs1 := removeBracket rs1 in
    let rs1_num := uchar (get_register_number rs1) in
    let rd_num := uchar (get_register_number rd) in
    let machine_code := machine_code |= b0000011 in
    let machine_code := machine_code |= ((rd_num & 0x1F) << 7) in
    let machine_code := machine_code |= (b101 << 12) in
    let machine_code := machine_code |= ((rs1_num & 0x1F) << 15) in
    let machine_code := machine_code |= ((imm & 0xFFF) << 20) in
    (machine_code, st)
  else if opcode =s? "sb" then
    let st := incr_count2 st in
    let temp := uninit in
    let temp := sscanf_s rs1 temp in
    let temp := separateImmediate temp in
    let rs1 := separate_rs1 rs1 in
    let imm := s32 (convertToDecimal temp) in
    let rs1 := sscanf_s rs1 rs1 in
    let rs1 := removeBracket rs1 in
    let rs1_num := uchar (get_register_number rs1) in
    let rd_num := uchar (get_register_number rd) in
    let machine_code := machine_code |= b0100011 in
    let machine_code := machine_code |= ((imm & 0x1F) << 7) in
    let machine_code := machine_code |= (b000 << 12) in
    let machine_code := machine_code |= ((rs1_num & 0x1F) << 15) in
    let machine_code := machine_code |= ((rd_num & 0x1F) << 20) in
    let machine_code := machine_code |= ((imm & 0xFE0) << 20) in
    (machine_code, st)
  else if opcode =s? "sh" then
    let st := incr_count2 st in
    let temp := uninit in
    let temp := sscanf_s rs1 temp in
    let temp := separateImmediate temp in
    let rs1 := separate_rs1 rs1 in
    let imm := s32 (convertToDecimal temp) in
    let rs1 := sscanf_s rs1 rs1 in
    let rs1 := removeBracket rs1 in
    let rs1_num := uchar (get_register_number rs1) in
    let rd_num := uchar (get_register_number rd) in
    let machine_code := machine_code |= b0100011 in
    let machine_code := machine_code |= ((imm & 0x1F) << 7) in
    let machine_code := machine_code |= (b001 << 12) in
    let machine_code := machine_code |= ((rs1_num & 0x1F) << 15) in
    let machine_code := machine_code |= ((rd_num & 0x1F) << 20) in
    let machine_code := machine_code |= ((imm & 0xFE0) << 20) in
    (machine_code, st)
  else if opcode =s? "sw" then
    let st := incr_count2 st in
    let temp := uninit in
    let temp := sscanf_s rs1 temp in
    let temp := separateImmediate temp in
    let rs1 := separate_rs1 rs1 in
    let imm := s32 (convertToDecimal temp) in
    let rs1 := sscanf_s rs1 rs1 in
    let rs1 := removeBracket rs1 in
    let rs1_num := uchar (get_register_number rs1) in
    let rd_num := uchar (get_register_number rd) in
    let machine_code := machine_code |= b0100011 in
    let machine_code := machine_code |= ((imm & 0x1F) << 7) in
    let machine_code := machine_code |= (b010 << 12) in
    let machine_code := machine_code |= ((rs1_num & 0x1F) << 15) in
    let machine_code := machine_code |= ((rd_num & 0x1F) << 20) in
    let machine_code := machine_code |= ((imm & 0xFE0) << 20) in
    (machine_code, st)
  else if opcode =s? "auipc" then
    let st := incr_count2 st in
    let imm := s32 (convertToDecimal rs1) in
    let rd_num := uchar (get_register_number rd) in
    let machine_code := machine_code |= b0010111 in
    let machine_code := machine_code |= ((rd_num & 0x1F) << 7) in
    let machine_code := machine_code |= ((imm & 0xFFFFF) << 12) in
    (machine_code, st)
  else if opcode =s? "lui" then
    let st := incr_count2 st in
    let imm := s32 (convertToDecimal rs1) in
    let rd_num := uchar (get_register_number rd) in
    let machine_code := machine_code |= b0110111 in
    let machine_code := machine_code |= ((rd_num & 0x1F) << 7) in
    let machine_code := machine_code |= ((imm & 0xFFFFF) << 12) in
    (machine_code, st)
  else if opcode =s? "jal" then
    let st := incr_count2 st in
    let address := find_label_address st rs1 in
    let imm := address - instruction_count2 st in
    let imm := s32 (imm << 2) in
    let rd_num := uchar (get_register_number rd) in
    let machine_code := machine_code |= b1101111 in
    let machine_code := machine_code |= ((rd_num & 0x1F) << 7) in
    let machine_code := machine_code |= (imm & 0xFF000) in
    let machine_code := machine_code |= ((imm & 0x800) << 9) in
    let machine_code := machine_code |= ((imm & 0x7FE) << 20) in
    let machine_code := machine_code |= ((imm & 0x100000) << 11) in
    (machine_code, st)
  else if opcode =s? "li" then
    let st := incr_count2 st in
    let rd_num := uchar (get_register_number rd) in
    let rs1_num := uchar (get_register_number "x0") in
    let imm := s32 (convertToDecimal rs1) in
    let machine_code := machine_code |= b0010011 in
    let machine_code := machine_code |= ((rd_num & 0x1F) << 7) in
    let machine_code := machine_code |= (b000 << 12) in
    let machine_code := machine_code |= ((rs1_num & 0x1F) << 15) in
    let machine_code := machine_code |= ((imm & 0xFFF) << 20) in
    (machine_code, st)
  else if opcode =s? "mv" then
    let st := incr_count2 st in
    let rd_num := uchar (get_register_number rd) in
    let rs1_num := uchar (get_register_number rs1) in
    let rs2_num := uchar (get_register_number "x0") in
    let machine_code := machine_code |= b0010011 in
    let machine_code := machine_code |= ((rd_num & 0x1F) << 7) in
    let machine_code := machine_code |= (b000 << 12) in
    let machine_code := machine_code |= ((rs1_num & 0x1F) << 15) in
    let machine_code := machine_code |= ((rs2_num & 0x1F) << 20) in
    let machine_code := machine_code |= (b0000000 << 25) in
    (machine_code, st)
  else (machine_code, st).

Definition assemble_count2 (machine_code : Z) (st : state)
    (opcode rd rs1 rs2 : string) : Z * state :=
  if opcode =s? "j" then
    let st := incr_count2 st in
    let address := find_label_address st rd in
    let imm := address - instruction_count2 st in
    let imm := s32 (imm << 2) in
    let rd_num := uchar (get_register_number "x0") in
    let machine_code := machine_code |= b1101111 in
    let machine_code := machine_code |= ((rd_num & 0x1F) << 7) in
    let machine_code := machine_code |= (imm & 0xFF000) in
    let machine_code := machine_code |= ((imm & 0x800) << 9) in
    let machine_code := machine_code |= ((imm & 0x7FE) << 20) in
    let machine_code := machine_code |= ((imm & 0x100000) << 11) in
    (machine_code, st)
  else if opcode =s? "jr" then
    let st := incr_count2 st in
    let rs1_num := uchar (get_register_number rd) in
    let rd_num := uchar (get_register_number "x0") in
    let imm := 0 in
    let machine_code := machine_code |= b1100111 in
    let machine_code := machine_code |= ((rd_num & 0x1F) << 7) in
    let machine_code := machine_code |= (b000 << 12) in
    let machine_code := machine_code |= ((rs1_num & 0x1F) << 15) in
    let machine_code := machine_code |= ((imm & 0xFFF) << 20) in
    (machine_code, st)
  else (machine_code, st).

Definition assemble_count1 (machine_code : Z) (st : state)
    (opcode rd rs1 rs2 : string) : Z * state :=
  if opcode =s? "ret" then
    let st := incr_count2 st in
    let rs1_num := uchar (get_register_number "ra") in
    let rd_num := uchar (get_register_number "x0") in
    let imm := 0 in
    let machine_code := machine_code |= b1100111 in
    let machine_code := machine_code |= ((rd_num & 0x1F) << 7) in
    let machine_code := machine_code |= (b000 << 12) in
    let machine_code := machine_code |= ((rs1_num & 0x1F) << 15) in
    let machine_code := machine_code |= ((imm & 0xFFF) << 20) in
    (machine_code, st)
  else (machine_code, st).

Definition assemble_fields (st : state) (count : Z)
    (opcode rd rs1 rs2 : string) : Z * state :=
  let machine_code := 0 in
  if count =? 4 then assemble_count4 machine_code st opcode rd rs1 rs2
  else if count =? 3 then assemble_count3 machine_code st opcode rd rs1 rs2
  else if count =? 2 then assemble_count2 machine_code st opcode rd rs1 rs2
  else if count =? 1 then assemble_count1 machine_code st opcode rd rs1 rs2
  else (machine_code, st).

Definition assemble_instruction (st : state) (instruction : string)
    : Z * state :=
  let '(count, f) :=
    sscanf4 instruction (mkFields uninit uninit uninit uninit) in
  let '(_, temp_inst) := splitString instruction in
  let '(count, f) :=
    match temp_inst with
    | String _ _ => sscanf4 temp_inst f
    | EmptyString => (count, f)
    end in
  assemble_fields st count (f_opcode f) (f_rd f) (f_rs1 f) (f_rs2 f).

(** ** assembler.c: the first pass *)

Definition first_pass (st : state) (instruction : string) : state :=
  let '(count, f) :=
    sscanf4 instruction (mkFields uninit uninit uninit uninit) in
  let '(lbl, temp_inst) := splitString instruction in
  let '(count, f, st) :=
    match temp_inst with
    | String _ _ =>
        let '(count, f) := sscanf4 temp_inst f in
        let lbl := remove_colon lbl in
        let label2 := sscanf_s lbl uninit in
        (count, f, add_label label2 (instruction_count st + 1) st)
    | EmptyString => (count, f, st)
    end in
  let opcode := f_opcode f in
  if count =? 4 then
    if (opcode =s? "add") || (opcode =s? "sub") || (opcode =s? "or") ||
       (opcode =s? "and") || (opcode =s? "xor") || (opcode =s? "sll") ||
       (opcode =s? "srl") || (opcode =s? "sra") || (opcode =s? "slt") ||
       (opcode =s? "sltu")
    then incr_count st
    else if (opcode =s? "addi") || (opcode =s? "slli") ||
            (opcode =s? "slti") || (opcode =s? "sltiu") ||
            (opcode =s? "xori") || (opcode =s? "srli") ||
            (opcode =s? "srai") || (opcode =s? "ori") || (opcode =s? "andi")
    then incr_count st
    else if (opcode =s? "jalr") || (opcode =s? "beq") || (opcode =s? "bne") ||
            (opcode =s? "blt") || (opcode =s? "bge") || (opcode =s? "bltu") ||
            (opcode =s? "bgeu") || (opcode =s? "bgt") || (opcode =s? "ble")
    then incr_count st
    else st
  else if count =? 3 then
    if (opcode =s? "lb") || (opcode =s? "lh") || (opcode =s? "lw") ||
       (opcode =s? "lbu") || (opcode =s? "lhu") || (opcode =s? "sb") ||
       (opcode =s? "sh") || (opcode =s? "sw")
    then incr_count st
    else if (opcode =s? "auipc") || (opcode =s? "lui") || (opcode =s? "jal")
    then incr_count st
    else if (opcode =s? "mv") || (opcode =s? "li")
    then incr_count st
    else st
  else if count =? 2 then
    if (opcode =s? "j") || (opcode =s? "jr") then incr_count st else st
  else if count =? 1 then
    if opcode =s? "ret" then incr_count st else st
  else st.

End Assembler.

(** ** assembler.c: the output formatters.  A file is the text written to
    it so far. *)

Definition output_hex (code : Z) (output_file : string) : string :=
  output_file ++ "0x" ++ printf_08X code ++ String newline EmptyString.

(** The loop [for (i = n - 1; i >= 0; --i) fputc(...)]; [1 << 31] is the
    sign bit, and the [&] is taken on [unsigned int]. *)
Fixpoint output_binary_loop (n : nat) (code : Z) (output_file : string)
    : string :=
  match n with
  | O => output_file
  | S i =>
      let c := if (code & u32 (1 << Z.of_nat i)) =? 0 then "0"%char
               else "1"%char in
      output_binary_loop i code (output_file ++ String c EmptyString)
  end.

Definition output_binary (code : Z) (output_file : string) : string :=
  output_binary_loop 32 code output_file ++ String newline EmptyString.

(** ** assembler_main.c *)

(** [fgets(line, size, f)] on the unread text of the file: the line stored
    (at most [size - 1] characters, ending after a line break) and the text
    left unread. *)
Fixpoint fgets (room : nat) (file : string) : string * string :=
  match room, file with
  | S room', String c r =>
      if Ascii.eqb c newline then (String c EmptyString, r)
      else let (l, r') := fgets room' r in (String c l, r')
  | _, _ => (EmptyString, file)
  end.

Definition MAX_LINE_LENGTH : nat := 256.

(** The lines a loop [while (fgets(line, sizeof(line), f))] sees.  Every
    call takes at least one character, so [fuel] rounds suffice for a file
    of [fuel] characters. *)
Fixpoint read_lines (fuel : nat) (file : string) : list string :=
  match fuel with
  | O => []
  | S fuel' =>
      match file with
      | EmptyString => []
      | _ => let (line, rest) := fgets (MAX_LINE_LENGTH - 1) file in
             line :: read_lines fuel' rest
      end
  end.

Definition file_lines (file : string) : list string :=
  read_lines (String.length file) file.

(** What [fopen] returns: the stream, or [NULL], in which case [strerror]
    is the reason that [perror] prints.  The stream of the input file is its
    text; nothing is read from the output file, which mode [w] empties. *)
Inductive fopen_result (F : Type) : Type :=
| Opened (file : F)
| Failed (strerror : string).

Arguments Opened {F} file.
Arguments Failed {F} strerror.

Definition perror (s strerror : string) : string :=
  s ++ ": " ++ strerror ++ String newline EmptyString.

Section Driver.

Variable uninit : string.

Fixpoint pass_one (lines : list string) (st : state) : state :=
  match lines with
  | line :: rest =>
      let line := removeComment line in
      let line := replaceCommas line in
      pass_one rest (first_pass uninit st line)
  | [] => st
  end.

(** [isHex & machine_code] and [isBin & machine_code]: a [bool] is 0 or 1,
    so the guards test the lowest bit of the word. *)
Definition Z_of_bool (b : bool) : Z := if b then 1 else 0.

Fixpoint pass_two (isHex isBin : bool) (lines : list string)
    (st : state) (output_file : string) : state * string :=
  match lines with
  | line :: rest =>
      let line := removeComment line in
      let line := replaceCommas line in
      let '(machine_code, st) := assemble_instruction uninit st line in
      let output_file :=
        if negb ((Z_of_bool isHex & machine_code) =? 0)
        then output_hex machine_code output_file
        else if negb ((Z_of_bool isBin & machine_code) =? 0)
        then output_binary machine_code output_file
        else output_file in
      pass_two isHex isBin rest st output_file
  | [] => (st, output_file)
  end.

(** What a run leaves behind: the exit code, the text on [stderr], and the
    output file ([None] when it was never opened). *)
Record outcome := mkOutcome {
  exit_code : Z;
  stderr : string;
  output : option string
}.

Definition usage : string :=
  " <input_file> <output_file> <-h|-b>" ++ String newline EmptyString.

(** [input] and [output] are what [fopen] returns for the two files before
    the first pass, [input'] and [output'] what it returns when the files
    are opened again for the second. *)
Definition main (argv : list string)
    (input : fopen_result string) (output : fopen_result unit)
    (input' : fopen_result string) (output' : fopen_result unit) : outcome :=
  let argc := Z.of_nat (List.length argv) in
  if argc <? 4 then
    mkOutcome 1 ("Usage: " ++ nth 0 argv EmptyString ++ usage) None
  else
    match input with
    | Failed strerror =>
        mkOutcome 1 (perror "Error opening input file" strerror) None
    | Opened input_file =>
    match output with
    | Failed strerror =>
        mkOutcome 1 (perror "Error opening output file" strerror) None
    | Opened _ =>
    let isHex := nth 3 argv EmptyString =s? "-h" in
    let isBin := nth 3 argv EmptyString =s? "-b" in
    if negb isHex && negb isBin then
      mkOutcome 1
        ("Invalid Output flag. Usage: " ++ nth 0 argv EmptyString ++ usage)
        (Some EmptyString)
    else
      let st := pass_one (file_lines input_file) initial_state in
      match input' with
      | Failed strerror =>
          mkOutcome 1 (perror "Error opening input file" strerror)
                    (Some EmptyString)
      | Opened input_file =>
      match output' with
      | Failed strerror =>
          mkOutcome 1 (perror "Error opening output file" strerror)
                    (Some EmptyString)
      | Opened _ =>
      let '(_, output_file) :=
        pass_two isHex isBin (file_lines input_file) st EmptyString in
      mkOutcome 0 EmptyString (Some output_file)
      end
      end
    end
    end.

(** The run in which the four calls of [fopen] succeed and the input file
    has the same text both times. *)
Definition run (argv : list string) (input_file : string) : outcome :=
  main argv (Opened input_file) (Opened tt) (Opened input_file) (Opened tt).

End Driver.

(** ** Notions the statements use *)

(** A source line as both passes see it: the comment is cut off and
    commas are blanks. *)
Definition normalise (line : string) : string :=
  replaceCommas (removeComment line).

(** The text both passes scan for the instruction: what follows the first
    colon when something does, the whole line otherwise. *)
Definition body (instruction : string) : string :=
  match snd (splitString instruction) with
  | String c r => String c r
  | EmptyString => instruction
  end.

(** The supported mnemonics, by the number of fields scanned with them. *)
Definition r_type : list string :=
  ["add"; "sub"; "and"; "or"; "xor"; "sll"; "srl"; "sra"; "slt"; "sltu"].
Definition i_type : list string :=
  ["addi"; "slti"; "sltiu"; "xori"; "ori"; "andi"; "slli"; "srli"; "srai";
   "jalr"].
Definition b_type : list string :=
  ["beq"; "bne"; "blt"; "bge"; "bltu"; "bgeu"; "bgt"; "ble"].
Definition loads : list string := ["lb"; "lh"; "lw"; "lbu"; "lhu"].
Definition stores : list string := ["sb"; "sh"; "sw"].

Definition mnemonics (count : Z) : list string :=
  if count =? 4 then r_type ++ i_type ++ b_type
  else if count =? 3 then loads ++ stores ++ ["auipc"; "lui"; "jal"; "li"; "mv"]
  else if count =? 2 then ["j"; "jr"]
  else if count =? 1 then ["ret"]
  else [].

Definition mem (x : string) (l : list string) : bool :=
  existsb (String.eqb x) l.

Definition recognised (count : Z) (opcode : string) : bool :=
  mem opcode (mnemonics count).

(** A line holds a recognised instruction when the first of the (at most
    four) tokens of its body is a supported mnemonic for that many tokens. *)
Definition recognised_line (instruction : string) : bool :=
  match scan_tokens 4 (body instruction) with
  | opcode :: rest => recognised (Z.of_nat (List.length (opcode :: rest))) opcode
  | [] => false
  end.

Definition count_recognised (lines : list string) : Z :=
  Z.of_nat (List.length (filter (fun l => recognised_line (normalise l)) lines)).

Fixpoint count_lines (text : string) : Z :=
  match text with
  | String c r => (if Ascii.eqb c newline then 1 else 0) + count_lines r
  | EmptyString => 0
  end.

(** What the head of [assemble_instruction] and of [first_pass] leaves in
    [count] and in the four buffers. *)
Definition scan_head (uninit instruction : string) : Z * fields :=
  let '(count, f) :=
    sscanf4 instruction (mkFields uninit uninit uninit uninit) in
  match snd (splitString instruction) with
  | String c r => sscanf4 (String c r) f
  | EmptyString => (count, f)
  end.

(** The formatters, as the specification words them. *)

Definition hex_alphabet : list ascii :=
  list_ascii_of_string "0123456789ABCDEF".

Definition is_upper_hex (c : ascii) : bool :=
  existsb (Ascii.eqb c) hex_alphabet.

Definition is_bit (c : ascii) : bool :=
  Ascii.eqb c "0" || Ascii.eqb c "1".

Fixpoint all_chars (p : ascii -> bool) (s : string) : bool :=
  match s with
  | String c r => p c && all_chars p r
  | EmptyString => true
  end.

(** The value a text of upper-case hexadecimal digits shows. *)
Fixpoint index_of (c : ascii) (l : list ascii) : Z :=
  match l with
  | d :: r => if Ascii.eqb c d then 0 else 1 + index_of c r
  | [] => 0
  end.

Definition hex_digit_value (c : ascii) : Z := index_of c hex_alphabet.

Definition hex_value (s : string) : Z :=
  fold_left (fun acc c => acc * 16 + hex_digit_value c)
            (list_ascii_of_string s) 0.

(** The big-endian expansion of a value into [n] bits. *)
Fixpoint bits_be (n : nat) (v : Z) : string :=
  match n with
  | O => EmptyString
  | S i =>
      String (if Z.testbit v (Z.of_nat i) then "1" else "0")%char (bits_be i v)
  end.

(** [k] hexadecimal digits of a number, leading zeros included. *)
Fixpoint fixed_hex (k : nat) (n : Z) : string :=
  match k with
  | O => EmptyString
  | S k' => fixed_hex k' (n / 16) ++ String (hex_char (n mod 16)) EmptyString
  end.

Definition nl : string := String newline EmptyString.

(** What pass two does with a recognised instruction: it counts it and
    returns an odd 32-bit word. *)
Definition emitted (st : state) (r : Z * state) : Prop :=
  snd r = incr_count2 st /\ Z.odd (fst r) = true /\ 0 <= fst r < 2 ^ 32.

(** The state pass one works on once the label of the line, if any, is in
    the table. *)
Definition labelled (uninit : string) (st : state) (instruction : string)
    : state :=
  match splitString instruction with
  | (lbl, String _ _) =>
      add_label (sscanf_s (remove_colon lbl) uninit)
                (instruction_count st + 1) st
  | (_, EmptyString) => st
  end.

(** A run reports an error when it exits with a non-zero code or writes a
    diagnostic. *)
Definition reports_error (o : outcome) : Prop :=
  exit_code o <> 0 \/ stderr o <> EmptyString.

(** The register operands of the supported instructions: which operand
    text names the register, and at which bit its five-bit field starts.
    [Mem] is the register inside a memory operand [imm(reg)]. *)
Inductive operand := Rd | Rs1 | Rs2 | Mem.

(** The text and the register a memory operand [imm(reg)] is taken apart
    into. *)
Definition mem_imm (uninit m : string) : Z :=
  convertToDecimal (separateImmediate (sscanf_s m uninit)).

Definition mem_reg (m : string) : string :=
  removeBracket (sscanf_s (separate_rs1 m) (separate_rs1 m)).

Definition operand_text (o : operand) (rd rs1 rs2 : string) : string :=
  match o with
  | Rd => rd
  | Rs1 => rs1
  | Rs2 => rs2
  | Mem => mem_reg rs1
  end.

Definition register_fields (count : Z) (opcode : string)
    : list (operand * Z) :=
  if count =? 4 then
    if mem opcode r_type then [(Rd, 7); (Rs1, 15); (Rs2, 20)]
    else if mem opcode i_type then [(Rd, 7); (Rs1, 15)]
    else if mem opcode ["beq"; "bne"; "blt"; "bge"; "bltu"; "bgeu"]
    then [(Rd, 15); (Rs1, 20)]
    else if mem opcode ["bgt"; "ble"] then [(Rd, 20); (Rs1, 15)]
    else []
  else if count =? 3 then
    if mem opcode loads then [(Rd, 7); (Mem, 15)]
    else if mem opcode stores then [(Rd, 20); (Mem, 15)]
    else if mem opcode ["auipc"; "lui"; "jal"; "li"] then [(Rd, 7)]
    else if mem opcode ["mv"] then [(Rd, 7); (Rs1, 15)]
    else []
  else if count =? 2 then
    if mem opcode ["jr"] then [(Rd, 15)] else []
  else [].

(** The five bits of a word from bit [pos] up. *)
Definition field5 (pos w : Z) : Z := (w >> pos) & 0x1F.

(** Operand texts as they are written in a source line.  Solid text has
    no white space in it; a token is solid text that is not empty and has no
    colon; a word has no bracket either, as the two parts of a memory
    operand [imm(reg)]. *)
Definition solid (w : string) : Prop :=
  all_chars (fun c => negb (isspace c)) w = true.

Definition colon_free (w : string) : Prop :=
  all_chars (fun c => negb (Ascii.eqb c ":")) w = true.

Definition token (t : string) : Prop :=
  t <> EmptyString /\ solid t /\ colon_free t.

Definition plain (c : ascii) : bool :=
  negb (isspace c) && negb (Ascii.eqb c "(") && negb (Ascii.eqb c ")") &&
  negb (Ascii.eqb c ":").

Definition word (w : string) : Prop := all_chars plain w = true.

(** A line made of tokens with one blank between them. *)
Fixpoint join (ts : list string) : string :=
  match ts with
  | [] => EmptyString
  | [t] => t
  | t :: rest => t ++ String " " (join rest)
  end.

(** The register names of the specification, each list in the order of
    the register indices. *)
Definition numeric_names : list string :=
  ["x0"; "x1"; "x2"; "x3"; "x4"; "x5"; "x6"; "x7"; "x8"; "x9"; "x10"; "x11";
   "x12"; "x13"; "x14"; "x15"; "x16"; "x17"; "x18"; "x19"; "x20"; "x21";
   "x22"; "x23"; "x24"; "x25"; "x26"; "x27"; "x28"; "x29"; "x30"; "x31"].

Definition abi_names : list string :=
  ["zero"; "ra"; "sp"; "gp"; "tp"; "t0"; "t1"; "t2"; "s0"; "s1"; "a0"; "a1";
   "a2"; "a3"; "a4"; "a5"; "a6"; "a7"; "s2"; "s3"; "s4"; "s5"; "s6"; "s7";
   "s8"; "s9"; "s10"; "s11"; "t3"; "t4"; "t5"; "t6"].

(** An ABI name with its numeric counterpart. *)
Definition aliases : list (string * string) := combine abi_names numeric_names.

Definition is_register_name (s : string) : bool :=
  mem s numeric_names || mem s abi_names.

(** The strings the fallback of [get_register_number] accepts: an [x] and
    then text in which [atoi] reads a number from 0 to 31. *)
Definition x_numbered (s : string) : bool :=
  starts_with "x" s &&
  let reg_num := atoi (String.substring 1 (String.length s - 1) s) in
  (0 <=? reg_num) && (reg_num <=? 31).

Fixpoint blanks (k : nat) : string :=
  match k with
  | O => EmptyString
  | S k' => String " " (blanks k')
  end.

(** The guards of [main] around the two formatters. *)
Definition write_word (isHex isBin : bool) (machine_code : Z)
    (output_file : string) : string :=
  if negb ((Z_of_bool isHex & machine_code) =? 0)
  then output_hex machine_code output_file
  else if negb ((Z_of_bool isBin & machine_code) =? 0)
  then output_binary machine_code output_file
  else output_file.

(** A label with an entry in the table. *)
Definition defined (lbl : string) (tbl : list Label) : Prop :=
  exists e, In e tbl /\ label e = lbl.

(** The labels pass one enters for a list of lines: one for every line in
    which text follows the first colon. *)
Definition line_label (uninit line : string) : list string :=
  match splitString (normalise line) with
  | (lbl, String _ _) => [sscanf_s (remove_colon lbl) uninit]
  | (_, EmptyString) => []
  end.

(** The programs of the examples. *)
Definition loop_program : string :=
  ("loop: addi x1, x1, 1" ++ nl ++ "      bne  x1, x2, loop" ++ nl)%string.

Definition loop_program_blt : string :=
  ("loop: addi x1, x1, 1" ++ nl ++ "      blt  x1, x2, loop" ++ nl)%string.

Definition twice_defined : string :=
  ("a: addi x1, x0, 1" ++ nl ++ "a: addi x1, x0, 2" ++ nl)%string.

Definition dangling_branch : string := ("beq x1, x2, nowhere" ++ nl)%string.


(** The source line of an instruction with [count] fields: its mnemonic and
    the operands, one blank between them. *)
Definition line_of (count : Z) (opcode rd rs1 rs2 : string) : string :=
  join (firstn (Z.to_nat count) [opcode; rd; rs1; rs2]).

(** The byte offset of a branch or jump to [lbl] from the instruction that
    pass two encodes next: [(k - j) * 4] for the index [k] of the label and
    the index [j] of the instruction, as an [int]. *)
Definition branch_offset (st : state) (lbl : string) : Z :=
  s32 ((find_label_address st lbl - (instruction_count2 st + 1)) * 4).

(** ** Notions of the further properties *)

(** The five bits the encoder keeps of the number of a register. *)
Definition reg (name : string) : Z := get_register_number name mod 32.

(** The words of the six instruction formats, as sums of their fields. *)
Definition R_word (funct7 rs2 rs1 funct3 rd opcode : Z) : Z :=
  opcode + rd * 2 ^ 7 + funct3 * 2 ^ 12 + rs1 * 2 ^ 15 + rs2 * 2 ^ 20 +
  funct7 * 2 ^ 25.

Definition I_word (imm rs1 funct3 rd opcode : Z) : Z :=
  opcode + rd * 2 ^ 7 + funct3 * 2 ^ 12 + rs1 * 2 ^ 15 +
  imm mod 4096 * 2 ^ 20.

Definition S_word (imm rs2 rs1 funct3 opcode : Z) : Z :=
  opcode + imm mod 32 * 2 ^ 7 + funct3 * 2 ^ 12 + rs1 * 2 ^ 15 +
  rs2 * 2 ^ 20 + (imm / 32) mod 128 * 2 ^ 25.

Definition U_word (imm rd opcode : Z) : Z :=
  opcode + rd * 2 ^ 7 + imm mod 2 ^ 20 * 2 ^ 12.

Definition J_word (off rd opcode : Z) : Z :=
  opcode + rd * 2 ^ 7 + (off / 2 ^ 12) mod 2 ^ 8 * 2 ^ 12 +
  (off / 2 ^ 11) mod 2 * 2 ^ 20 + (off / 2) mod 2 ^ 10 * 2 ^ 21 +
  (off / 2 ^ 20) mod 2 * 2 ^ 31.

(** [sign] is what stands in bit 31, where the B format has bit 12 of the
    offset. *)
Definition B_word (sign off rs2 rs1 funct3 : Z) : Z :=
  0x63 + (off / 2 ^ 11) mod 2 * 2 ^ 7 + (off / 2) mod 2 ^ 4 * 2 ^ 8 +
  funct3 * 2 ^ 12 + rs1 * 2 ^ 15 + rs2 * 2 ^ 20 +
  (off / 2 ^ 5) mod 2 ^ 6 * 2 ^ 25 + sign * 2 ^ 31.

(** The mnemonics with the codes the source gives them: [funct3] and
    [funct7] of the register instructions, *)
Definition r_funct : list (string * (Z * Z)) :=
  [("add", (0, 0)); ("sub", (0, 0x20)); ("or", (6, 0)); ("and", (7, 0));
   ("xor", (4, 0)); ("sll", (1, 0)); ("srl", (5, 0)); ("sra", (5, 0x20));
   ("slt", (2, 0)); ("sltu", (3, 0))].

(** opcode and [funct3] of the instructions with a 12-bit immediate, *)
Definition i_funct : list (string * (Z * Z)) :=
  [("addi", (0x13, 0)); ("slti", (0x13, 2)); ("sltiu", (0x13, 3));
   ("xori", (0x13, 4)); ("ori", (0x13, 6)); ("andi", (0x13, 7));
   ("slli", (0x13, 1)); ("srli", (0x13, 5)); ("jalr", (0x67, 0))].

(** [funct3] and [funct7] of the shifts by a constant, *)
Definition shift_funct : list (string * (Z * Z)) :=
  [("slli", (1, 0)); ("srli", (5, 0)); ("srai", (5, 0x20))].

(** [funct3] of the loads and of the stores, *)
Definition load_funct : list (string * Z) :=
  [("lb", 0); ("lh", 1); ("lw", 2); ("lbu", 4); ("lhu", 5)].

Definition store_funct : list (string * Z) :=
  [("sb", 0); ("sh", 1); ("sw", 2)].

(** the opcode of the instructions with a 20-bit immediate, *)
Definition u_opcode : list (string * Z) := [("auipc", 0x17); ("lui", 0x37)].

(** [funct3] of the branches, and whether the two registers change
    places. *)
Definition b_funct : list (string * (Z * bool)) :=
  [("beq", (0, false)); ("bne", (1, false)); ("blt", (4, false));
   ("bge", (5, false)); ("bltu", (6, false)); ("bgeu", (7, false));
   ("bgt", (4, true)); ("ble", (5, true))].

(** The low [k] bits of [v] read as a signed number. *)
Definition sext (k v : Z) : Z :=
  let u := v mod 2 ^ k in if u <? 2 ^ (k - 1) then u else u - 2 ^ k.

(** The [k] bits of a word from bit [p] up. *)
Definition field (w p k : Z) : Z := (w / 2 ^ p) mod 2 ^ k.

(** The immediate a RISC-V processor reads from a word of the I, S, J and
    B formats. *)
Definition I_imm (w : Z) : Z := sext 12 (field w 20 12).

Definition S_imm (w : Z) : Z := sext 12 (field w 25 7 * 2 ^ 5 + field w 7 5).

Definition J_imm (w : Z) : Z :=
  sext 21 (field w 31 1 * 2 ^ 20 + field w 12 8 * 2 ^ 12 +
           field w 20 1 * 2 ^ 11 + field w 21 10 * 2).

Definition B_imm (w : Z) : Z :=
  sext 13 (field w 31 1 * 2 ^ 12 + field w 7 1 * 2 ^ 11 +
           field w 25 6 * 2 ^ 5 + field w 8 4 * 2).

(** What may stand between two operands: white space and commas. *)
Definition separator_char (c : ascii) : bool := isspace c || Ascii.eqb c ",".

Definition separator (s : string) : Prop :=
  s <> EmptyString /\ all_chars separator_char s = true.

(** Operand text: not empty, and without white space, comma or colon. *)
Definition atom (t : string) : Prop :=
  t <> EmptyString /\
  all_chars (fun c => negb (separator_char c) && negb (Ascii.eqb c ":")) t
  = true.

(** A line written as tokens, each with the separator that follows it. *)
Fixpoint spaced (ps : list (string * string)) : string :=
  match ps with
  | [] => EmptyString
  | (t, sep) :: rest => t ++ sep ++ spaced rest
  end.

Definition white (s : string) : Prop := all_chars isspace s = true.

(** The decimal numeral of a number, with a minus sign when it is
    negative. *)
Definition decimal (n : Z) : string := NilZero.string_of_int (Z.to_int n).

Definition no_newline (l : string) : Prop :=
  all_chars (fun c => negb (Ascii.eqb c newline)) l = true.

(** The text of a file whose lines are [ls], each ended by a line break. *)
Fixpoint unlines (ls : list string) : string :=
  match ls with
  | [] => EmptyString
  | l :: rest => l ++ nl ++ unlines rest
  end.

(** ** The limits of the source *)

(** [INT_MAX] of the targets, and the number of entries of [labelTable]. *)
Definition INT_MAX : Z := 2 ^ 31 - 1.
Definition MAX_INSTRUCTIONS : Z := 100.

(** A string fits an array of [size] bytes when there is room for its
    terminating NUL. *)
Definition fits (size : nat) (s : string) : bool :=
  (String.length s <? size)%nat.

(** [sscanf(s, "%s %s %s %s", opcode, rd, rs1, rs2)] stores every token it
    converts in an array of 20 bytes. *)
Definition fields_fit (s : string) : bool :=
  forallb (fits 20) (scan_tokens 4 s).

(** A text that a C string can hold: no character of it is NUL. *)
Definition c_string (s : string) : bool :=
  all_chars (fun c => negb (Ascii.eqb c Ascii.zero)) s.

(** The head that [first_pass] and [assemble_instruction] share overruns
    none of its arrays: the line, a C string, is scanned into the four
    fields, [splitString] copies the text before the first colon, or the
    whole line when it has none, to [label[30]] and the text after the colon
    to [temp_inst[50]], which is scanned into the four fields in its turn.
    (The memory operand of a load or a store is then taken apart inside
    [rs1] and [temp[20]], which the content of [rs1] fits.) *)
Definition within_buffers (instruction : string) : bool :=
  let '(before, after) := splitString instruction in
  c_string instruction &&
  fields_fit instruction && fits 30 before && fits 50 after &&
  fields_fit after.

(** Text follows the first colon of the line: [first_pass] enters a
    label. *)
Definition labelled_line (instruction : string) : bool :=
  match snd (splitString instruction) with
  | String _ _ => true
  | EmptyString => false
  end.

(** [sscanf(label, "%s", label2)] converts a token, so that [add_label] does
    not read [label2] uninitialised. *)
Definition label_scans (instruction : string) : bool :=
  match scan_tokens 1 (remove_colon (fst (splitString instruction))) with
  | _ :: _ => true
  | [] => false
  end.

(** An entry of the table holds a name, a C string that fits its 256
    bytes, and an address that is an [int] from which a counter can be
    subtracted. *)
Definition entry_ok (e : Label) : bool :=
  c_string (label e) && fits 256 (label e) &&
  (-1 <=? address e) && (address e <=? INT_MAX).

(** A state of the globals that the program can be in: the counters are
    [int]s that can be incremented, and the table has at most
    [MAX_INSTRUCTIONS] entries. *)
Definition state_ok (st : state) : bool :=
  (0 <=? instruction_count st) && (instruction_count st <? INT_MAX) &&
  (0 <=? instruction_count2 st) && (instruction_count2 st <? INT_MAX) &&
  (labelCount st <=? MAX_INSTRUCTIONS) &&
  forallb entry_ok (labelTable st).

(** The calls of the two passes that stay inside the limits. *)
Definition assemble_instruction_defined (st : state) (instruction : string)
    : bool :=
  state_ok st && within_buffers instruction.

Definition first_pass_defined (st : state) (instruction : string) : bool :=
  state_ok st && within_buffers instruction &&
  (negb (labelled_line instruction) ||
   (label_scans instruction && (labelCount st <? MAX_INSTRUCTIONS))).

(** The inputs on which a run of [main] stays inside the limits: every
    line, as the passes see it, overruns no array and has a token in its
    label when it has one, at most [MAX_INSTRUCTIONS] lines enter a label,
    and the lines can be counted in an [int]. *)
Definition line_within_limits (instruction : string) : bool :=
  within_buffers instruction &&
  (negb (labelled_line instruction) || label_scans instruction).

Definition lines_within_limits (lines : list string) : bool :=
  forallb line_within_limits (map normalise lines) &&
  (Z.of_nat (List.length (filter labelled_line (map normalise lines))) <=?
   MAX_INSTRUCTIONS) &&
  (Z.of_nat (List.length lines) <? INT_MAX).

Definition input_within_limits (input : string) : bool :=
  lines_within_limits (file_lines input).

(** What [fopen] returned is a stream whose text is within these limits, or
    no stream at all. *)
Definition opened {F : Type} (r : fopen_result F) : bool :=
  match r with
  | Opened _ => true
  | Failed _ => false
  end.

Definition stream_within_limits (r : fopen_result string) : bool :=
  match r with
  | Opened input_file => input_within_limits input_file
  | Failed _ => true
  end.

(** [add_label] stores within the table: there is a free entry, and the
    name and the address make an entry as [entry_ok] has them. *)
Definition add_label_defined (lbl : string) (addr : Z) (st : state) : bool :=
  state_ok st && (labelCount st <? MAX_INSTRUCTIONS) &&
  entry_ok (mkLabel lbl addr).

(** Every call of [first_pass] in pass one, and of [assemble_instruction]
    in pass two, stays inside the limits. *)
Fixpoint pass_one_defined (uninit : string) (lines : list string)
    (st : state) : bool :=
  match lines with
  | line :: rest =>
      first_pass_defined st (normalise line) &&
      pass_one_defined uninit rest (first_pass uninit st (normalise line))
  | [] => true
  end.

Fixpoint pass_two_defined (uninit : string) (lines : list string)
    (st : state) : bool :=
  match lines with
  | line :: rest =>
      assemble_instruction_defined st (normalise line) &&
      pass_two_defined uninit rest
        (snd (assemble_instruction uninit st (normalise line)))
  | [] => true
  end.

(** ** Source lines as the specification describes them *)

(** A line of the input format: blanks, an optional label with its colon,
    blanks, the tokens of an optional instruction, each with the separators
    that follow it, an optional comment, and the line break. *)
Record source_line := mkLine {
  sl_indent : string;
  sl_label : option string;
  sl_gap : string;
  sl_tokens : list (string * string);
  sl_comment : option string
}.

Definition label_text (l : source_line) : string :=
  match sl_label l with
  | Some name => name ++ ":"
  | None => EmptyString
  end.

Definition comment_text (l : source_line) : string :=
  match sl_comment l with
  | Some c => "#" ++ c
  | None => EmptyString
  end.

(** The line without its line break, the line, and the file. *)
Definition line_body (l : source_line) : string :=
  sl_indent l ++ label_text l ++ sl_gap l ++ spaced (sl_tokens l) ++
  comment_text l.

Definition text_of (l : source_line) : string := line_body l ++ nl.

Definition program_text (ls : list source_line) : string :=
  unlines (map line_body ls).

(** The characters of a label and of a token, and those between them:
    blanks, tabs and commas. *)
Definition token_char (c : ascii) : bool :=
  negb (separator_char c) && negb (Ascii.eqb c ":") &&
  negb (Ascii.eqb c "#").

Definition blank_char (c : ascii) : bool :=
  separator_char c && negb (Ascii.eqb c newline).

Definition nonempty (s : string) : bool :=
  match s with
  | String _ _ => true
  | EmptyString => false
  end.

Definition token_ok (t : string) : bool := nonempty t && all_chars token_char t.

(** Only the last token can do without a separator after it. *)
Fixpoint tokens_ok (ps : list (string * string)) : bool :=
  match ps with
  | [] => true
  | (t, sep) :: rest =>
      token_ok t && all_chars blank_char sep &&
      (nonempty sep || match rest with [] => true | _ => false end) &&
      tokens_ok rest
  end.

(** A well-formed line: a mnemonic and at most three operands, no line
    break inside, and at most the 255 characters that [fgets] reads at a
    time. *)
Definition well_formed (l : source_line) : bool :=
  all_chars blank_char (sl_indent l) && all_chars blank_char (sl_gap l) &&
  match sl_label l with
  | Some name => token_ok name
  | None => true
  end &&
  tokens_ok (sl_tokens l) && (List.length (sl_tokens l) <=? 4)%nat &&
  match sl_comment l with
  | Some c => all_chars (fun c => negb (Ascii.eqb c newline)) c
  | None => true
  end &&
  (String.length (text_of l) <=? 255)%nat.

(** The line holds an instruction: its first token is a supported mnemonic
    for the number of its tokens. *)
Definition holds_instruction (l : source_line) : bool :=
  match map fst (sl_tokens l) with
  | opcode :: operands =>
      recognised (Z.of_nat (List.length (opcode :: operands))) opcode
  | [] => false
  end.

Definition instructions (ls : list source_line) : Z :=
  Z.of_nat (List.length (filter holds_instruction ls)).

(** The label that pass one enters for the line: the label of the line,
    unless the comment follows its colon at once. *)
Definition entered (l : source_line) : list string :=
  match sl_label l, sl_gap l, sl_tokens l, sl_comment l with
  | Some name, EmptyString, [], Some _ => []
  | Some name, _, _, _ => [name]
  | None, _, _, _ => []
  end.

(** The loop of the examples with a comment, a blank line and a label at
    its end: five lines, two of them with an instruction. *)
Definition annotated_loop : list source_line :=
  [mkLine "" (Some "loop") " "
          [("addi", " "); ("x1", ", "); ("x1", ", "); ("1", "")] None;
   mkLine "" None "" [] (Some " only a comment");
   mkLine "" None "" [] None;
   mkLine "      " None ""
          [("bne", "  "); ("x1", ", "); ("x2", ", "); ("loop", "")] None;
   mkLine "" (Some "end") "" [] None].

(** What is left of a line when the comment is cut off. *)
Definition seen (l : source_line) : string :=
  sl_indent l ++ label_text l ++ sl_gap l ++ spaced (sl_tokens l) ++
  match sl_comment l with
  | Some _ => EmptyString
  | None => nl
  end.

Definition hash_free (s : string) : Prop :=
  all_chars (fun c => negb (Ascii.eqb c "#")) s = true.

(** Where [%s] stops at once: at the end of the text and at white space. *)
Definition stops (s : string) : bool :=
  match s with
  | String c _ => isspace c
  | EmptyString => true
  end.

(** * Properties *)

(** ** Words and bits *)

Lemma u32_range z : 0 <= u32 z < 2 ^ 32.
Proof. unfold u32. apply Z.mod_pos_bound. lia. Qed.

Lemma or_assign_range m e :
  0 <= m < 2 ^ 32 -> 0 <= or_assign m e < 2 ^ 32.
Proof.
  intros Hm. unfold or_assign.
  pose proof (u32_range e) as He.
  split.
  - apply Z.lor_nonneg. lia.
  - destruct (Z.eq_dec (Z.lor m (u32 e)) 0) as [E | E]; [lia |].
    apply Z.log2_lt_cancel.
    rewrite Z.log2_lor by lia.
    rewrite (Z.log2_pow2 32) by lia.
    destruct (Z.eq_dec m 0) as [-> | Hm0];
      destruct (Z.eq_dec (u32 e) 0) as [E0 | He0];
      try rewrite E0; cbn [Z.log2]; try lia.
    + rewrite Z.max_r by (apply Z.log2_nonneg).
      apply Z.log2_lt_pow2; lia.
    + rewrite Z.max_l by (apply Z.log2_nonneg).
      apply Z.log2_lt_pow2; lia.
    + apply Z.max_lub_lt; apply Z.log2_lt_pow2; lia.
Qed.

Lemma odd_or_assign_l m e : Z.odd m = true -> Z.odd (or_assign m e) = true.
Proof.
  unfold or_assign. rewrite <- !Z.bit0_odd, Z.lor_spec.
  intros ->. reflexivity.
Qed.

Lemma odd_or_assign_first e :
  Z.odd (u32 e) = true -> Z.odd (or_assign 0 e) = true.
Proof. unfold or_assign. rewrite Z.lor_0_l. auto. Qed.

(** A word that went through [|=] only is a 32-bit value. *)
Ltac word_range :=
  repeat match goal with
         | |- 0 <= or_assign _ _ < 2 ^ 32 => apply or_assign_range
         | |- 0 <= 0 < 2 ^ 32 => lia
         end.

(** Every supported mnemonic starts its word with an odd opcode. *)
Ltac word_odd :=
  repeat match goal with
         | |- Z.odd (or_assign 0 _) = true =>
             apply odd_or_assign_first; reflexivity
         | |- Z.odd (or_assign _ _) = true => apply odd_or_assign_l
         end.

(** ** Recognised mnemonics: both passes agree *)

Ltac split_opcode :=
  match goal with
  | |- context [String.eqb ?op ?lit] =>
      let E := fresh "E" in
      destruct (String.eqb op lit) eqn:E;
      [ apply String.eqb_eq in E; subst op;
        cbn [String.eqb Ascii.eqb Bool.eqb orb andb fst snd]
      | cbn [orb andb fst snd] ]
  end.

(** Reducing the dispatch on a mnemonic that is known. *)
Ltac concrete_opcode :=
  cbn [Z.eqb Pos.eqb String.eqb Ascii.eqb Bool.eqb]; cbv zeta.

Ltac in_cases H :=
  cbn [In app] in H;
  repeat (destruct H as [<- | H]; [| try contradiction]).

Ltac emitted_word :=
  split; [reflexivity | split; [word_odd | word_range]].

Lemma assemble_count4_recognised st opcode rd rs1 rs2 :
  if recognised 4 opcode
  then emitted st (assemble_count4 0 st opcode rd rs1 rs2)
  else assemble_count4 0 st opcode rd rs1 rs2 = (0, st).
Proof.
  unfold recognised, mem, mnemonics, r_type, i_type, b_type, emitted.
  cbn [Z.eqb Pos.eqb app existsb].
  unfold assemble_count4. cbv zeta.
  repeat (split_opcode; [emitted_word |]).
  reflexivity.
Qed.

Lemma assemble_count3_recognised uninit st opcode rd rs1 rs2 :
  if recognised 3 opcode
  then emitted st (assemble_count3 uninit 0 st opcode rd rs1 rs2)
  else assemble_count3 uninit 0 st opcode rd rs1 rs2 = (0, st).
Proof.
  unfold recognised, mem, mnemonics, loads, stores, emitted.
  cbn [Z.eqb Pos.eqb app existsb].
  unfold assemble_count3. cbv zeta.
  repeat (split_opcode; [emitted_word |]).
  reflexivity.
Qed.

Lemma assemble_count2_recognised st opcode rd rs1 rs2 :
  if recognised 2 opcode
  then emitted st (assemble_count2 0 st opcode rd rs1 rs2)
  else assemble_count2 0 st opcode rd rs1 rs2 = (0, st).
Proof.
  unfold recognised, mem, mnemonics, emitted.
  cbn [Z.eqb Pos.eqb app existsb].
  unfold assemble_count2. cbv zeta.
  repeat (split_opcode; [emitted_word |]).
  reflexivity.
Qed.

Lemma assemble_count1_recognised st opcode rd rs1 rs2 :
  if recognised 1 opcode
  then emitted st (assemble_count1 0 st opcode rd rs1 rs2)
  else assemble_count1 0 st opcode rd rs1 rs2 = (0, st).
Proof.
  unfold recognised, mem, mnemonics, emitted.
  cbn [Z.eqb Pos.eqb app existsb].
  unfold assemble_count1. cbv zeta.
  repeat (split_opcode; [emitted_word |]).
  reflexivity.
Qed.

Ltac split_count :=
  match goal with
  | |- context [Z.eqb ?c ?k] =>
      let E := fresh "E" in
      destruct (Z.eqb c k) eqn:E; [apply Z.eqb_eq in E; subst c |]
  end.

(** The encoder either emits an odd 32-bit word and counts the instruction
    (supported mnemonic for this field count), or returns 0 and leaves the
    state alone. *)
Lemma assemble_fields_recognised uninit st count opcode rd rs1 rs2 :
  if recognised count opcode
  then emitted st (assemble_fields uninit st count opcode rd rs1 rs2)
  else assemble_fields uninit st count opcode rd rs1 rs2 = (0, st).
Proof.
  unfold assemble_fields. cbv zeta.
  split_count; [apply assemble_count4_recognised |].
  split_count; [apply assemble_count3_recognised |].
  split_count; [apply assemble_count2_recognised |].
  split_count; [apply assemble_count1_recognised |].
  unfold recognised, mnemonics. rewrite E, E0, E1, E2. reflexivity.
Qed.

(** [sscanf] stores no more tokens than it has conversions. *)
Lemma scan_tokens_length n s : (List.length (scan_tokens n s) <= n)%nat.
Proof.
  revert s. induction n as [| n IH]; intros s; cbn [scan_tokens].
  - apply Nat.le_refl.
  - destruct (skip_ws s) as [| c r]; [cbn; lia |].
    destruct (read_token (String c r)) as [t rest]. cbn [List.length].
    specialize (IH rest). lia.
Qed.

Lemma sscanf4_recognised s old :
  recognised (fst (sscanf4 s old)) (f_opcode (snd (sscanf4 s old))) =
  match scan_tokens 4 s with
  | opcode :: rest => recognised (Z.of_nat (List.length (opcode :: rest))) opcode
  | [] => false
  end.
Proof.
  unfold sscanf4. cbn [fst snd].
  destruct (scan_tokens 4 s) as [| a [| b [| c [| d r]]]]; reflexivity.
Qed.

Lemma scan_head_recognised uninit instruction :
  recognised (fst (scan_head uninit instruction))
             (f_opcode (snd (scan_head uninit instruction))) =
  recognised_line instruction.
Proof.
  unfold scan_head, recognised_line, body.
  destruct (sscanf4 instruction _) as [count f] eqn:E.
  destruct (snd (splitString instruction)) as [| c r].
  - rewrite <- sscanf4_recognised
      with (old := mkFields uninit uninit uninit uninit).
    rewrite E. reflexivity.
  - apply sscanf4_recognised.
Qed.

Lemma assemble_instruction_head uninit st instruction :
  assemble_instruction uninit st instruction =
  let '(count, f) := scan_head uninit instruction in
  assemble_fields uninit st count (f_opcode f) (f_rd f) (f_rs1 f) (f_rs2 f).
Proof.
  unfold assemble_instruction, scan_head.
  destruct (sscanf4 instruction _) as [count f].
  destruct (splitString instruction) as [l t]. cbn [snd].
  destruct t; [reflexivity |].
  destruct (sscanf4 _ f). reflexivity.
Qed.

(** Pass two on one line: a recognised instruction is counted and encoded
    as an odd 32-bit word, any other line gives 0 and changes nothing. *)
Lemma assemble_instruction_recognised uninit st instruction :
  if recognised_line instruction
  then emitted st (assemble_instruction uninit st instruction)
  else assemble_instruction uninit st instruction = (0, st).
Proof.
  rewrite assemble_instruction_head.
  rewrite <- (scan_head_recognised uninit).
  destruct (scan_head uninit instruction) as [count f]. cbn [fst snd].
  apply assemble_fields_recognised.
Qed.

Lemma first_pass_recognised uninit st instruction :
  first_pass uninit st instruction =
  if recognised_line instruction
  then incr_count (labelled uninit st instruction)
  else labelled uninit st instruction.
Proof.
  rewrite <- (scan_head_recognised uninit).
  unfold first_pass, scan_head, labelled.
  destruct (sscanf4 instruction _) as [count f].
  destruct (splitString instruction) as [l t]. cbn [snd].
  assert (G : forall count f st,
    (let opcode := f_opcode f in
     if count =? 4 then
       if (opcode =s? "add") || (opcode =s? "sub") || (opcode =s? "or") ||
          (opcode =s? "and") || (opcode =s? "xor") || (opcode =s? "sll") ||
          (opcode =s? "srl") || (opcode =s? "sra") || (opcode =s? "slt") ||
          (opcode =s? "sltu")
       then incr_count st
       else if (opcode =s? "addi") || (opcode =s? "slli") ||
               (opcode =s? "slti") || (opcode =s? "sltiu") ||
               (opcode =s? "xori") || (opcode =s? "srli") ||
               (opcode =s? "srai") || (opcode =s? "ori") || (opcode =s? "andi")
       then incr_count st
       else if (opcode =s? "jalr") || (opcode =s? "beq") || (opcode =s? "bne") ||
               (opcode =s? "blt") || (opcode =s? "bge") || (opcode =s? "bltu") ||
               (opcode =s? "bgeu") || (opcode =s? "bgt") || (opcode =s? "ble")
       then incr_count st
       else st
     else if count =? 3 then
       if (opcode =s? "lb") || (opcode =s? "lh") || (opcode =s? "lw") ||
          (opcode =s? "lbu") || (opcode =s? "lhu") || (opcode =s? "sb") ||
          (opcode =s? "sh") || (opcode =s? "sw")
       then incr_count st
       else if (opcode =s? "auipc") || (opcode =s? "lui") || (opcode =s? "jal")
       then incr_count st
       else if (opcode =s? "mv") || (opcode =s? "li")
       then incr_count st
       else st
     else if count =? 2 then
       if (opcode =s? "j") || (opcode =s? "jr") then incr_count st else st
     else if count =? 1 then
       if opcode =s? "ret" then incr_count st else st
     else st) =
    if recognised count (f_opcode f) then incr_count st else st).
  { clear. intros count f st. cbv zeta.
    generalize (f_opcode f) as opcode. intros opcode.
    unfold recognised, mem, mnemonics, r_type, i_type, b_type, loads, stores.
    split_count.
    { cbn [Z.eqb Pos.eqb app existsb].
      repeat (split_opcode; [reflexivity |]). reflexivity. }
    split_count.
    { cbn [Z.eqb Pos.eqb app existsb].
      repeat (split_opcode; [reflexivity |]). reflexivity. }
    split_count.
    { cbn [Z.eqb Pos.eqb app existsb].
      repeat (split_opcode; [reflexivity |]). reflexivity. }
    split_count.
    { cbn [Z.eqb Pos.eqb app existsb].
      repeat (split_opcode; [reflexivity |]). reflexivity. }
    reflexivity. }
  destruct t as [| c r].
  - apply G.
  - destruct (sscanf4 (String c r) f) as [count' f']. apply G.
Qed.

(** ** Text *)

Lemma append_assoc (a b c : string) : ((a ++ b) ++ c = a ++ (b ++ c))%string.
Proof. induction a as [| x a IH]; cbn; [reflexivity | now rewrite IH]. Qed.

Lemma append_nil_r (a : string) : (a ++ "")%string = a.
Proof. induction a as [| x a IH]; cbn; [reflexivity | now rewrite IH]. Qed.

Lemma length_append (a b : string) :
  String.length (a ++ b) = (String.length a + String.length b)%nat.
Proof. induction a as [| x a IH]; cbn; [reflexivity | now rewrite IH]. Qed.

Lemma count_lines_append (a b : string) :
  count_lines (a ++ b) = count_lines a + count_lines b.
Proof. induction a as [| x a IH]; cbn [append count_lines]; lia. Qed.

Lemma all_chars_append p (a b : string) :
  all_chars p (a ++ b) = all_chars p a && all_chars p b.
Proof.
  induction a as [| x a IH]; cbn [append all_chars]; [reflexivity |].
  rewrite IH. apply andb_assoc.
Qed.

Lemma count_lines_none p (s : string) :
  p newline = false -> all_chars p s = true -> count_lines s = 0.
Proof.
  intros Hp. induction s as [| c r IH]; cbn [all_chars count_lines];
    [reflexivity |].
  intros H. apply andb_true_iff in H. destruct H as [Hc Hr].
  destruct (Ascii.eqb_spec c newline) as [-> | _]; [congruence |].
  rewrite IH by assumption. reflexivity.
Qed.

(** ** The formatters *)

Lemma nibble_cases d :
  0 <= d < 16 ->
  d = 0 \/ d = 1 \/ d = 2 \/ d = 3 \/ d = 4 \/ d = 5 \/ d = 6 \/ d = 7 \/
  d = 8 \/ d = 9 \/ d = 10 \/ d = 11 \/ d = 12 \/ d = 13 \/ d = 14 \/ d = 15.
Proof. lia. Qed.

Lemma hex_char_value d : 0 <= d < 16 -> hex_digit_value (hex_char d) = d.
Proof.
  intros H. apply nibble_cases in H.
  repeat (destruct H as [-> | H]; [reflexivity |]). subst d. reflexivity.
Qed.

Lemma hex_char_upper d : 0 <= d < 16 -> is_upper_hex (hex_char d) = true.
Proof.
  intros H. apply nibble_cases in H.
  repeat (destruct H as [-> | H]; [reflexivity |]). subst d. reflexivity.
Qed.

Lemma digit_range n : 0 <= n mod 16 < 16.
Proof. apply Z.mod_pos_bound. lia. Qed.

Lemma fixed_hex_length k n : String.length (fixed_hex k n) = k.
Proof.
  revert n. induction k as [| k IH]; intros n; cbn [fixed_hex];
    [reflexivity |].
  rewrite length_append, IH. cbn. lia.
Qed.

Lemma fixed_hex_upper k n : all_chars is_upper_hex (fixed_hex k n) = true.
Proof.
  revert n. induction k as [| k IH]; intros n; cbn [fixed_hex];
    [reflexivity |].
  rewrite all_chars_append, IH. cbn [all_chars andb].
  rewrite hex_char_upper by apply digit_range. reflexivity.
Qed.

Lemma hex_value_snoc s c :
  hex_value (s ++ String c EmptyString) = hex_value s * 16 + hex_digit_value c.
Proof.
  unfold hex_value.
  assert (E : list_ascii_of_string (s ++ String c EmptyString) =
              (list_ascii_of_string s ++ [c])%list).
  { induction s as [| x s IH]; cbn; [reflexivity | now rewrite IH]. }
  rewrite E, fold_left_app. reflexivity.
Qed.

Lemma fixed_hex_value k n :
  hex_value (fixed_hex k n) = n mod 16 ^ Z.of_nat k.
Proof.
  revert n. induction k as [| k IH]; intros n.
  - cbn. now rewrite Z.mod_1_r.
  - cbn [fixed_hex]. rewrite hex_value_snoc, IH.
    rewrite hex_char_value by apply digit_range.
    rewrite Nat2Z.inj_succ, Z.pow_succ_r by lia.
    rewrite (Z.rem_mul_r n 16 (16 ^ Z.of_nat k)) by lia. lia.
Qed.

Lemma fixed_hex_zero k : fixed_hex k 0 = zeros k.
Proof.
  induction k as [| k IH]; [reflexivity |].
  cbn [fixed_hex]. change (0 / 16) with 0. rewrite IH.
  change (hex_char (0 mod 16)) with "0"%char.
  clear IH. induction k as [| k IH]; cbn; [reflexivity | now rewrite IH].
Qed.

(** Padding the digits [printf] prints gives the fixed-width digits. *)
Lemma hex_of_padded fuel n :
  0 <= n < 16 ^ Z.of_nat fuel -> (1 <= fuel)%nat ->
  (zeros (fuel - String.length (hex_of fuel n)) ++ hex_of fuel n)%string =
  fixed_hex fuel n.
Proof.
  revert n. induction fuel as [| f IH]; intros n Hn Hf; [lia |].
  cbn [hex_of fixed_hex].
  destruct (Z.ltb_spec n 16) as [Hlt | Hge].
  - rewrite Z.div_small, Z.mod_small, fixed_hex_zero by lia.
    cbn [String.length]. replace (S f - 1)%nat with f by lia. reflexivity.
  - assert (Hf' : (1 <= f)%nat).
    { destruct f; [cbn in Hn; lia | lia]. }
    rewrite Nat2Z.inj_succ, Z.pow_succ_r in Hn by lia.
    assert (Hq : 0 <= n / 16 < 16 ^ Z.of_nat f).
    { split; [apply Z.div_pos; lia | apply Z.div_lt_upper_bound; lia]. }
    rewrite <- (IH (n / 16) Hq Hf').
    rewrite length_append. cbn [String.length].
    replace (S f - (String.length (hex_of f (n / 16)) + 1))%nat
      with (f - String.length (hex_of f (n / 16)))%nat by lia.
    now rewrite append_assoc.
Qed.

Lemma printf_08X_fixed code :
  0 <= code < 2 ^ 32 -> printf_08X code = fixed_hex 8 code.
Proof.
  intros H. unfold printf_08X. cbv zeta.
  apply (hex_of_padded 8 code); [exact H | lia].
Qed.

Lemma hex_of_upper fuel n : all_chars is_upper_hex (hex_of fuel n) = true.
Proof.
  revert n. induction fuel as [| f IH]; intros n; cbn [hex_of]; [reflexivity |].
  destruct (Z.ltb_spec n 16) as [Hlt | Hge].
  - cbn [all_chars]. unfold hex_char.
    destruct (Z.to_nat n)
      as [| [| [| [| [| [| [| [| [| [| [| [| [| [| [| [| k]]]]]]]]]]]]]]]];
      reflexivity.
  - rewrite all_chars_append, IH. cbn [all_chars andb].
    rewrite hex_char_upper by apply digit_range. reflexivity.
Qed.

Lemma zeros_upper k : all_chars is_upper_hex (zeros k) = true.
Proof. induction k as [| k IH]; [reflexivity | cbn; exact IH]. Qed.

Lemma output_hex_lines code f :
  count_lines (output_hex code f) = count_lines f + 1.
Proof.
  unfold output_hex, printf_08X. cbv zeta.
  rewrite !count_lines_append.
  rewrite (count_lines_none is_upper_hex (zeros _)),
    (count_lines_none is_upper_hex (hex_of _ _));
    try reflexivity; [apply hex_of_upper | apply zeros_upper].
Qed.

Lemma land_bit code i :
  0 <= i -> (Z.land code (2 ^ i) =? 0) = negb (Z.testbit code i).
Proof.
  intros Hi. destruct (Z.testbit code i) eqn:B; cbn [negb].
  - apply Z.eqb_neq. intros E.
    assert (T : Z.testbit (Z.land code (2 ^ i)) i = true).
    { rewrite Z.land_spec, B, Z.pow2_bits_true by lia. reflexivity. }
    rewrite E, Z.bits_0 in T. discriminate.
  - apply Z.eqb_eq. apply Z.bits_inj'. intros k Hk.
    rewrite Z.land_spec, Z.bits_0, Z.pow2_bits_eqb by lia.
    destruct (Z.eqb_spec i k) as [-> | _]; [now rewrite B | apply andb_false_r].
Qed.

Lemma output_binary_loop_bits n code f :
  (n <= 32)%nat ->
  output_binary_loop n code f = (f ++ bits_be n code)%string.
Proof.
  revert f. induction n as [| i IH]; intros f Hn;
    cbn [output_binary_loop bits_be].
  - now rewrite append_nil_r.
  - cbv zeta. rewrite IH by lia. rewrite append_assoc. cbn [append].
    assert (E : u32 (Z.shiftl 1 (Z.of_nat i)) = 2 ^ Z.of_nat i).
    { rewrite Z.shiftl_1_l. unfold u32. apply Z.mod_small.
      split; [apply Z.pow_nonneg; lia | apply Z.pow_lt_mono_r; lia]. }
    rewrite E, land_bit by lia.
    destruct (Z.testbit code (Z.of_nat i)); reflexivity.
Qed.

Lemma bits_be_bits n v : all_chars is_bit (bits_be n v) = true.
Proof.
  induction n as [| i IH]; [reflexivity |]. cbn [bits_be all_chars].
  rewrite IH. destruct (Z.testbit v (Z.of_nat i)); reflexivity.
Qed.

Lemma output_binary_lines code f :
  count_lines (output_binary code f) = count_lines f + 1.
Proof.
  unfold output_binary. rewrite output_binary_loop_bits by lia.
  rewrite !count_lines_append.
  rewrite (count_lines_none is_bit (bits_be _ _));
    [| reflexivity | apply bits_be_bits].
  change (count_lines (String newline "")) with 1. lia.
Qed.

(** ** Reading the input *)

Lemma fgets_split room file :
  (fst (fgets room file) ++ snd (fgets room file))%string = file.
Proof.
  revert file. induction room as [| room IH]; intros file;
    [destruct file; reflexivity |].
  destruct file as [| c r]; [reflexivity |]. cbn [fgets].
  destruct (Ascii.eqb c newline); [reflexivity |].
  specialize (IH r). destruct (fgets room r) as [l r'].
  cbn [fst snd append] in *. now rewrite IH.
Qed.

Lemma fgets_progress room c r :
  (String.length (snd (fgets (S room) (String c r))) <= String.length r)%nat.
Proof.
  cbn [fgets]. destruct (Ascii.eqb c newline); [cbn; lia |].
  pose proof (fgets_split room r) as E.
  destruct (fgets room r) as [l r']. cbn [fst snd] in *.
  rewrite <- E, length_append. lia.
Qed.

(** The fuel of [file_lines] is enough: the lines read are the whole file,
    cut into pieces. *)
Lemma read_lines_complete fuel file :
  (String.length file <= fuel)%nat ->
  fold_right append EmptyString (read_lines fuel file) = file.
Proof.
  revert file. induction fuel as [| fuel IH]; intros file H.
  - destruct file; [reflexivity | cbn in H; lia].
  - destruct file as [| c r]; [reflexivity |].
    cbn [read_lines]. unfold MAX_LINE_LENGTH.
    change (256 - 1)%nat with (S 254).
    pose proof (fgets_split (S 254) (String c r)) as E.
    pose proof (fgets_progress 254 c r) as P.
    destruct (fgets (S 254) (String c r)) as [l r']. cbn [fst snd] in *.
    cbn [fold_right]. rewrite IH; [exact E |]. cbn [String.length] in H. lia.
Qed.

Lemma file_lines_complete file :
  fold_right append EmptyString (file_lines file) = file.
Proof. apply read_lines_complete. apply Nat.le_refl. Qed.

(** ** Lines made of tokens *)

Lemma plain_not_space c : plain c = true -> isspace c = false.
Proof.
  unfold plain. intros H. destruct (isspace c); [discriminate | reflexivity].
Qed.

Lemma plain_not_colon c : plain c = true -> Ascii.eqb c ":" = false.
Proof.
  unfold plain. intros H. destruct (Ascii.eqb c ":");
    [now rewrite andb_false_r in H | reflexivity].
Qed.

Lemma plain_not_open c : plain c = true -> Ascii.eqb c "(" = false.
Proof.
  unfold plain. intros H. destruct (Ascii.eqb c "(");
    [now rewrite andb_false_r in H | reflexivity].
Qed.

Lemma plain_not_close c : plain c = true -> Ascii.eqb c ")" = false.
Proof.
  unfold plain. intros H. destruct (Ascii.eqb c ")");
    [now rewrite !andb_false_r in H | reflexivity].
Qed.

Lemma word_cons c w : word (String c w) -> plain c = true /\ word w.
Proof. unfold word. cbn [all_chars]. intros H. now apply andb_true_iff. Qed.

Lemma word_solid w : word w -> solid w.
Proof.
  unfold solid. induction w as [| c w IH]; [reflexivity |]. intros H.
  apply word_cons in H. destruct H as [Hc Hw]. cbn [all_chars].
  now rewrite (plain_not_space c Hc), IH.
Qed.

Lemma solid_cons c w :
  solid (String c w) -> isspace c = false /\ solid w.
Proof.
  unfold solid. cbn [all_chars]. intros H. apply andb_true_iff in H.
  destruct H as [Hc Hw]. split; [| exact Hw].
  now destruct (isspace c).
Qed.

Lemma solid_append a b : solid a -> solid b -> solid (a ++ b).
Proof. unfold solid. intros Ha Hb. now rewrite all_chars_append, Ha, Hb. Qed.

(** A [%s] conversion reads solid text in full and goes on into what
    follows. *)
Lemma read_token_solid w r :
  solid w ->
  read_token (w ++ r) = (w ++ fst (read_token r), snd (read_token r))%string.
Proof.
  induction w as [| c w IH]; intros H; cbn [append].
  - now destruct (read_token r).
  - apply solid_cons in H. destruct H as [Hc Hw].
    cbn [read_token]. rewrite Hc, (IH Hw). reflexivity.
Qed.

Lemma scan_tokens_solid n t r :
  t <> EmptyString -> solid t ->
  scan_tokens (S n) (t ++ r) =
  (t ++ fst (read_token r))%string :: scan_tokens n (snd (read_token r)).
Proof.
  intros Hne Hw. destruct t as [| c t]; [contradiction |].
  pose proof (read_token_solid (String c t) r Hw) as R.
  destruct (solid_cons c t Hw) as [Hc _].
  cbn [scan_tokens append skip_ws]. rewrite Hc.
  cbn [append] in R. rewrite R. reflexivity.
Qed.

Lemma scan_tokens_token n t r :
  token t ->
  scan_tokens (S n) (t ++ r) =
  (t ++ fst (read_token r))%string :: scan_tokens n (snd (read_token r)).
Proof.
  intros (Hne & Hs & _). now apply scan_tokens_solid.
Qed.

(** Solid text is one token. *)
Lemma sscanf_s_solid t old :
  t <> EmptyString -> solid t -> sscanf_s t old = t.
Proof.
  intros Hne Hs. unfold sscanf_s. rewrite <- (append_nil_r t) at 1.
  rewrite scan_tokens_solid by assumption. cbn. apply append_nil_r.
Qed.

Lemma scan_tokens_join n ts :
  Forall token ts -> scan_tokens n (join ts) = firstn n ts.
Proof.
  intros H. revert n. induction H as [| t ts Ht Hts IH]; intros n.
  - destruct n; reflexivity.
  - destruct n as [| n]; [reflexivity |].
    destruct ts as [| t' ts].
    + cbn [join firstn]. rewrite <- (append_nil_r t) at 1.
      rewrite scan_tokens_token by exact Ht. cbn [read_token fst snd].
      rewrite append_nil_r. destruct n; reflexivity.
    + change (join (t :: t' :: ts))
        with (t ++ String " " (join (t' :: ts)))%string.
      rewrite scan_tokens_token by exact Ht.
      change (read_token (String " " (join (t' :: ts))))
        with (EmptyString, String " "%char (join (t' :: ts))).
      cbn [fst snd firstn]. rewrite append_nil_r. f_equal.
      destruct n as [| n]; [reflexivity |].
      rewrite <- (IH (S n)). reflexivity.
Qed.

Lemma strchr_no_colon s : colon_free s -> strchr s ":" = None.
Proof.
  unfold colon_free.
  induction s as [| c s IH]; cbn [all_chars strchr]; [reflexivity |].
  intros H. apply andb_true_iff in H. destruct H as [Hc Hs].
  destruct (Ascii.eqb c ":"); [discriminate |]. now rewrite IH.
Qed.

Lemma word_no_colon w : word w -> colon_free w.
Proof.
  unfold colon_free.
  induction w as [| c w IH]; [reflexivity |]. intros H.
  apply word_cons in H. destruct H as [Hc Hw]. cbn [all_chars].
  now rewrite (plain_not_colon c Hc), IH.
Qed.

Lemma colon_free_append a b :
  colon_free a -> colon_free b -> colon_free (a ++ b).
Proof.
  unfold colon_free. intros Ha Hb. now rewrite all_chars_append, Ha, Hb.
Qed.

Lemma join_no_colon ts : Forall token ts -> colon_free (join ts).
Proof.
  induction 1 as [| t ts (_ & _ & Hc) Hts IH]; [reflexivity |].
  destruct ts as [| t' ts]; [exact Hc |].
  change (join (t :: t' :: ts)) with (t ++ String " " (join (t' :: ts)))%string.
  apply colon_free_append; [exact Hc |].
  change (String " " (join (t' :: ts))) with (" " ++ join (t' :: ts))%string.
  apply colon_free_append; [reflexivity | exact IH].
Qed.

(** A memory operand is one token. *)
Lemma mem_operand_token imm r :
  word imm -> word r -> token (imm ++ "(" ++ r ++ ")").
Proof.
  intros Hi Hr. split; [destruct imm; discriminate |]. split.
  - apply solid_append; [now apply word_solid |].
    apply solid_append; [reflexivity |].
    apply solid_append; [now apply word_solid | reflexivity].
  - apply colon_free_append; [now apply word_no_colon |].
    apply colon_free_append; [reflexivity |].
    apply colon_free_append; [now apply word_no_colon | reflexivity].
Qed.

(** A line of one to four tokens is scanned into exactly these tokens, and
    encoded from them. *)
Lemma assemble_instruction_tokens uninit st ts :
  Forall token ts ->
  assemble_instruction uninit st (join ts) =
  match ts with
  | [] => (0, st)
  | _ => assemble_fields uninit st (Z.of_nat (List.length (firstn 4 ts)))
           (nth 0 ts uninit) (nth 1 ts uninit) (nth 2 ts uninit)
           (nth 3 ts uninit)
  end.
Proof.
  intros H. unfold assemble_instruction, sscanf4, splitString.
  rewrite (strchr_no_colon _ (join_no_colon ts H)).
  rewrite scan_tokens_join by exact H.
  destruct ts as [| a [| b [| c [| d r]]]]; reflexivity.
Qed.

(** ** The two passes *)

Lemma count_recognised_cons line lines :
  count_recognised (line :: lines) =
  (if recognised_line (normalise line) then 1 else 0) + count_recognised lines.
Proof.
  unfold count_recognised. cbn [filter].
  destruct (recognised_line (normalise line)); cbn [List.length]; lia.
Qed.

Lemma labelled_counters uninit st instruction :
  instruction_count (labelled uninit st instruction) = instruction_count st /\
  instruction_count2 (labelled uninit st instruction) = instruction_count2 st.
Proof.
  unfold labelled. destruct (splitString instruction) as [l [| c r]];
    split; reflexivity.
Qed.

Lemma first_pass_counters uninit st instruction :
  instruction_count (first_pass uninit st instruction) =
    instruction_count st + (if recognised_line instruction then 1 else 0) /\
  instruction_count2 (first_pass uninit st instruction) =
    instruction_count2 st.
Proof.
  rewrite first_pass_recognised.
  destruct (labelled_counters uninit st instruction) as [H1 H2].
  destruct (recognised_line instruction); cbn [incr_count instruction_count
    instruction_count2]; lia.
Qed.

Lemma pass_one_counters uninit lines st :
  instruction_count (pass_one uninit lines st) =
    instruction_count st + count_recognised lines /\
  instruction_count2 (pass_one uninit lines st) = instruction_count2 st.
Proof.
  revert st. induction lines as [| line lines IH]; intros st.
  - cbn [pass_one]. unfold count_recognised. cbn. lia.
  - cbn [pass_one]. cbv zeta. rewrite count_recognised_cons.
    destruct (IH (first_pass uninit st (replaceCommas (removeComment line))))
      as [H1 H2].
    destruct (first_pass_counters uninit st (normalise line)) as [F1 F2].
    unfold normalise in *. lia.
Qed.

Lemma land_1 w : (Z.land 1 w =? 0) = negb (Z.odd w).
Proof.
  change 1 with (Z.ones 1). rewrite Z.land_comm, Z.land_ones by lia.
  change (2 ^ 1) with 2. rewrite Zmod_odd.
  destruct (Z.odd w); reflexivity.
Qed.

Lemma write_word_odd isHex isBin w f :
  isHex || isBin = true -> Z.odd w = true ->
  count_lines (write_word isHex isBin w f) = count_lines f + 1.
Proof.
  intros Hflag Hodd. unfold write_word, Z_of_bool.
  destruct isHex.
  - rewrite land_1, Hodd. cbn [negb]. apply output_hex_lines.
  - cbn [orb] in Hflag. subst isBin. rewrite Z.land_0_l.
    change (negb (0 =? 0)) with false. cbv iota.
    rewrite land_1, Hodd. cbn [negb]. apply output_binary_lines.
Qed.

Lemma write_word_zero isHex isBin f : write_word isHex isBin 0 f = f.
Proof.
  unfold write_word. rewrite !Z.land_0_r. reflexivity.
Qed.

Lemma pass_two_cons uninit isHex isBin line lines st f :
  pass_two uninit isHex isBin (line :: lines) st f =
  let r := assemble_instruction uninit st (normalise line) in
  pass_two uninit isHex isBin lines (snd r)
           (write_word isHex isBin (fst r) f).
Proof.
  cbn [pass_two]. cbv zeta. unfold normalise, write_word.
  destruct (assemble_instruction uninit st _) as [w st']. reflexivity.
Qed.

(** Pass two on one line. *)
Lemma pass_two_line uninit isHex isBin st line f :
  isHex || isBin = true ->
  let r := assemble_instruction uninit st (normalise line) in
  if recognised_line (normalise line)
  then snd r = incr_count2 st /\
       count_lines (write_word isHex isBin (fst r) f) = count_lines f + 1
  else r = (0, st) /\ write_word isHex isBin (fst r) f = f.
Proof.
  intros Hflag. cbv zeta.
  pose proof (assemble_instruction_recognised uninit st (normalise line)) as H.
  destruct (recognised_line (normalise line)).
  - destruct H as (Hst & Hodd & _). split; [exact Hst |].
    now apply write_word_odd.
  - rewrite H. split; [reflexivity | apply write_word_zero].
Qed.

Lemma pass_two_counters uninit isHex isBin lines st f :
  isHex || isBin = true ->
  let r := pass_two uninit isHex isBin lines st f in
  instruction_count2 (fst r) = instruction_count2 st + count_recognised lines /\
  instruction_count (fst r) = instruction_count st /\
  count_lines (snd r) = count_lines f + count_recognised lines.
Proof.
  intros Hflag. revert st f.
  induction lines as [| line lines IH]; intros st f.
  - cbn. unfold count_recognised. cbn. lia.
  - cbv zeta. rewrite pass_two_cons, count_recognised_cons. cbv zeta.
    pose proof (pass_two_line uninit isHex isBin st line f Hflag) as L.
    cbv zeta in L.
    specialize (IH (snd (assemble_instruction uninit st (normalise line)))
                   (write_word isHex isBin
                      (fst (assemble_instruction uninit st (normalise line))) f)).
    cbv zeta in IH. destruct IH as (I1 & I2 & I3).
    rewrite I1, I2, I3.
    destruct (recognised_line (normalise line)).
    + destruct L as [Hst Hl]. rewrite Hst, Hl.
      cbn [incr_count2 instruction_count instruction_count2]. lia.
    + destruct L as [Hr Hl]. rewrite Hl, Hr. cbn [snd]. lia.
Qed.

(** Neither pass has a failure path: when both files open and the flag is
    valid, the run ends with exit code 0 and nothing on [stderr]. *)
Lemma main_no_error uninit a0 a1 a2 flag input :
  flag = "-h" \/ flag = "-b" ->
  ~ reports_error (run uninit [a0; a1; a2; flag] input).
Proof.
  intros Hflag. unfold run, main, reports_error. cbn [List.length nth Z.of_nat].
  cbn [Pos.of_succ_nat Pos.succ Z.ltb Z.compare Pos.compare Pos.compare_cont].
  cbv zeta.
  destruct Hflag as [-> | ->]; cbn [String.eqb Ascii.eqb Bool.eqb negb andb];
    destruct (pass_two _ _ _ _ _ _) as [st out]; cbn [exit_code stderr];
    intros [H | H]; congruence.
Qed.

Lemma main_runs uninit a0 a1 a2 flag input :
  flag = "-h" \/ flag = "-b" ->
  run uninit [a0; a1; a2; flag] input =
  mkOutcome 0 EmptyString
    (Some (snd (pass_two uninit (flag =s? "-h") (flag =s? "-b")
                  (file_lines input)
                  (pass_one uninit (file_lines input) initial_state)
                  EmptyString))).
Proof.
  intros Hflag. unfold run, main. cbn [List.length nth Z.of_nat].
  cbn [Pos.of_succ_nat Pos.succ Z.ltb Z.compare Pos.compare Pos.compare_cont].
  cbv zeta.
  destruct Hflag as [-> | ->]; cbn [String.eqb Ascii.eqb Bool.eqb negb andb];
    destruct (pass_two _ _ _ _ _ _) as [st out]; reflexivity.
Qed.

(** ** Branches *)

Lemma testbit_or_assign m e k :
  Z.testbit (or_assign m e) k = Z.testbit m k || Z.testbit (u32 e) k.
Proof. unfold or_assign. apply Z.lor_spec. Qed.

Lemma testbit_u32 e k : 0 <= k < 32 -> Z.testbit (u32 e) k = Z.testbit e k.
Proof. intros H. unfold u32. apply Z.mod_pow2_bits_low. lia. Qed.

(** A masked value shifted left does not reach bit [k] when the mask has no
    bit at [k - s]. *)
Lemma testbit_masked_shl x mask s k :
  0 <= k < 32 -> Z.testbit mask (k - s) = false ->
  Z.testbit (u32 ((x & mask) << s)) k = false.
Proof.
  intros Hk Hm. rewrite testbit_u32, Z.shiftl_spec, Z.land_spec, Hm by lia.
  apply andb_false_r.
Qed.

Lemma testbit_masked_shr x mask s k :
  0 <= k < 32 -> Z.testbit mask (k + s) = false ->
  Z.testbit (u32 ((x & mask) >> s)) k = false.
Proof.
  intros Hk Hm. rewrite testbit_u32, Z.shiftr_spec, Z.land_spec, Hm by lia.
  apply andb_false_r.
Qed.

Lemma testbit_masked_shl_in x mask s k :
  0 <= k < 32 -> 0 <= k - s -> Z.testbit mask (k - s) = true ->
  Z.testbit (u32 ((x & mask) << s)) k = Z.testbit x (k - s).
Proof.
  intros Hk Hs Hm. rewrite testbit_u32, Z.shiftl_spec, Z.land_spec, Hm by lia.
  apply andb_true_r.
Qed.

Lemma testbit_masked_shr_in x mask s k :
  0 <= k < 32 -> 0 <= s -> Z.testbit mask (k + s) = true ->
  Z.testbit (u32 ((x & mask) >> s)) k = Z.testbit x (k + s).
Proof.
  intros Hk Hs Hm. rewrite testbit_u32, Z.shiftr_spec, Z.land_spec, Hm by lia.
  apply andb_true_r.
Qed.

Ltac word_bit :=
  rewrite !testbit_or_assign;
  repeat first
    [ rewrite testbit_masked_shl by (lia || reflexivity)
    | rewrite testbit_masked_shr by (lia || reflexivity)
    | rewrite testbit_masked_shl_in by (lia || reflexivity)
    | rewrite testbit_masked_shr_in by (lia || reflexivity) ];
  repeat match goal with
         | |- context [Z.testbit ?x (?a - ?b)] =>
             let v := eval vm_compute in (a - b) in change (a - b) with v
         | |- context [Z.testbit ?x (?a + ?b)] =>
             let v := eval vm_compute in (a + b) in change (a + b) with v
         end;
  repeat match goal with
         | imm : Z |- context [Z.testbit ?x ?k] =>
             constr_eq x imm;
             let b := fresh "b" in
             generalize (Z.testbit imm k); intros b; destruct b
         end;
  reflexivity.

Ltac bits_of_list :=
  repeat (apply Forall_cons;
          [ cbv beta; cbn [Z.add Pos.add Pos.add_carry Pos.succ]; word_bit |]);
  apply Forall_nil.

(** Where the bits of the offset go in the word of a branch: bits 10 to 5,
    4 to 1 and 11 go where the B format has them; bit 12 reaches [inst[31]]
    in [blt] only. *)
Lemma branch_scatter uninit st opcode rd rs1 lbl :
  In opcode b_type ->
  let w := fst (assemble_fields uninit st 4 opcode rd rs1 lbl) in
  let off := branch_offset st lbl in
  Forall (fun i => Z.testbit w (i + 20) = Z.testbit off i) [5; 6; 7; 8; 9; 10] /\
  Forall (fun i => Z.testbit w (i + 7) = Z.testbit off i) [1; 2; 3; 4] /\
  Z.testbit w 7 = Z.testbit off 11 /\
  Z.testbit w 31 = (if opcode =s? "blt" then Z.testbit off 12 else false).
Proof.
  intros H. cbv zeta. unfold branch_offset, b_type in *.
  unfold assemble_fields, assemble_count4.
  in_cases H; concrete_opcode; cbn [fst];
    unfold find_label_address, incr_count2;
    cbn [labelTable instruction_count2 instruction_count];
    rewrite Z.shiftl_mul_pow2 by lia; change (2 ^ 2) with 4;
    generalize (s32 ((find_in_table (labelTable st) lbl -
                      (instruction_count2 st + 1)) * 4)) as imm; intros imm;
    (split; [bits_of_list |]); (split; [bits_of_list |]); (split; word_bit).
Qed.

(** ** Labels *)

Lemma find_in_table_absent tbl lbl :
  ~ defined lbl tbl -> find_in_table tbl lbl = -1.
Proof.
  induction tbl as [| e tbl IH]; intros H; cbn [find_in_table];
    [reflexivity |].
  destruct (String.eqb_spec (label e) lbl) as [E | _].
  - exfalso. apply H. exists e. split; [now left | exact E].
  - apply IH. intros (e' & Hin & He'). apply H. exists e'.
    split; [now right | exact He'].
Qed.

Lemma find_in_table_first tbl tbl' lbl :
  defined lbl tbl ->
  find_in_table (tbl ++ tbl') lbl = find_in_table tbl lbl.
Proof.
  induction tbl as [| e tbl IH]; intros (e' & Hin & He').
  - contradiction.
  - cbn [app find_in_table].
    destruct (String.eqb_spec (label e) lbl) as [_ | N]; [reflexivity |].
    apply IH. destruct Hin as [-> | Hin]; [contradiction |].
    exists e'. now split.
Qed.

Lemma find_in_table_appended tbl lbl addr :
  ~ defined lbl tbl ->
  find_in_table (tbl ++ [mkLabel lbl addr]) lbl = addr.
Proof.
  induction tbl as [| e tbl IH]; intros H; cbn [app find_in_table label address].
  - now rewrite String.eqb_refl.
  - destruct (String.eqb_spec (label e) lbl) as [E | _].
    + exfalso. apply H. exists e. split; [now left | exact E].
    + apply IH. intros (e' & Hin & He'). apply H. exists e'.
      split; [now right | exact He'].
Qed.

Lemma first_pass_labels uninit st line :
  map label (labelTable (first_pass uninit st (normalise line))) =
  (map label (labelTable st) ++ line_label uninit line)%list.
Proof.
  rewrite first_pass_recognised.
  assert (L : map label (labelTable (labelled uninit st (normalise line))) =
              (map label (labelTable st) ++ line_label uninit line)%list).
  { unfold labelled, line_label.
    destruct (splitString (normalise line)) as [l [| c r]].
    - now rewrite app_nil_r.
    - cbn [add_label labelTable]. rewrite map_app. reflexivity. }
  destruct (recognised_line (normalise line)); exact L.
Qed.

Lemma pass_one_labels uninit lines st :
  map label (labelTable (pass_one uninit lines st)) =
  (map label (labelTable st) ++ flat_map (line_label uninit) lines)%list.
Proof.
  revert st. induction lines as [| line lines IH]; intros st;
    cbn [pass_one flat_map].
  - now rewrite app_nil_r.
  - cbv zeta. rewrite IH. fold (normalise line).
    rewrite first_pass_labels. now rewrite <- app_assoc.
Qed.

Lemma missing_label_word4 uninit st opcode rd rs1 lbl :
  ~ defined lbl (labelTable st) -> In opcode b_type ->
  fst (assemble_fields uninit st 4 opcode rd rs1 lbl) =
  fst (assemble_fields uninit (add_label lbl (-1) st) 4 opcode rd rs1 lbl).
Proof.
  intros Habs H. unfold b_type in H.
  unfold assemble_fields, assemble_count4.
  in_cases H; concrete_opcode; cbn [fst];
    unfold find_label_address, incr_count2, add_label;
    cbn [labelTable instruction_count2 instruction_count];
    rewrite find_in_table_appended, find_in_table_absent by assumption;
    reflexivity.
Qed.

Lemma recognised_emitted uninit st count opcode rd rs1 rs2 :
  recognised count opcode = true ->
  emitted st (assemble_fields uninit st count opcode rd rs1 rs2).
Proof.
  intros H.
  pose proof (assemble_fields_recognised uninit st count opcode rd rs1 rs2) as R.
  now rewrite H in R.
Qed.

(** ** Immediates *)






(** ** Register fields *)

Lemma field5_or_assign pos m e :
  field5 pos (or_assign m e) = Z.lor (field5 pos m) (field5 pos (u32 e)).
Proof.
  unfold field5, or_assign. now rewrite Z.shiftr_lor, Z.land_lor_distr_l.
Qed.

Lemma lor_31_absorbs y : Z.lor 31 (Z.land y 31) = 31.
Proof.
  apply Z.bits_inj'. intros n Hn.
  rewrite Z.lor_spec, Z.land_spec.
  destruct (Z.testbit 31 n), (Z.testbit y n); reflexivity.
Qed.

Lemma field31_here pos m e :
  field5 pos (u32 e) = 31 -> field5 pos (or_assign m e) = 31.
Proof.
  intros H. rewrite field5_or_assign, H, Z.lor_comm.
  unfold field5. apply lor_31_absorbs.
Qed.

Lemma field31_before pos m e :
  field5 pos m = 31 -> field5 pos (or_assign m e) = 31.
Proof.
  intros H. rewrite field5_or_assign, H.
  unfold field5. apply lor_31_absorbs.
Qed.

Ltac field31 :=
  lazymatch goal with
  | |- field5 _ (or_assign _ ((uchar (-1) & _) << _)) = 31 =>
      first [ apply field31_here; reflexivity
            | apply field31_before; field31 ]
  | |- field5 _ (or_assign _ _) = 31 => apply field31_before; field31
  end.

(** From [In (o, pos) (register_fields count opcode) -> G] to one goal for
    every supported instruction and each of its register operands. *)
Ltac register_cases fin :=
  unfold register_fields, mem, r_type, i_type, loads, stores;
  repeat (split_count;
          [ cbn [existsb];
            repeat (split_opcode;
                    [ let H := fresh "H" in
                      intros H; cbn [In] in H;
                      repeat (destruct H as [H | H];
                              [ first [ discriminate H
                                      | injection H as <- <-; fin ] | ]);
                      contradiction
                    | ]);
            intros []
          | ]);
  intros [].

Lemma invalid_register_field uninit st count opcode rd rs1 rs2 o pos :
  In (o, pos) (register_fields count opcode) ->
  get_register_number (operand_text o rd rs1 rs2) = -1 ->
  field5 pos (fst (assemble_fields uninit st count opcode rd rs1 rs2)) = 31.
Proof.
  register_cases
    ltac:(cbn [operand_text]; unfold mem_reg; intros G;
          unfold assemble_fields, assemble_count4, assemble_count3,
            assemble_count2;
          concrete_opcode; cbn [fst]; rewrite G; field31).
Qed.

Lemma register_fields_recognised count opcode o pos :
  In (o, pos) (register_fields count opcode) -> recognised count opcode = true.
Proof. register_cases ltac:(reflexivity). Qed.

(** The table of register operands leaves out no supported instruction but
    [j] and [ret], which have no register operand in the source line. *)
Lemma register_fields_cover count opcode :
  recognised count opcode = true ->
  register_fields count opcode <> [] \/
  (count = 2 /\ opcode = "j") \/ (count = 1 /\ opcode = "ret").
Proof.
  unfold recognised, register_fields, mnemonics, mem, r_type, i_type, b_type,
    loads, stores.
  repeat (split_count;
          [ cbn [existsb app];
            repeat (split_opcode;
                    [ intros _;
                      first [ left; discriminate
                            | right; left; split; reflexivity
                            | right; right; split; reflexivity ] | ]);
            discriminate
          | ]).
  discriminate.
Qed.

(** ** Pseudo-instructions *)

Lemma or_assign_zero m e : u32 e = 0 -> or_assign m e = m.
Proof. intros H. unfold or_assign. rewrite H. apply Z.lor_0_r. Qed.

Lemma li_is_addi uninit st rd imm rs2 :
  assemble_fields uninit st 3 "li" rd imm rs2 =
  assemble_fields uninit st 4 "addi" rd "x0" imm.
Proof. reflexivity. Qed.

Lemma mv_is_addi uninit st rd rs rs2 :
  assemble_fields uninit st 3 "mv" rd rs rs2 =
  assemble_fields uninit st 4 "addi" rd rs "0".
Proof.
  unfold assemble_fields, assemble_count3, assemble_count4. concrete_opcode.
  rewrite (or_assign_zero _ (b0000000 << 25)) by reflexivity.
  reflexivity.
Qed.

Lemma j_is_jal uninit st lbl rs1 rs2 :
  assemble_fields uninit st 2 "j" lbl rs1 rs2 =
  assemble_fields uninit st 3 "jal" "x0" lbl rs2.
Proof. reflexivity. Qed.

Lemma jr_is_jalr uninit st rs rs1 rs2 :
  assemble_fields uninit st 2 "jr" rs rs1 rs2 =
  assemble_fields uninit st 4 "jalr" "x0" rs "0".
Proof. reflexivity. Qed.

Lemma ret_is_jalr uninit st rd rs1 rs2 :
  assemble_fields uninit st 1 "ret" rd rs1 rs2 =
  assemble_fields uninit st 4 "jalr" "x0" "ra" "0".
Proof. reflexivity. Qed.

Ltac literal_token := split; [discriminate | split; reflexivity].

Ltac tokens :=
  repeat (apply Forall_cons;
          [first [ assumption | literal_token
                 | apply mem_operand_token; assumption ] |]);
  apply Forall_nil.

(** ** Register names *)

(** The encoder reads a register operand through [get_register_number]
    only. *)
Lemma same_register_rd uninit st count opcode pos r r' rs1 rs2 :
  In (Rd, pos) (register_fields count opcode) ->
  get_register_number r = get_register_number r' ->
  assemble_fields uninit st count opcode r rs1 rs2 =
  assemble_fields uninit st count opcode r' rs1 rs2.
Proof.
  revert pos.
  assert (G : forall o pos, In (o, pos) (register_fields count opcode) ->
                o = Rd -> get_register_number r = get_register_number r' ->
                assemble_fields uninit st count opcode r rs1 rs2 =
                assemble_fields uninit st count opcode r' rs1 rs2).
  { intros o pos. register_cases
      ltac:(intros Ho Hreg; try discriminate Ho;
            unfold assemble_fields, assemble_count4, assemble_count3,
              assemble_count2;
            concrete_opcode; rewrite Hreg; reflexivity). }
  intros pos H. now apply (G Rd pos).
Qed.

Lemma same_register_rs1 uninit st count opcode pos rd r r' rs2 :
  In (Rs1, pos) (register_fields count opcode) ->
  get_register_number r = get_register_number r' ->
  assemble_fields uninit st count opcode rd r rs2 =
  assemble_fields uninit st count opcode rd r' rs2.
Proof.
  revert pos.
  assert (G : forall o pos, In (o, pos) (register_fields count opcode) ->
                o = Rs1 -> get_register_number r = get_register_number r' ->
                assemble_fields uninit st count opcode rd r rs2 =
                assemble_fields uninit st count opcode rd r' rs2).
  { intros o pos. register_cases
      ltac:(intros Ho Hreg; try discriminate Ho;
            unfold assemble_fields, assemble_count4, assemble_count3,
              assemble_count2;
            concrete_opcode; rewrite Hreg; reflexivity). }
  intros pos H. now apply (G Rs1 pos).
Qed.

Lemma same_register_rs2 uninit st count opcode pos rd rs1 r r' :
  In (Rs2, pos) (register_fields count opcode) ->
  get_register_number r = get_register_number r' ->
  assemble_fields uninit st count opcode rd rs1 r =
  assemble_fields uninit st count opcode rd rs1 r'.
Proof.
  revert pos.
  assert (G : forall o pos, In (o, pos) (register_fields count opcode) ->
                o = Rs2 -> get_register_number r = get_register_number r' ->
                assemble_fields uninit st count opcode rd rs1 r =
                assemble_fields uninit st count opcode rd rs1 r').
  { intros o pos. register_cases
      ltac:(intros Ho Hreg; try discriminate Ho;
            unfold assemble_fields, assemble_count4, assemble_count3,
              assemble_count2;
            concrete_opcode; rewrite Hreg; reflexivity). }
  intros pos H. now apply (G Rs2 pos).
Qed.

Lemma same_register_mem uninit st count opcode pos rd m m' rs2 :
  In (Mem, pos) (register_fields count opcode) ->
  get_register_number (mem_reg m) = get_register_number (mem_reg m') ->
  mem_imm uninit m = mem_imm uninit m' ->
  assemble_fields uninit st count opcode rd m rs2 =
  assemble_fields uninit st count opcode rd m' rs2.
Proof.
  revert pos. unfold mem_reg, mem_imm.
  assert (G : forall o pos, In (o, pos) (register_fields count opcode) ->
                o = Mem ->
                get_register_number
                  (removeBracket (sscanf_s (separate_rs1 m) (separate_rs1 m))) =
                get_register_number
                  (removeBracket (sscanf_s (separate_rs1 m') (separate_rs1 m'))) ->
                convertToDecimal (separateImmediate (sscanf_s m uninit)) =
                convertToDecimal (separateImmediate (sscanf_s m' uninit)) ->
                assemble_fields uninit st count opcode rd m rs2 =
                assemble_fields uninit st count opcode rd m' rs2).
  { intros o pos. register_cases
      ltac:(intros Ho Hreg Himm; try discriminate Ho;
            unfold assemble_fields, assemble_count4, assemble_count3,
              assemble_count2;
            concrete_opcode; rewrite Hreg, Himm; reflexivity). }
  intros pos H. now apply (G Mem pos).
Qed.

(** *** Memory operands *)

Lemma separateImmediate_word imm rest :
  word imm -> separateImmediate (imm ++ String "(" rest) = imm.
Proof.
  induction imm as [| c imm IH]; intros H; cbn [append separateImmediate].
  - reflexivity.
  - apply word_cons in H. destruct H as [Hc Hw].
    now rewrite (plain_not_open c Hc), IH.
Qed.

Lemma separate_rs1_after r :
  word r -> separate_rs1_loop true (r ++ ")") = (r ++ ")")%string.
Proof.
  induction r as [| c r IH]; intros H; cbn [append separate_rs1_loop].
  - reflexivity.
  - apply word_cons in H. destruct H as [Hc Hw].
    rewrite (plain_not_open c Hc). cbn [negb]. now rewrite IH.
Qed.

Lemma separate_rs1_before imm rest :
  word imm ->
  separate_rs1 (imm ++ String "(" rest) =
  (blanks (String.length imm) ++ String " " (separate_rs1_loop true rest))%string.
Proof.
  unfold separate_rs1.
  induction imm as [| c imm IH]; intros H;
    cbn [append separate_rs1_loop String.length blanks].
  - reflexivity.
  - apply word_cons in H. destruct H as [Hc Hw].
    rewrite (plain_not_open c Hc). cbn [negb]. now rewrite IH.
Qed.

Lemma scan_tokens_blanks n k s :
  scan_tokens n (blanks k ++ s) = scan_tokens n s.
Proof.
  destruct n as [| n]; [reflexivity |].
  induction k as [| k IH]; [reflexivity |].
  cbn [blanks append]. cbn [scan_tokens skip_ws] in *.
  change (isspace " ") with true. cbv iota. exact IH.
Qed.

Lemma removeBracket_word r : word r -> removeBracket (r ++ ")") = r.
Proof.
  induction r as [| c r IH]; intros H; cbn [append removeBracket].
  - reflexivity.
  - apply word_cons in H. destruct H as [Hc Hw].
    now rewrite (plain_not_close c Hc), (plain_not_open c Hc), IH.
Qed.

(** The operand [imm(reg)] is taken apart into [imm] and [reg]. *)
Lemma mem_operand_parts uninit imm r :
  word imm -> word r ->
  mem_reg (imm ++ "(" ++ r ++ ")") = r /\
  mem_imm uninit (imm ++ "(" ++ r ++ ")") = convertToDecimal imm.
Proof.
  intros Hi Hr. cbn [append]. split.
  - unfold mem_reg. rewrite separate_rs1_before, separate_rs1_after
      by assumption.
    unfold sscanf_s.
    rewrite scan_tokens_blanks.
    change (scan_tokens 1 (String " " (r ++ ")")))
      with (scan_tokens 1 (r ++ ")")).
    assert (S : scan_tokens 1 (r ++ ")") = [(r ++ ")")%string]).
    { rewrite <- (append_nil_r (r ++ ")")) at 1.
      rewrite scan_tokens_solid.
      - cbn. now rewrite append_nil_r.
      - destruct r; discriminate.
      - apply solid_append; [now apply word_solid | reflexivity]. }
    rewrite S. now apply removeBracket_word.
  - unfold mem_imm. rewrite sscanf_s_solid.
    + now rewrite separateImmediate_word.
    + destruct imm; discriminate.
    + apply solid_append; [now apply word_solid |].
      change (String "(" (r ++ ")")) with ("(" ++ (r ++ ")"))%string.
      apply solid_append; [reflexivity |].
      apply solid_append; [now apply word_solid | reflexivity].
Qed.

(** *** The two tables *)

Lemma aliases_same_register abi num :
  In (abi, num) aliases ->
  get_register_number abi = get_register_number num /\
  (word abi /\ token abi) /\ (word num /\ token num).
Proof.
  unfold aliases, abi_names, numeric_names. cbn [combine In].
  intros H.
  repeat (destruct H as [H | H];
          [injection H as <- <-;
           split; [reflexivity | split; split; first [reflexivity | literal_token]]
          |]).
  contradiction.
Qed.

Lemma get_register_number_other s :
  is_register_name s = false -> x_numbered s = false ->
  get_register_number s = -1.
Proof.
  intros Hname Hx. unfold get_register_number.
  repeat match goal with
         | |- context [String.eqb s ?lit] =>
             destruct (String.eqb_spec s lit) as [-> | ?];
             [discriminate Hname | cbn [orb]]
         end.
  unfold x_numbered in Hx. cbv zeta in Hx.
  destruct (starts_with "x" s); [| reflexivity].
  cbn [andb] in Hx. now rewrite Hx.
Qed.

Lemma missing_label_word3 uninit st rd lbl rs2 :
  ~ defined lbl (labelTable st) ->
  fst (assemble_fields uninit st 3 "jal" rd lbl rs2) =
  fst (assemble_fields uninit (add_label lbl (-1) st) 3 "jal" rd lbl rs2).
Proof.
  intros Habs. unfold assemble_fields, assemble_count3. concrete_opcode.
  cbn [fst]. unfold find_label_address, incr_count2, add_label.
  cbn [labelTable instruction_count2 instruction_count].
  rewrite find_in_table_appended, find_in_table_absent by assumption.
  reflexivity.
Qed.

Lemma missing_label_word2 uninit st lbl rs1 rs2 :
  ~ defined lbl (labelTable st) ->
  fst (assemble_fields uninit st 2 "j" lbl rs1 rs2) =
  fst (assemble_fields uninit (add_label lbl (-1) st) 2 "j" lbl rs1 rs2).
Proof.
  intros Habs. unfold assemble_fields, assemble_count2. concrete_opcode.
  cbn [fst]. unfold find_label_address, incr_count2, add_label.
  cbn [labelTable instruction_count2 instruction_count].
  rewrite find_in_table_appended, find_in_table_absent by assumption.
  reflexivity.
Qed.

Lemma nothing_defined lbl : ~ defined lbl (labelTable initial_state).
Proof. intros (e & H & _). exact H. Qed.

(** A line written with [line_of] is encoded from its fields. *)
Lemma line_fields uninit st count opcode rd rs1 rs2 o pos :
  In (o, pos) (register_fields count opcode) ->
  token rd -> token rs1 -> token rs2 ->
  assemble_instruction uninit st (line_of count opcode rd rs1 rs2) =
  assemble_fields uninit st count opcode rd rs1 rs2.
Proof.
  intros H Hrd Hrs1 Hrs2. revert H.
  register_cases
    ltac:(unfold line_of; cbn [Z.to_nat Pos.to_nat Pos.iter_op Nat.add firstn];
          rewrite assemble_instruction_tokens by tokens; reflexivity).
Qed.

(** * More properties *)

(** ** Packing fields into a word *)

Lemma s32_mod_pow2 a k : 0 <= k <= 32 -> s32 a mod 2 ^ k = a mod 2 ^ k.
Proof.
  intros Hk. unfold s32.
  pose proof (Z.div_mod (a + 2 ^ 31) (2 ^ 32) ltac:(lia)) as D.
  replace (2 ^ 32) with (2 ^ (32 - k) * 2 ^ k) in D at 1
    by (rewrite <- Z.pow_add_r by lia; f_equal; lia).
  replace ((a + 2 ^ 31) mod 2 ^ 32 - 2 ^ 31)
    with (a + (- (2 ^ (32 - k) * ((a + 2 ^ 31) / 2 ^ 32))) * 2 ^ k) by lia.
  apply Z_mod_plus_full.
Qed.

Lemma land_ones_s32 a k :
  0 <= k <= 32 -> Z.land (s32 a) (Z.ones k) = a mod 2 ^ k.
Proof. intros Hk. rewrite Z.land_ones by lia. now apply s32_mod_pow2. Qed.

(** The five bits the encoder keeps of a register number. *)
Lemma register_bits n : (uchar n & 0x1F) = n mod 32.
Proof.
  unfold uchar. change 31 with (Z.ones 5). rewrite Z.land_ones by lia.
  change (2 ^ 5) with 32.
  pose proof (Z.div_mod n 256 ltac:(lia)) as D.
  replace (n mod 256) with (n + (- (8 * (n / 256))) * 32) by lia.
  apply Z_mod_plus_full.
Qed.

(** The bits of [x] under the mask [ones k << s], as a number. *)
Lemma land_shifted_ones x s k :
  0 <= s -> 0 <= k ->
  Z.land x (Z.ones k * 2 ^ s) = (x / 2 ^ s) mod 2 ^ k * 2 ^ s.
Proof.
  intros Hs Hk.
  rewrite <- !Z.shiftl_mul_pow2, <- Z.shiftr_div_pow2, <- Z.land_ones by lia.
  apply Z.bits_inj'. intros n Hn.
  rewrite Z.land_spec.
  destruct (Z.lt_ge_cases n s) as [Lt | Ge].
  - rewrite !Z.shiftl_spec_low by lia. apply andb_false_r.
  - rewrite !Z.shiftl_spec, Z.land_spec, Z.shiftr_spec by lia.
    now replace (n - s + s) with n by lia.
Qed.

Lemma lor_disjoint m v p :
  0 <= p -> 0 <= m < 2 ^ p -> 0 <= v -> Z.lor m (v * 2 ^ p) = m + v * 2 ^ p.
Proof.
  intros Hp Hm Hv.
  assert (D : Z.land m (v * 2 ^ p) = 0).
  { apply Z.bits_inj'. intros n Hn.
    rewrite Z.land_spec, Z.bits_0, <- Z.shiftl_mul_pow2 by lia.
    destruct (Z.lt_ge_cases n p) as [Lt | Ge].
    - rewrite Z.shiftl_spec_low by lia. apply andb_false_r.
    - rewrite <- (Z.mod_small m (2 ^ p)) by lia.
      now rewrite Z.mod_pow2_bits_high by lia. }
  now rewrite <- Z.lxor_lor, <- Z.add_nocarry_lxor.
Qed.

(** One [|=] of a field of [k] bits at bit [p], above everything placed so
    far. *)
Lemma or_assign_pack m v p k :
  0 <= p -> 0 <= k -> p + k <= 32 ->
  0 <= m < 2 ^ p -> 0 <= v < 2 ^ k ->
  or_assign m (v * 2 ^ p) = m + v * 2 ^ p /\
  0 <= m + v * 2 ^ p < 2 ^ (p + k).
Proof.
  intros Hp Hk Hpk Hm Hv.
  assert (B : 0 <= m + v * 2 ^ p < 2 ^ (p + k)).
  { rewrite Z.pow_add_r by lia.
    assert (0 < 2 ^ p) by (apply Z.pow_pos_nonneg; lia). nia. }
  split; [| exact B].
  unfold or_assign, u32.
  assert (2 ^ (p + k) <= 2 ^ 32) by (apply Z.pow_le_mono_r; lia).
  rewrite Z.mod_small by nia.
  apply lor_disjoint; lia.
Qed.

Lemma or_assign_first_value c : 0 <= c < 2 ^ 32 -> or_assign 0 c = c.
Proof. intros H. unfold or_assign, u32. now rewrite Z.mod_small. Qed.

Ltac pack p k :=
  match goal with
  | |- context [or_assign ?m (?v * 2 ^ p)] =>
      let E := fresh "Epack" in
      let B := fresh "Bpack" in
      destruct (or_assign_pack m v p k) as [E B];
      [ lia | lia | lia | try (simpl Z.add in *; lia)
      | try (apply Z.mod_pos_bound; lia); try lia
      | rewrite E; clear E; simpl Z.add in B ]
  end.

Lemma shl_pack v p : 0 <= p -> (v << p) = v * 2 ^ p.
Proof. intros. now apply Z.shiftl_mul_pow2. Qed.

Lemma shl_shifted v s p :
  0 <= s -> 0 <= p -> ((v * 2 ^ s) << p) = v * 2 ^ (s + p).
Proof.
  intros Hs Hp. rewrite Z.shiftl_mul_pow2, Z.pow_add_r by lia. ring.
Qed.

Lemma shr_shifted v s p :
  0 <= p <= s -> ((v * 2 ^ s) >> p) = v * 2 ^ (s - p).
Proof.
  intros H. rewrite Z.shiftr_div_pow2 by lia.
  replace (2 ^ s) with (2 ^ (s - p) * 2 ^ p)
    by (rewrite <- Z.pow_add_r by lia; f_equal; lia).
  rewrite Z.mul_assoc. apply Z.div_mul.
  apply Z.pow_nonzero; lia.
Qed.

Lemma chain_R opc nd f3 n1 n2 f7 :
  0 <= opc < 2 ^ 7 -> 0 <= f3 < 2 ^ 3 -> 0 <= f7 < 2 ^ 7 ->
  ((((((0 |= opc) |= ((uchar nd & 0x1F) << 7)) |= (f3 << 12))
     |= ((uchar n1 & 0x1F) << 15)) |= ((uchar n2 & 0x1F) << 20))
   |= (f7 << 25)) =
  R_word f7 (n2 mod 32) (n1 mod 32) f3 (nd mod 32) opc.
Proof.
  intros Ho H3 H7. unfold R_word.
  rewrite !register_bits, !shl_pack by lia.
  rewrite or_assign_first_value by lia.
  pack 7 5. pack 12 3. pack 15 5. pack 20 5. pack 25 7.
  reflexivity.
Qed.

Lemma chain_I opc nd f3 n1 x :
  0 <= opc < 2 ^ 7 -> 0 <= f3 < 2 ^ 3 ->
  (((((0 |= opc) |= ((uchar nd & 0x1F) << 7)) |= (f3 << 12))
    |= ((uchar n1 & 0x1F) << 15)) |= ((s32 x & 0xFFF) << 20)) =
  I_word x (n1 mod 32) f3 (nd mod 32) opc.
Proof.
  intros Ho H3. unfold I_word.
  change 4095 with (Z.ones 12).
  rewrite !register_bits, land_ones_s32 by lia.
  change (2 ^ 12) with 4096.
  rewrite !shl_pack by lia.
  rewrite or_assign_first_value by lia.
  pack 7 5. pack 12 3. pack 15 5. pack 20 12.
  reflexivity.
Qed.

Lemma I_word_bound x n1 f3 nd opc :
  0 <= opc < 2 ^ 7 -> 0 <= f3 < 2 ^ 3 -> 0 <= x < 32 ->
  0 <= I_word x (n1 mod 32) f3 (nd mod 32) opc < 2 ^ 25 /\
  I_word x (n1 mod 32) f3 (nd mod 32) opc =
  R_word 0 x (n1 mod 32) f3 (nd mod 32) opc.
Proof.
  intros Ho H3 Hx. unfold I_word, R_word. rewrite (Z.mod_small x 4096) by lia.
  pose proof (Z.mod_pos_bound n1 32 ltac:(lia)).
  pose proof (Z.mod_pos_bound nd 32 ltac:(lia)).
  split; lia.
Qed.

(** The shifts by a constant from 0 to 31: the constant is in the [rs2]
    field and [funct7] above it. *)
Lemma chain_shift opc nd f3 n1 x f7 :
  0 <= opc < 2 ^ 7 -> 0 <= f3 < 2 ^ 3 -> 0 <= f7 < 2 ^ 7 -> 0 <= x < 32 ->
  ((((((0 |= opc) |= ((uchar nd & 0x1F) << 7)) |= (f3 << 12))
     |= ((uchar n1 & 0x1F) << 15)) |= ((s32 x & 0xFFF) << 20))
   |= (f7 << 25)) =
  R_word f7 x (n1 mod 32) f3 (nd mod 32) opc.
Proof.
  intros Ho H3 H7 Hx. rewrite chain_I by assumption.
  destruct (I_word_bound x n1 f3 nd opc Ho H3 Hx) as [B E].
  rewrite E in *. rewrite shl_pack by lia.
  destruct (or_assign_pack (R_word 0 x (n1 mod 32) f3 (nd mod 32) opc)
              f7 25 7) as [P _]; try lia.
  rewrite P. unfold R_word. lia.
Qed.

Lemma field_of_low12 y : (y / 32) mod 128 = y mod 4096 / 32.
Proof.
  change 4096 with (32 * 128). rewrite Z.rem_mul_r by lia.
  rewrite Z.add_comm, Z.mul_comm, Z.div_add_l by lia.
  rewrite (Z.div_small (y mod 32)) by (apply Z.mod_pos_bound; lia). lia.
Qed.

Lemma chain_S opc f3 n1 nd x :
  0 <= opc < 2 ^ 7 -> 0 <= f3 < 2 ^ 3 ->
  ((((((0 |= opc) |= ((s32 x & 0x1F) << 7)) |= (f3 << 12))
     |= ((uchar n1 & 0x1F) << 15)) |= ((uchar nd & 0x1F) << 20))
   |= ((s32 x & 0xFE0) << 20)) =
  S_word x (nd mod 32) (n1 mod 32) f3 opc.
Proof.
  intros Ho H3. unfold S_word.
  change 4064 with (Z.ones 7 * 2 ^ 5).
  rewrite land_shifted_ones by lia.
  change (2 ^ 5) with 32. change (2 ^ 7) with 128 at 1.
  rewrite (field_of_low12 (s32 x)), (field_of_low12 x).
  change 4096 with (2 ^ 12). rewrite s32_mod_pow2 by lia.
  change (s32 x & 31) with (Z.land (s32 x) (Z.ones 5)).
  rewrite land_ones_s32 by lia. change (2 ^ 5) with 32.
  rewrite !register_bits, !shl_pack by lia.
  replace (x mod 2 ^ 12 / 32 * 32 * 2 ^ 20)
    with (x mod 2 ^ 12 / 32 * 2 ^ 25) by lia.
  assert (Hhi : 0 <= x mod 2 ^ 12 / 32 < 2 ^ 7).
  { pose proof (Z.mod_pos_bound x (2 ^ 12) ltac:(lia)).
    split; [apply Z.div_pos; lia | apply Z.div_lt_upper_bound; lia]. }
  rewrite or_assign_first_value by lia.
  pack 7 5. pack 12 3. pack 15 5. pack 20 5. pack 25 7.
  reflexivity.
Qed.

Lemma chain_U opc nd x :
  0 <= opc < 2 ^ 7 ->
  (((0 |= opc) |= ((uchar nd & 0x1F) << 7)) |= ((s32 x & 0xFFFFF) << 12)) =
  U_word x (nd mod 32) opc.
Proof.
  intros Ho. unfold U_word.
  change 1048575 with (Z.ones 20).
  rewrite !register_bits, land_ones_s32, !shl_pack by lia.
  rewrite or_assign_first_value by lia.
  pack 7 5. pack 12 20.
  reflexivity.
Qed.

Lemma chain_J opc nd off :
  0 <= opc < 2 ^ 7 ->
  ((((((0 |= opc) |= ((uchar nd & 0x1F) << 7)) |= (off & 0xFF000))
     |= ((off & 0x800) << 9)) |= ((off & 0x7FE) << 20))
   |= ((off & 0x100000) << 11)) =
  J_word off (nd mod 32) opc.
Proof.
  intros Ho. unfold J_word.
  change 1044480 with (Z.ones 8 * 2 ^ 12).
  change 2048 with (Z.ones 1 * 2 ^ 11).
  change 2046 with (Z.ones 10 * 2 ^ 1).
  change 1048576 with (Z.ones 1 * 2 ^ 20).
  rewrite !land_shifted_ones by lia.
  rewrite !register_bits, !shl_pack by lia.
  change (2 ^ 1) with 2.
  replace ((off / 2 ^ 11) mod 2 * 2 ^ 11 * 2 ^ 9)
    with ((off / 2 ^ 11) mod 2 * 2 ^ 20) by lia.
  replace ((off / 2) mod 2 ^ 10 * 2 * 2 ^ 20)
    with ((off / 2) mod 2 ^ 10 * 2 ^ 21) by lia.
  replace ((off / 2 ^ 20) mod 2 * 2 ^ 20 * 2 ^ 11)
    with ((off / 2 ^ 20) mod 2 * 2 ^ 31) by lia.
  rewrite or_assign_first_value by lia.
  pack 7 5. pack 12 8. pack 20 1. pack 21 10. pack 31 1.
  reflexivity.
Qed.

Lemma chain_B sh opc f3 n1 n2 off :
  0 <= opc < 2 ^ 7 -> 0 <= f3 < 2 ^ 3 -> sh = 19 \/ sh = 20 ->
  ((((((((0 |= opc) |= ((off & 0x800) >> 4)) |= ((off & 0x1E) << 7))
       |= (f3 << 12)) |= ((uchar n1 & 0x1F) << 15))
     |= ((uchar n2 & 0x1F) << 20)) |= ((off & 0x7E0) << 20))
   |= ((off & 0x1000) << sh)) =
  opc - 0x63 +
  B_word (if sh =? 19 then (off / 2 ^ 12) mod 2 else 0) off
         (n2 mod 32) (n1 mod 32) f3.
Proof.
  intros Ho H3 Hsh. unfold B_word.
  change 2048 with (Z.ones 1 * 2 ^ 11).
  change 30 with (Z.ones 4 * 2 ^ 1).
  change 2016 with (Z.ones 6 * 2 ^ 5).
  change 4096 with (Z.ones 1 * 2 ^ 12).
  rewrite !land_shifted_ones by lia.
  rewrite !register_bits.
  rewrite shr_shifted by lia.
  rewrite (shl_shifted _ 1 7), (shl_shifted _ 5 20) by lia.
  rewrite !(shl_pack _ 12), !(shl_pack _ 15), !(shl_pack _ 20) by lia.
  change (11 - 4) with 7. change (1 + 7) with 8. change (5 + 20) with 25.
  change (2 ^ 1) with 2.
  rewrite or_assign_first_value by lia.
  pack 7 1. pack 8 4. pack 12 3. pack 15 5. pack 20 5. pack 25 6.
  destruct Hsh as [-> | ->].
  - rewrite shl_shifted by lia. change (12 + 19) with 31.
    pack 31 1. cbn [Z.eqb Pos.eqb]. lia.
  - rewrite or_assign_zero.
    + cbn [Z.eqb Pos.eqb]. lia.
    + rewrite shl_shifted by lia. change (12 + 20) with 32.
      unfold u32. apply Z_mod_mult.
Qed.

(** ** Reading fields back *)

Lemma sext_small k imm :
  0 < k -> - 2 ^ (k - 1) <= imm < 2 ^ (k - 1) -> sext k (imm mod 2 ^ k) = imm.
Proof.
  intros Hk H. unfold sext. cbv zeta.
  assert (P : 2 ^ k = 2 * 2 ^ (k - 1)).
  { rewrite <- Z.pow_succ_r by lia. f_equal. lia. }
  assert (Q : 0 < 2 ^ (k - 1)) by (apply Z.pow_pos_nonneg; lia).
  rewrite Z.mod_mod by lia.
  destruct (Z.ltb_spec (imm mod 2 ^ k) (2 ^ (k - 1))) as [L | G].
  - destruct (Z.lt_ge_cases imm 0) as [N | NN].
    + rewrite <- (Z_mod_plus_full imm 1 (2 ^ k)) in L.
      rewrite Z.mod_small in L by lia. lia.
    + apply Z.mod_small. lia.
  - destruct (Z.lt_ge_cases imm 0) as [N | NN].
    + rewrite <- (Z_mod_plus_full imm 1 (2 ^ k)).
      rewrite Z.mod_small by lia. lia.
    + rewrite Z.mod_small in G by lia. lia.
Qed.

(** A field laid between lower and higher ones is read back. *)
Lemma field_read lo v hi p k :
  0 <= p -> 0 <= k -> 0 <= lo < 2 ^ p -> 0 <= v < 2 ^ k ->
  field (lo + v * 2 ^ p + hi * 2 ^ (p + k)) p k = v.
Proof.
  intros Hp Hk Hlo Hv. unfold field.
  rewrite Z.pow_add_r by lia.
  replace (lo + v * 2 ^ p + hi * (2 ^ p * 2 ^ k))
    with (lo + (v + hi * 2 ^ k) * 2 ^ p) by ring.
  assert (0 < 2 ^ p) by (apply Z.pow_pos_nonneg; lia).
  rewrite Z.div_add by lia. rewrite Z.div_small by lia.
  rewrite Z.add_0_l, Z_mod_plus_full. apply Z.mod_small. exact Hv.
Qed.

Lemma field_of w lo v hi p k :
  0 <= p -> 0 <= k -> 0 <= lo < 2 ^ p -> 0 <= v < 2 ^ k ->
  w = lo + v * 2 ^ p + hi * 2 ^ (p + k) -> field w p k = v.
Proof. intros Hp Hk Hlo Hv ->. now apply field_read. Qed.

Lemma mod_split x p k :
  0 <= p -> 0 <= k ->
  x mod 2 ^ (p + k) = x mod 2 ^ p + 2 ^ p * ((x / 2 ^ p) mod 2 ^ k).
Proof.
  intros Hp Hk. rewrite Z.pow_add_r by lia.
  assert (0 < 2 ^ p) by (apply Z.pow_pos_nonneg; lia).
  assert (0 < 2 ^ k) by (apply Z.pow_pos_nonneg; lia).
  apply Z.rem_mul_r; lia.
Qed.

Lemma reg_range name : 0 <= reg name < 32.
Proof. unfold reg. apply Z.mod_pos_bound. lia. Qed.

Lemma I_imm_word imm rs1 funct3 rd opcode :
  0 <= opcode < 2 ^ 7 -> 0 <= funct3 < 2 ^ 3 -> 0 <= rd < 32 ->
  0 <= rs1 < 32 -> -2048 <= imm <= 2047 ->
  I_imm (I_word imm rs1 funct3 rd opcode) = imm.
Proof.
  intros Ho H3 Hd H1 Hi. unfold I_imm, I_word.
  pose proof (Z.mod_pos_bound imm 4096 ltac:(lia)) as B.
  rewrite (field_of _ (opcode + rd * 2 ^ 7 + funct3 * 2 ^ 12 + rs1 * 2 ^ 15)
             (imm mod 4096) 0 20 12) by lia.
  change 4096 with (2 ^ 12). apply sext_small; lia.
Qed.

Lemma S_imm_word imm rs2 rs1 funct3 opcode :
  0 <= opcode < 2 ^ 7 -> 0 <= funct3 < 2 ^ 3 -> 0 <= rs2 < 32 ->
  0 <= rs1 < 32 -> -2048 <= imm <= 2047 ->
  S_imm (S_word imm rs2 rs1 funct3 opcode) = imm.
Proof.
  intros Ho H3 H2 H1 Hi. unfold S_imm, S_word.
  pose proof (Z.mod_pos_bound imm 32 ltac:(lia)) as B.
  pose proof (Z.mod_pos_bound (imm / 32) 128 ltac:(lia)) as B'.
  rewrite (field_of _ opcode (imm mod 32)
             (funct3 + rs1 * 2 ^ 3 + rs2 * 2 ^ 8 +
              (imm / 32) mod 128 * 2 ^ 13) 7 5) by lia.
  rewrite (field_of _ (opcode + imm mod 32 * 2 ^ 7 + funct3 * 2 ^ 12 +
                       rs1 * 2 ^ 15 + rs2 * 2 ^ 20)
             ((imm / 32) mod 128) 0 25 7) by lia.
  replace ((imm / 32) mod 128 * 2 ^ 5 + imm mod 32) with (imm mod 2 ^ 12).
  - apply sext_small; lia.
  - change 12 with (5 + 7). rewrite mod_split by lia.
    change (2 ^ 5) with 32. change (2 ^ 7) with 128. lia.
Qed.

Lemma J_imm_word off rd opcode :
  0 <= opcode < 2 ^ 7 -> 0 <= rd < 32 -> off mod 2 = 0 ->
  - 2 ^ 20 <= off < 2 ^ 20 ->
  J_imm (J_word off rd opcode) = off.
Proof.
  intros Ho Hd He Hr. unfold J_imm, J_word.
  pose proof (Z.mod_pos_bound (off / 2 ^ 12) (2 ^ 8) ltac:(lia)) as A.
  pose proof (Z.mod_pos_bound (off / 2 ^ 11) 2 ltac:(lia)) as B.
  pose proof (Z.mod_pos_bound (off / 2) (2 ^ 10) ltac:(lia)) as C.
  pose proof (Z.mod_pos_bound (off / 2 ^ 20) 2 ltac:(lia)) as D.
  set (a := (off / 2 ^ 12) mod 2 ^ 8) in *.
  set (b := (off / 2 ^ 11) mod 2) in *.
  set (c := (off / 2) mod 2 ^ 10) in *.
  set (d := (off / 2 ^ 20) mod 2) in *.
  rewrite (field_of _ (opcode + rd * 2 ^ 7 + a * 2 ^ 12 + b * 2 ^ 20 +
                       c * 2 ^ 21) d 0 31 1) by lia.
  rewrite (field_of _ (opcode + rd * 2 ^ 7) a (b + c * 2 + d * 2 ^ 11) 12 8)
    by lia.
  rewrite (field_of _ (opcode + rd * 2 ^ 7 + a * 2 ^ 12) b (c + d * 2 ^ 10)
             20 1) by lia.
  rewrite (field_of _ (opcode + rd * 2 ^ 7 + a * 2 ^ 12 + b * 2 ^ 20) c d
             21 10) by lia.
  replace (d * 2 ^ 20 + a * 2 ^ 12 + b * 2 ^ 11 + c * 2) with (off mod 2 ^ 21).
  - apply sext_small; lia.
  - change 21 with (20 + 1). rewrite mod_split by lia.
    change 20 with (12 + 8) at 1. rewrite mod_split by lia.
    change 12 with (11 + 1) at 1. rewrite mod_split by lia.
    change 11 with (1 + 10) at 1. rewrite mod_split by lia.
    change (2 ^ 1) with 2. fold a b c d. lia.
Qed.

Lemma B_imm_word sign off rs2 rs1 funct3 :
  0 <= funct3 < 2 ^ 3 -> 0 <= rs2 < 32 -> 0 <= rs1 < 32 -> off mod 2 = 0 ->
  sign = (off / 2 ^ 12) mod 2 -> - 2 ^ 12 <= off < 2 ^ 12 ->
  B_imm (B_word sign off rs2 rs1 funct3) = off.
Proof.
  intros H3 H2 H1 He -> Hr. unfold B_imm, B_word.
  pose proof (Z.mod_pos_bound (off / 2 ^ 11) 2 ltac:(lia)) as A.
  pose proof (Z.mod_pos_bound (off / 2) (2 ^ 4) ltac:(lia)) as B.
  pose proof (Z.mod_pos_bound (off / 2 ^ 5) (2 ^ 6) ltac:(lia)) as C.
  pose proof (Z.mod_pos_bound (off / 2 ^ 12) 2 ltac:(lia)) as D.
  set (a := (off / 2 ^ 11) mod 2) in *.
  set (b := (off / 2) mod 2 ^ 4) in *.
  set (c := (off / 2 ^ 5) mod 2 ^ 6) in *.
  set (d := (off / 2 ^ 12) mod 2) in *.
  rewrite (field_of _ (99 + a * 2 ^ 7 + b * 2 ^ 8 + funct3 * 2 ^ 12 +
                       rs1 * 2 ^ 15 + rs2 * 2 ^ 20 + c * 2 ^ 25) d 0 31 1)
    by lia.
  rewrite (field_of _ 99 a (b + funct3 * 2 ^ 4 + rs1 * 2 ^ 7 + rs2 * 2 ^ 12 +
                            c * 2 ^ 17 + d * 2 ^ 23) 7 1) by lia.
  rewrite (field_of _ (99 + a * 2 ^ 7 + b * 2 ^ 8 + funct3 * 2 ^ 12 +
                       rs1 * 2 ^ 15 + rs2 * 2 ^ 20) c d 25 6) by lia.
  rewrite (field_of _ (99 + a * 2 ^ 7) b
             (funct3 + rs1 * 2 ^ 3 + rs2 * 2 ^ 8 + c * 2 ^ 13 + d * 2 ^ 19)
             8 4) by lia.
  replace (d * 2 ^ 12 + a * 2 ^ 11 + c * 2 ^ 5 + b * 2) with (off mod 2 ^ 13).
  - apply sext_small; lia.
  - change 13 with (12 + 1). rewrite mod_split by lia.
    change 12 with (11 + 1) at 1. rewrite mod_split by lia.
    change 11 with (5 + 6) at 1. rewrite mod_split by lia.
    change 5 with (1 + 4) at 1. rewrite mod_split by lia.
    change (2 ^ 1) with 2. fold a b c d. lia.
Qed.

Lemma jump_offset st lbl :
  s32 ((find_label_address (incr_count2 st) lbl -
        instruction_count2 (incr_count2 st)) << 2) = branch_offset st lbl.
Proof.
  unfold branch_offset, find_label_address, incr_count2.
  cbn [labelTable instruction_count2]. rewrite Z.shiftl_mul_pow2 by lia.
  reflexivity.
Qed.

Lemma branch_offset_even st lbl : branch_offset st lbl mod 2 = 0.
Proof.
  unfold branch_offset. change 2 with (2 ^ 1) at 1.
  rewrite s32_mod_pow2 by lia. change (2 ^ 1) with 2.
  replace ((find_label_address st lbl - (instruction_count2 st + 1)) * 4)
    with (0 + (find_label_address st lbl - (instruction_count2 st + 1)) * 2 * 2)
    by ring.
  rewrite Z_mod_plus_full. reflexivity.
Qed.

Ltac small_constants :=
  unfold b0110011, b0010011, b1100111, b1100011, b0000011, b0100011,
    b0010111, b0110111, b1101111, b0000000, b0100000, b000, b001, b010,
    b011, b100, b101, b110, b111; lia.

(** From [In (f_opcode f, codes) table -> G] to one goal for each entry,
    with the mnemonic known. *)
Ltac table_cases fin :=
  let H := fresh "Hin" in
  intros H; cbn [In] in H;
  repeat (destruct H as [H | H];
          [ let Hop := fresh "Hop" in
            injection H as Hop; subst; rewrite <- Hop;
            unfold assemble_fields, assemble_count4, assemble_count3,
              assemble_count2;
            concrete_opcode; fin
          | ]);
  contradiction.

(** ** The label table *)

Lemma defined_labels lbl tbl : defined lbl tbl <-> In lbl (map label tbl).
Proof.
  unfold defined. rewrite in_map_iff. split.
  - intros (e & Hin & He). exists e. now split.
  - intros (e & He & Hin). exists e. now split.
Qed.

Lemma labelled_table uninit st line :
  labelTable (labelled uninit st (normalise line)) =
  (labelTable st ++
   map (fun l => mkLabel l (instruction_count st + 1))
       (line_label uninit line))%list.
Proof.
  unfold labelled, line_label.
  destruct (splitString (normalise line)) as [l [| c r]]; cbn [map].
  - now rewrite app_nil_r.
  - reflexivity.
Qed.

Lemma first_pass_table uninit st line :
  labelTable (first_pass uninit st (normalise line)) =
  (labelTable st ++
   map (fun l => mkLabel l (instruction_count st + 1))
       (line_label uninit line))%list.
Proof.
  rewrite first_pass_recognised, <- labelled_table.
  now destruct (recognised_line (normalise line)).
Qed.

(** Pass one only adds to the table. *)
Lemma pass_one_extends uninit lines st :
  exists more,
    labelTable (pass_one uninit lines st) = (labelTable st ++ more)%list.
Proof.
  revert st. induction lines as [| line lines IH]; intros st; cbn [pass_one].
  - exists []. now rewrite app_nil_r.
  - cbv zeta. fold (normalise line).
    destruct (IH (first_pass uninit st (normalise line))) as [more E].
    rewrite E, first_pass_table, <- app_assoc. eauto.
Qed.

Lemma pass_one_app uninit pre post st :
  pass_one uninit (pre ++ post) st =
  pass_one uninit post (pass_one uninit pre st).
Proof.
  revert st. induction pre as [| line pre IH]; intros st; [reflexivity |].
  cbn [app pass_one]. cbv zeta. apply IH.
Qed.

(** The second pass leaves the table and the first counter alone, and
    counts the instructions it encodes. *)
Lemma pass_two_state uninit isHex isBin lines st f :
  fst (pass_two uninit isHex isBin lines st f) =
  mkState (labelTable st) (instruction_count st)
          (instruction_count2 st + count_recognised lines).
Proof.
  revert st f. induction lines as [| line lines IH]; intros st f.
  - cbn [pass_two fst]. unfold count_recognised. cbn [filter List.length].
    rewrite Z.add_0_r. now destruct st.
  - rewrite pass_two_cons. cbv zeta. rewrite IH, count_recognised_cons.
    pose proof (assemble_instruction_recognised uninit st (normalise line))
      as H.
    destruct (recognised_line (normalise line)).
    + destruct H as (-> & _). cbn [incr_count2 labelTable instruction_count
        instruction_count2]. f_equal; lia.
    + rewrite H. cbn [snd]. f_equal; lia.
Qed.

(** The address pass one records for a label that the table does not hold
    yet: one more than the number of instructions counted when the first
    line that carries it is read. *)
Lemma label_address_from uninit pre line post lbl st :
  line_label uninit line = [lbl] ->
  ~ In lbl (flat_map (line_label uninit) pre) ->
  ~ defined lbl (labelTable st) ->
  find_label_address (pass_one uninit (pre ++ line :: post) st) lbl =
  instruction_count st + count_recognised pre + 1.
Proof.
  intros Hl Hpre Hst. rewrite pass_one_app. cbn [pass_one]. cbv zeta.
  fold (normalise line).
  set (st' := pass_one uninit pre st).
  assert (Hst' : ~ defined lbl (labelTable st')).
  { rewrite defined_labels. unfold st'. rewrite pass_one_labels.
    rewrite in_app_iff, <- defined_labels. tauto. }
  assert (Hc : instruction_count st' = instruction_count st + count_recognised pre).
  { unfold st'. apply (proj1 (pass_one_counters uninit pre st)). }
  destruct (pass_one_extends uninit post (first_pass uninit st' (normalise line)))
    as [more E].
  unfold find_label_address. rewrite E, first_pass_table, Hl. cbn [map].
  rewrite find_in_table_first.
  - rewrite find_in_table_appended by exact Hst'. now rewrite Hc.
  - exists (mkLabel lbl (instruction_count st' + 1)). split; [| reflexivity].
    apply in_or_app. right. now left.
Qed.

Lemma strchr_found a c rest :
  all_chars (fun d => negb (Ascii.eqb d c)) a = true ->
  strchr (a ++ String c rest) c = Some (a, String c rest).
Proof.
  induction a as [| d a IH]; cbn [append all_chars strchr]; intros H.
  - now rewrite Ascii.eqb_refl.
  - apply andb_true_iff in H. destruct H as [Hd Ha].
    destruct (Ascii.eqb d c); [discriminate |]. now rewrite IH.
Qed.

Lemma strchr_parts s c b a :
  strchr s c = Some (b, a) ->
  s = (b ++ a)%string /\ (exists r, a = String c r) /\
  all_chars (fun d => negb (Ascii.eqb d c)) b = true.
Proof.
  revert b a. induction s as [| d s IH]; intros b a; cbn [strchr];
    [discriminate |].
  destruct (Ascii.eqb_spec d c) as [-> | N].
  - intros [= <- <-]. repeat split. now exists s.
  - destruct (strchr s c) as [[b' a'] |]; [| discriminate].
    intros [= <- <-]. destruct (IH b' a' eq_refl) as (E & R & F).
    cbn [append all_chars]. rewrite <- E, F.
    destruct (Ascii.eqb_spec d c); [contradiction |]. now repeat split.
Qed.

Lemma all_chars_get p s i c :
  all_chars p s = true -> String.get i s = Some c -> p c = true.
Proof.
  revert i. induction s as [| d s IH]; intros i H G; [discriminate |].
  cbn [all_chars] in H. apply andb_true_iff in H. destruct H as [Hd Hs].
  destruct i as [| i]; cbn [String.get] in G.
  - now injection G as <-.
  - now apply (IH i).
Qed.

(** [remove_colon] has nothing to do where [splitString] has cut the text
    at the first colon. *)
Lemma remove_colon_none s : colon_free s -> remove_colon s = s.
Proof.
  intros H. unfold remove_colon.
  destruct (String.get (String.length s - 1) s) as [c |] eqn:G;
    [| now rewrite andb_false_r].
  pose proof (all_chars_get _ s _ c H G) as N. cbv beta in N.
  destruct (Ascii.eqb c ":"); [discriminate |]. now rewrite andb_false_r.
Qed.

Lemma blanks_no_colon k : colon_free (blanks k).
Proof. induction k as [| k IH]; [reflexivity | exact IH]. Qed.

(** ** Separators *)

Lemma replaceCommas_append a b :
  replaceCommas (a ++ b) = (replaceCommas a ++ replaceCommas b)%string.
Proof.
  induction a as [| c a IH]; [reflexivity |].
  cbn [append replaceCommas]. now rewrite IH.
Qed.

Lemma replaceCommas_separator s :
  all_chars separator_char s = true -> white (replaceCommas s).
Proof.
  unfold white. induction s as [| c s IH]; [reflexivity |].
  cbn [all_chars replaceCommas]. intros H.
  apply andb_true_iff in H. destruct H as [Hc Hs]. rewrite (IH Hs).
  unfold separator_char in Hc.
  destruct (Ascii.eqb c ","); [reflexivity |].
  rewrite orb_false_r in Hc. now rewrite Hc.
Qed.

Lemma atom_token t : atom t -> token t /\ replaceCommas t = t.
Proof.
  intros [Hne H]. unfold token, solid, colon_free.
  assert (G : all_chars (fun c => negb (isspace c)) t = true /\
              all_chars (fun c => negb (Ascii.eqb c ":")) t = true /\
              replaceCommas t = t).
  { clear Hne. induction t as [| c t IH]; [now repeat split |].
    cbn [all_chars replaceCommas] in *.
    apply andb_true_iff in H. destruct H as [Hc Ht].
    destruct (IH Ht) as (I1 & I2 & I3). rewrite I1, I2, I3.
    unfold separator_char in Hc.
    destruct (isspace c); [discriminate |].
    destruct (Ascii.eqb c ","); [discriminate |].
    destruct (Ascii.eqb c ":"); [discriminate |]. now repeat split. }
  destruct G as (G1 & G2 & G3). now repeat split.
Qed.

Lemma scan_tokens_white n w s :
  white w -> scan_tokens n (w ++ s) = scan_tokens n s.
Proof.
  unfold white. destruct n as [| n]; [reflexivity |].
  induction w as [| c w IH]; [reflexivity |].
  cbn [all_chars append]. intros H.
  apply andb_true_iff in H. destruct H as [Hc Hw].
  cbn [scan_tokens skip_ws] in *. rewrite Hc. now apply IH.
Qed.

Lemma read_token_white w s :
  w <> EmptyString -> white w ->
  read_token (w ++ s) = (EmptyString, (w ++ s)%string).
Proof.
  unfold white. destruct w as [| c w]; [contradiction |]. intros _ H.
  cbn [all_chars] in H. apply andb_true_iff in H. destruct H as [Hc _].
  cbn [append read_token]. now rewrite Hc.
Qed.

Lemma white_no_colon w : white w -> colon_free w.
Proof.
  unfold white, colon_free. induction w as [| c w IH]; [reflexivity |].
  cbn [all_chars]. intros H. apply andb_true_iff in H.
  destruct H as [Hc Hw]. rewrite (IH Hw).
  destruct (Ascii.eqb_spec c ":") as [-> | _]; [discriminate | reflexivity].
Qed.

Lemma spaced_scanned n lead ps :
  all_chars separator_char lead = true ->
  Forall (fun p => atom (fst p) /\ separator (snd p)) ps ->
  scan_tokens n (replaceCommas (lead ++ spaced ps)) = firstn n (map fst ps) /\
  colon_free (replaceCommas (lead ++ spaced ps)).
Proof.
  intros Hlead H. rewrite replaceCommas_append.
  pose proof (replaceCommas_separator lead Hlead) as Wl.
  rewrite scan_tokens_white by exact Wl.
  assert (G : forall n, scan_tokens n (replaceCommas (spaced ps)) =
                        firstn n (map fst ps) /\
              colon_free (replaceCommas (spaced ps))).
  { clear n lead Hlead Wl.
    induction H as [| [t sep] ps [Ht [Hne Hsep]] Hps IH]; intros n.
    - split; [now destruct n | reflexivity].
    - cbn [fst snd] in *. cbn [spaced map].
      rewrite !replaceCommas_append.
      destruct (atom_token t Ht) as [Tk Rt]. rewrite Rt.
      pose proof (replaceCommas_separator sep Hsep) as Ws.
      assert (Nes : replaceCommas sep <> EmptyString)
        by (destruct sep; [contradiction | discriminate]).
      split.
      + destruct n as [| n]; [reflexivity |].
        rewrite scan_tokens_token by exact Tk.
        rewrite read_token_white by assumption.
        cbn [fst snd firstn]. rewrite append_nil_r. f_equal.
        rewrite scan_tokens_white by exact Ws. apply IH.
      + apply colon_free_append; [apply Tk |].
        apply colon_free_append; [now apply white_no_colon |].
        apply (IH O). }
  split; [apply G |].
  apply colon_free_append; [now apply white_no_colon | apply (G O)].
Qed.

(** Text without a colon is scanned once, by both passes, and only the
    tokens count. *)
Lemma colon_free_passes uninit st s s' :
  colon_free s -> colon_free s' -> scan_tokens 4 s = scan_tokens 4 s' ->
  assemble_instruction uninit st s = assemble_instruction uninit st s' /\
  first_pass uninit st s = first_pass uninit st s'.
Proof.
  intros Hs Hs' E.
  unfold assemble_instruction, first_pass, sscanf4, splitString.
  rewrite (strchr_no_colon s Hs), (strchr_no_colon s' Hs'), E.
  split; reflexivity.
Qed.

(** ** The size of the output *)

Lemma output_hex_length code f :
  0 <= code < 2 ^ 32 ->
  String.length (output_hex code f) = (String.length f + 11)%nat.
Proof.
  intros H. unfold output_hex. rewrite printf_08X_fixed by exact H.
  rewrite !length_append, fixed_hex_length. cbn [String.length]. lia.
Qed.

Lemma bits_be_length n v : String.length (bits_be n v) = n.
Proof. induction n as [| i IH]; [reflexivity |]. cbn. now rewrite IH. Qed.

Lemma output_binary_length code f :
  String.length (output_binary code f) = (String.length f + 33)%nat.
Proof.
  unfold output_binary. rewrite output_binary_loop_bits by lia.
  rewrite !length_append, bits_be_length. cbn [String.length]. lia.
Qed.

Lemma write_word_length isHex isBin w f :
  isHex || isBin = true -> Z.odd w = true -> 0 <= w < 2 ^ 32 ->
  String.length (write_word isHex isBin w f) =
  (String.length f + (if isHex then 11 else 33))%nat.
Proof.
  intros Hflag Hodd Hw. unfold write_word, Z_of_bool.
  destruct isHex.
  - rewrite land_1, Hodd. cbn [negb]. now apply output_hex_length.
  - cbn [orb] in Hflag. subst isBin. rewrite Z.land_0_l.
    change (negb (0 =? 0)) with false. cbv iota.
    rewrite land_1, Hodd. cbn [negb]. apply output_binary_length.
Qed.

(** ** Numerals *)

Lemma strtol_digits_hex ds acc :
  all_chars is_upper_hex ds = true ->
  strtol_digits 16 acc ds =
  fold_left (fun a c => a * 16 + hex_digit_value c)
            (list_ascii_of_string ds) acc.
Proof.
  revert acc. induction ds as [| c ds IH]; intros acc H; [reflexivity |].
  cbn [all_chars] in H. apply andb_true_iff in H. destruct H as [Hc Hds].
  cbn [strtol_digits list_ascii_of_string fold_left].
  assert (D : digit_val c = Some (hex_digit_value c) /\
              hex_digit_value c < 16).
  { unfold is_upper_hex, hex_alphabet in Hc.
    cbn [list_ascii_of_string existsb] in Hc.
    repeat (apply orb_true_iff in Hc;
            destruct Hc as [Hc | Hc];
            [apply Ascii.eqb_eq in Hc; subst c; split; reflexivity |]).
    discriminate. }
  destruct D as [-> D]. destruct (Z.ltb_spec (hex_digit_value c) 16); [| lia].
  now apply IH.
Qed.

Lemma hex_fold_range ds acc :
  all_chars is_upper_hex ds = true -> 0 <= acc ->
  0 <= fold_left (fun a c => a * 16 + hex_digit_value c)
         (list_ascii_of_string ds) acc
    < (acc + 1) * 16 ^ Z.of_nat (String.length ds).
Proof.
  revert acc. induction ds as [| c ds IH]; intros acc H Ha.
  - cbn [list_ascii_of_string fold_left String.length].
    change (16 ^ Z.of_nat 0) with 1. lia.
  - cbn [all_chars] in H. apply andb_true_iff in H. destruct H as [Hc Hds].
    cbn [list_ascii_of_string fold_left].
    assert (R : 0 <= hex_digit_value c < 16).
    { unfold is_upper_hex, hex_alphabet in Hc.
      cbn [list_ascii_of_string existsb] in Hc.
      repeat (apply orb_true_iff in Hc;
              destruct Hc as [Hc | Hc];
              [apply Ascii.eqb_eq in Hc; subst c;
               split; [discriminate | reflexivity] |]).
      discriminate. }
    destruct (IH (acc * 16 + hex_digit_value c) Hds ltac:(lia)) as [L U].
    split; [exact L |].
    replace (Z.of_nat (String.length (String c ds)))
      with (Z.succ (Z.of_nat (String.length ds)))
      by (cbn [String.length]; lia).
    rewrite Z.pow_succ_r by lia.
    assert (0 < 16 ^ Z.of_nat (String.length ds))
      by (apply Z.pow_pos_nonneg; lia).
    nia.
Qed.

Lemma clamp_long v :
  LONG_MIN <= v <= LONG_MAX -> Z.max LONG_MIN (Z.min LONG_MAX v) = v.
Proof. unfold LONG_MIN, LONG_MAX. lia. Qed.

Lemma starts_with_cons a p b s :
  starts_with (String a p) (String b s) =
  if Ascii.eqb a b then starts_with p s else false.
Proof.
  unfold starts_with. cbn [prefix].
  destruct (ascii_dec a b) as [E | N]; destruct (Ascii.eqb_spec a b);
    congruence.
Qed.

Lemma starts_with_nil s : starts_with EmptyString s = true.
Proof. now destruct s. Qed.

Ltac prefix_known :=
  repeat (rewrite starts_with_cons; cbn [Ascii.eqb Bool.eqb]);
  rewrite ?starts_with_nil.

Ltac digit_step :=
  match goal with
  | |- context [digit_val ?c] =>
      let v := eval vm_compute in (digit_val c) in
      change (digit_val c) with v
  end;
  cbv iota beta;
  match goal with
  | |- context [?k <? 10] => change (k <? 10) with true
  end;
  cbv iota.

Lemma strtol_digits_acc d acc :
  strtol_digits 10 (Z.pos acc) (NilEmpty.string_of_uint d) =
  Z.pos (Pos.of_uint_acc d acc).
Proof.
  revert acc. induction d; intros acc;
    cbn [NilEmpty.string_of_uint strtol_digits Pos.of_uint_acc];
    [reflexivity | ..];
    digit_step;
    match goal with
    | |- strtol_digits 10 ?a _ = Z.pos (Pos.of_uint_acc _ ?p) =>
        replace a with (Z.pos p) by lia
    end;
    apply IHd.
Qed.

Lemma strtol_digits_uint d :
  strtol_digits 10 0 (NilEmpty.string_of_uint d) = Z.of_uint d.
Proof.
  unfold Z.of_uint.
  induction d;
    cbn [NilEmpty.string_of_uint strtol_digits Pos.of_uint];
    [reflexivity | ..];
    digit_step; cbn [Z.mul Z.add Z.of_N];
    [exact IHd | apply strtol_digits_acc ..].
Qed.

Lemma digits_head d :
  d <> Decimal.Nil ->
  exists c r, NilEmpty.string_of_uint d = String c r /\
    isspace c = false /\ c <> "-"%char /\ c <> "+"%char /\
    starts_with "0x" (String c r) = false.
Proof.
  intros H. destruct d; [contradiction | ..];
    cbn [NilEmpty.string_of_uint]; eexists; eexists;
    (split; [reflexivity |]); (split; [reflexivity |]);
    (split; [discriminate |]); (split; [discriminate |]);
    prefix_known; try reflexivity.
  destruct d; cbn [NilEmpty.string_of_uint]; try reflexivity;
    prefix_known; reflexivity.
Qed.

Lemma strtol_unsigned c r :
  isspace c = false -> c <> "-"%char -> c <> "+"%char ->
  strtol (String c r) 10 =
  Z.max LONG_MIN (Z.min LONG_MAX (strtol_digits 10 0 (String c r))) /\
  strtol (String "-" (String c r)) 10 =
  Z.max LONG_MIN (Z.min LONG_MAX (- strtol_digits 10 0 (String c r))).
Proof.
  intros Hs Hm Hp. unfold strtol.
  change (skip_ws (String "-" (String c r))) with (String "-" (String c r)).
  cbn [skip_ws]. rewrite Hs. split; [| reflexivity].
  destruct c as [[] [] [] [] [] [] [] []]; try reflexivity; congruence.
Qed.

Lemma strtol_uint d :
  d <> Decimal.Nil ->
  let s := NilEmpty.string_of_uint d in
  starts_with "0x" s = false /\ starts_with "0x" (String "-" s) = false /\
  strtol s 10 = Z.max LONG_MIN (Z.min LONG_MAX (Z.of_uint d)) /\
  strtol (String "-" s) 10 = Z.max LONG_MIN (Z.min LONG_MAX (- Z.of_uint d)).
Proof.
  intros H. cbv zeta. rewrite <- strtol_digits_uint.
  destruct (digits_head d H) as (c & r & -> & Hs & Hm & Hp & Hx).
  destruct (strtol_unsigned c r Hs Hm Hp) as [U N].
  split; [exact Hx |]. split; [| now split].
  rewrite starts_with_cons. reflexivity.
Qed.

(** ** Memory operands without brackets *)

Lemma separate_rs1_word w :
  word w -> separate_rs1 w = blanks (String.length w).
Proof.
  unfold separate_rs1.
  induction w as [| c w IH]; intros H; [reflexivity |].
  apply word_cons in H. destruct H as [Hc Hw].
  cbn [separate_rs1_loop String.length blanks].
  rewrite (plain_not_open c Hc). cbn [negb]. now rewrite IH.
Qed.

Lemma scan_tokens_only_blanks n k : scan_tokens n (blanks k) = [].
Proof.
  rewrite <- (append_nil_r (blanks k)), scan_tokens_blanks.
  now destruct n.
Qed.

Lemma removeBracket_blanks k : removeBracket (blanks k) = blanks k.
Proof.
  induction k as [| k IH]; [reflexivity |].
  cbn [blanks removeBracket]. cbn [Ascii.eqb Bool.eqb]. now rewrite IH.
Qed.

Lemma get_register_number_blanks k : get_register_number (blanks k) = -1.
Proof.
  unfold get_register_number.
  destruct k as [| k]; cbn [blanks]; [reflexivity |].
  cbn [String.eqb Ascii.eqb Bool.eqb orb].
  rewrite starts_with_cons. reflexivity.
Qed.

Lemma separateImmediate_plain w : word w -> separateImmediate w = w.
Proof.
  induction w as [| c w IH]; intros H; [reflexivity |].
  apply word_cons in H. destruct H as [Hc Hw]. cbn [separateImmediate].
  now rewrite (plain_not_open c Hc), IH.
Qed.

(** ** Lines of a file *)

Lemma fgets_line room l rest :
  no_newline l -> (String.length l < room)%nat ->
  fgets room (l ++ nl ++ rest) = ((l ++ nl)%string, rest).
Proof.
  unfold no_newline. revert room.
  induction l as [| c l IH]; intros room H L.
  - destruct room as [| room]; [lia |]. cbn [append nl fgets].
    now rewrite Ascii.eqb_refl.
  - destruct room as [| room]; [cbn in L; lia |].
    cbn [all_chars] in H. apply andb_true_iff in H. destruct H as [Hc Hl].
    cbn [append fgets]. destruct (Ascii.eqb c newline); [discriminate |].
    cbn [String.length] in L. rewrite (IH room Hl) by lia. reflexivity.
Qed.

Lemma fgets_last room l :
  no_newline l -> (String.length l <= room)%nat ->
  fgets room l = (l, EmptyString).
Proof.
  unfold no_newline. revert room.
  induction l as [| c l IH]; intros room H L.
  - now destruct room.
  - destruct room as [| room]; [cbn in L; lia |].
    cbn [all_chars] in H. apply andb_true_iff in H. destruct H as [Hc Hl].
    cbn [fgets]. destruct (Ascii.eqb c newline); [discriminate |].
    cbn [String.length] in L. rewrite (IH room Hl) by lia. reflexivity.
Qed.

Lemma read_lines_unlines fuel ls last :
  Forall (fun l => no_newline l /\ (String.length l <= 254)%nat) ls ->
  no_newline last -> (String.length last <= 255)%nat ->
  (String.length (unlines ls ++ last) <= fuel)%nat ->
  read_lines fuel (unlines ls ++ last) =
  (map (fun l => l ++ nl)%string ls ++
   match last with EmptyString => [] | _ => [last] end)%list.
Proof.
  intros H Hn Hl. revert fuel.
  induction H as [| l ls [Hno Hlen] Hls IH]; intros fuel Hf.
  - cbn [unlines append map app] in *.
    destruct last as [| c r]; [now destruct fuel |].
    destruct fuel as [| fuel]; [cbn in Hf; lia |].
    cbn [read_lines]. unfold MAX_LINE_LENGTH.
    change (256 - 1)%nat with 255%nat.
    rewrite fgets_last by (try assumption; lia).
    now destruct fuel.
  - cbn [unlines map app] in *. rewrite !append_assoc in *.
    destruct fuel as [| fuel].
    { rewrite !length_append in Hf. cbn in Hf. lia. }
    cbn [read_lines].
    destruct (l ++ nl ++ unlines ls ++ last)%string as [| c r] eqn:E.
    { destruct l; discriminate. }
    rewrite <- E in Hf. rewrite <- E. unfold MAX_LINE_LENGTH. change (256 - 1)%nat with 255%nat.
    rewrite fgets_line by (try assumption; lia).
    f_equal. apply IH.
    rewrite !length_append in Hf. rewrite length_append.
    cbn [String.length nl] in Hf. lia.
Qed.


(** ** Source lines *)

Lemma all_chars_impl (p q : ascii -> bool) s :
  (forall c, p c = true -> q c = true) ->
  all_chars p s = true -> all_chars q s = true.
Proof.
  intros I. induction s as [| c s IH]; [reflexivity |].
  cbn [all_chars]. intros H. apply andb_true_iff in H.
  destruct H as [Hc Hs]. now rewrite (I c Hc), IH.
Qed.

Lemma blank_char_separator c : blank_char c = true -> separator_char c = true.
Proof. unfold blank_char. intros H. now apply andb_true_iff in H. Qed.

Lemma blank_char_plain c :
  blank_char c = true ->
  Ascii.eqb c "#" = false /\ Ascii.eqb c newline = false.
Proof.
  unfold blank_char. intros H. apply andb_true_iff in H. destruct H as [S N].
  split; [| now destruct (Ascii.eqb c newline)].
  destruct (Ascii.eqb_spec c "#") as [-> | _]; [discriminate | reflexivity].
Qed.

Lemma token_char_plain c :
  token_char c = true ->
  separator_char c = false /\ Ascii.eqb c ":" = false /\
  Ascii.eqb c "#" = false /\ Ascii.eqb c newline = false.
Proof.
  unfold token_char. intros H.
  destruct (separator_char c) eqn:S; [discriminate |].
  destruct (Ascii.eqb c ":"); [discriminate |].
  destruct (Ascii.eqb c "#"); [discriminate |].
  repeat split.
  destruct (Ascii.eqb_spec c newline) as [-> | _]; [discriminate | reflexivity].
Qed.

Lemma blanks_clean s :
  all_chars blank_char s = true ->
  all_chars separator_char s = true /\ hash_free s /\ no_newline s.
Proof.
  intros H. repeat split.
  - revert H. apply all_chars_impl. apply blank_char_separator.
  - revert H. apply all_chars_impl. intros c Hc.
    now rewrite (proj1 (blank_char_plain c Hc)).
  - revert H. apply all_chars_impl. intros c Hc.
    now rewrite (proj2 (blank_char_plain c Hc)).
Qed.

Lemma token_ok_clean t :
  token_ok t = true -> atom t /\ hash_free t /\ no_newline t.
Proof.
  unfold token_ok. intros H. apply andb_true_iff in H. destruct H as [N H].
  split; [split |]; [now destruct t | | split].
  - revert H. apply all_chars_impl. intros c Hc.
    destruct (token_char_plain c Hc) as (-> & -> & _). reflexivity.
  - revert H. apply all_chars_impl. intros c Hc.
    destruct (token_char_plain c Hc) as (_ & _ & -> & _). reflexivity.
  - revert H. apply all_chars_impl. intros c Hc.
    destruct (token_char_plain c Hc) as (_ & _ & _ & ->). reflexivity.
Qed.

Lemma tokens_ok_cons t sep rest :
  tokens_ok ((t, sep) :: rest) = true ->
  token_ok t = true /\ all_chars blank_char sep = true /\
  (sep <> EmptyString \/ rest = []) /\ tokens_ok rest = true.
Proof.
  cbn [tokens_ok]. intros H.
  apply andb_true_iff in H. destruct H as [H R].
  apply andb_true_iff in H. destruct H as [H L].
  apply andb_true_iff in H. destruct H as [T S].
  repeat split; try assumption.
  apply orb_true_iff in L. destruct L as [L | L].
  - left. now destruct sep.
  - right. now destruct rest.
Qed.

Lemma hash_free_append a b : hash_free a -> hash_free b -> hash_free (a ++ b).
Proof. unfold hash_free. intros Ha Hb. now rewrite all_chars_append, Ha, Hb. Qed.

Lemma no_newline_append a b :
  no_newline a -> no_newline b -> no_newline (a ++ b).
Proof.
  unfold no_newline. intros Ha Hb. now rewrite all_chars_append, Ha, Hb.
Qed.

Lemma spaced_clean ps :
  tokens_ok ps = true -> hash_free (spaced ps) /\ no_newline (spaced ps).
Proof.
  induction ps as [| [t sep] rest IH]; [now split |]. intros H.
  apply tokens_ok_cons in H. destruct H as (T & S & _ & R).
  destruct (token_ok_clean t T) as (_ & Th & Tn).
  destruct (blanks_clean sep S) as (_ & Sh & Sn).
  destruct (IH R) as [Rh Rn]. cbn [spaced]. split.
  - apply hash_free_append; [exact Th |]. now apply hash_free_append.
  - apply no_newline_append; [exact Tn |]. now apply no_newline_append.
Qed.

Lemma removeComment_none s : hash_free s -> removeComment s = s.
Proof.
  intros H. unfold removeComment.
  destruct (strchr s "#") as [[b a] |] eqn:S; [| reflexivity].
  destruct (strchr_parts _ _ _ _ S) as (-> & (r & ->) & _).
  unfold hash_free in H. rewrite all_chars_append in H. cbn [all_chars] in H.
  rewrite Ascii.eqb_refl in H. cbn in H. rewrite andb_false_r in H.
  discriminate.
Qed.

Lemma removeComment_cut s note :
  hash_free s -> removeComment (s ++ "#" ++ note) = s.
Proof.
  intros H. unfold removeComment. cbn [append].
  now rewrite (strchr_found s "#" note H).
Qed.

Lemma read_token_stops s : stops s = true -> read_token s = (EmptyString, s).
Proof.
  destruct s as [| c s]; [reflexivity |]. cbn [stops read_token].
  now intros ->.
Qed.

Lemma white_stops w r : white w -> stops r = true -> stops (w ++ r) = true.
Proof.
  unfold white. destruct w as [| c w]; [now intros _ |].
  cbn [all_chars append stops]. intros H _.
  now apply andb_true_iff in H.
Qed.

Lemma scan_tokens_all_white n w : white w -> scan_tokens n w = [].
Proof.
  intros H. rewrite <- (append_nil_r w), scan_tokens_white by exact H.
  now destruct n.
Qed.

Lemma white_append a b : white a -> white b -> white (a ++ b).
Proof. unfold white. intros Ha Hb. now rewrite all_chars_append, Ha, Hb. Qed.

(** The tokens of a line are what [sscanf] finds in it once the commas are
    blanks. *)
Lemma spaced_tail_scanned ps tail :
  tokens_ok ps = true -> all_chars separator_char tail = true ->
  let s := replaceCommas (spaced ps ++ tail) in
  (forall n, scan_tokens n s = firstn n (map fst ps)) /\
  colon_free s /\ (ps = [] -> white s) /\
  (ps = [] \/ stops s = false).
Proof.
  intros H Ht. cbv zeta.
  pose proof (replaceCommas_separator tail Ht) as Wt.
  induction ps as [| [t sep] rest IH].
  - cbn [spaced append map]. split.
    { intros n. rewrite scan_tokens_all_white by exact Wt. now destruct n. }
    split; [now apply white_no_colon |]. split; [now intros _ | now left].
  - apply tokens_ok_cons in H. destruct H as (T & S & L & R).
    destruct (token_ok_clean t T) as (A & _ & _).
    destruct (atom_token t A) as [Tk Rt].
    destruct (blanks_clean sep S) as (Ss & _ & _).
    pose proof (replaceCommas_separator sep Ss) as Ws.
    destruct (IH R) as (I1 & I2 & I3 & I4). clear IH.
    cbn [spaced map]. rewrite !append_assoc.
    rewrite (replaceCommas_append t), (replaceCommas_append sep), Rt.
    set (rest' := replaceCommas (spaced rest ++ tail)) in *.
    assert (St : stops (replaceCommas sep ++ rest') = true).
    { destruct L as [L | L].
      - destruct sep as [| c sep]; [contradiction |].
        cbn [replaceCommas append stops]. unfold white in Ws.
        cbn [replaceCommas all_chars] in Ws.
        now apply andb_true_iff in Ws.
      - apply white_stops; [exact Ws |]. specialize (I3 L). unfold white in I3.
        destruct rest' as [| c r]; [reflexivity |]. cbn [all_chars] in I3.
        cbn [stops]. now apply andb_true_iff in I3. }
    split.
    { intros n. destruct n as [| n]; [reflexivity |].
      rewrite scan_tokens_token by exact Tk.
      rewrite read_token_stops by exact St. cbn [fst snd firstn].
      rewrite append_nil_r. f_equal.
      rewrite scan_tokens_white by exact Ws. apply I1. }
    split.
    { apply colon_free_append; [apply Tk |].
      apply colon_free_append; [now apply white_no_colon | exact I2]. }
    split; [discriminate |]. right.
    destruct Tk as (Hne & Hs & _). destruct t as [| c t]; [contradiction |].
    apply solid_cons in Hs. destruct Hs as [Hc _]. cbn [append stops].
    exact Hc.
Qed.

Lemma well_formed_parts l :
  well_formed l = true ->
  all_chars blank_char (sl_indent l) = true /\
  all_chars blank_char (sl_gap l) = true /\
  (forall name, sl_label l = Some name -> token_ok name = true) /\
  tokens_ok (sl_tokens l) = true /\
  (List.length (sl_tokens l) <= 4)%nat /\
  (forall c, sl_comment l = Some c -> no_newline c) /\
  (String.length (text_of l) <= 255)%nat.
Proof.
  unfold well_formed. intros H.
  repeat (apply andb_true_iff in H; let H' := fresh "P" in destruct H as [H H']).
  split; [exact H |]. split; [assumption |].
  split; [intros name E; rewrite E in *; assumption |].
  split; [assumption |].
  split; [now apply Nat.leb_le |].
  split; [intros c E; rewrite E in *; assumption |].
  now apply Nat.leb_le.
Qed.

Lemma label_text_clean l :
  well_formed l = true ->
  hash_free (label_text l) /\ no_newline (label_text l).
Proof.
  intros H. destruct (well_formed_parts l H) as (_ & _ & Hl & _).
  unfold label_text. destruct (sl_label l) as [name |]; [| now split].
  destruct (token_ok_clean name (Hl name eq_refl)) as (_ & Nh & Nn). split.
  - apply hash_free_append; [exact Nh | reflexivity].
  - apply no_newline_append; [exact Nn | reflexivity].
Qed.

(** The two passes see the line without its comment, with blanks for its
    commas. *)
Lemma normalise_text l :
  well_formed l = true -> normalise (text_of l) = replaceCommas (seen l).
Proof.
  intros H. destruct (well_formed_parts l H) as (Hi & Hg & _ & Ht & _).
  destruct (blanks_clean _ Hi) as (_ & Ih & _).
  destruct (blanks_clean _ Hg) as (_ & Gh & _).
  destruct (spaced_clean _ Ht) as [Sh _].
  destruct (label_text_clean l H) as [Lh _].
  assert (C : hash_free (sl_indent l ++ label_text l ++ sl_gap l ++
                         spaced (sl_tokens l)))
    by (repeat apply hash_free_append; assumption).
  unfold normalise, text_of, line_body, seen, comment_text. f_equal.
  destruct (sl_comment l) as [c |].
  - rewrite !append_nil_r.
    replace (sl_indent l ++ label_text l ++ sl_gap l ++ spaced (sl_tokens l) ++
             "#" ++ c)%string
      with ((sl_indent l ++ label_text l ++ sl_gap l ++
             spaced (sl_tokens l)) ++ "#" ++ c)%string
      by (now rewrite !append_assoc).
    rewrite append_assoc. cbn [append].
    change (String "#" (c ++ nl)) with ("#" ++ (c ++ nl))%string.
    now apply removeComment_cut.
  - rewrite !append_nil_r.
    replace (sl_indent l ++ label_text l ++ sl_gap l ++ spaced (sl_tokens l) ++
             nl)%string
      with ((sl_indent l ++ label_text l ++ sl_gap l ++
             spaced (sl_tokens l)) ++ nl)%string
      by (now rewrite !append_assoc).
    rewrite removeComment_none; [reflexivity |].
    apply hash_free_append; [exact C | reflexivity].
Qed.

Lemma colon_not_ret name : (name ++ ":" =s? "ret") = false.
Proof.
  destruct (String.eqb_spec (name ++ ":") "ret") as [E | _]; [| reflexivity].
  destruct name as [| a [| b [| c [| d n]]]]; cbn [append] in E;
    congruence.
Qed.

(** The text after the label, as the two passes scan it. *)
Lemma after_label_scanned l :
  well_formed l = true ->
  let s := replaceCommas (sl_gap l ++ spaced (sl_tokens l) ++
                          match sl_comment l with
                          | Some _ => EmptyString
                          | None => nl
                          end) in
  scan_tokens 4 s = map fst (sl_tokens l) /\ colon_free s /\
  (s = EmptyString <->
   sl_gap l = EmptyString /\ sl_tokens l = [] /\ sl_comment l <> None).
Proof.
  intros H. cbv zeta.
  destruct (well_formed_parts l H) as (_ & Hg & _ & Ht & H4 & _).
  destruct (blanks_clean _ Hg) as (Gs & _ & _).
  pose proof (replaceCommas_separator _ Gs) as Wg.
  set (tail := match sl_comment l with Some _ => EmptyString | None => nl end).
  assert (Tl : all_chars separator_char tail = true)
    by (unfold tail; now destruct (sl_comment l)).
  destruct (spaced_tail_scanned (sl_tokens l) tail Ht Tl) as (S & C & W & N).
  cbv zeta in *. rewrite replaceCommas_append.
  split.
  { rewrite scan_tokens_white by exact Wg. rewrite S.
    apply firstn_all2. now rewrite length_map. }
  split.
  { apply colon_free_append; [now apply white_no_colon | exact C]. }
  split.
  - intros E. destruct (sl_gap l) as [| g gs] eqn:Eg; [| discriminate].
    cbn [replaceCommas append] in E. split; [reflexivity |].
    destruct N as [N | N]; [| rewrite E in N; discriminate].
    split; [exact N |]. rewrite N in E. cbn [spaced append] in E.
    unfold tail in E. destruct (sl_comment l); [discriminate | discriminate].
  - intros (Eg & Et & Ec). rewrite Eg, Et. unfold tail.
    destruct (sl_comment l); [reflexivity | contradiction].
Qed.

Lemma seen_split l :
  well_formed l = true ->
  let after := replaceCommas (sl_gap l ++ spaced (sl_tokens l) ++
                              match sl_comment l with
                              | Some _ => EmptyString
                              | None => nl
                              end) in
  let indent := replaceCommas (sl_indent l) in
  white indent /\
  match sl_label l with
  | Some name =>
      replaceCommas (seen l) = (indent ++ name ++ ":" ++ after)%string /\
      splitString (replaceCommas (seen l)) = ((indent ++ name)%string, after) /\
      colon_free (indent ++ name) /\ sscanf_s (indent ++ name) "" = name /\
      name <> EmptyString /\ solid name
  | None =>
      replaceCommas (seen l) = (indent ++ after)%string /\
      splitString (replaceCommas (seen l)) =
        (replaceCommas (seen l), EmptyString)
  end.
Proof.
  intros H. cbv zeta.
  destruct (well_formed_parts l H) as (Hi & _ & Hl & _).
  destruct (blanks_clean _ Hi) as (Is & _ & _).
  pose proof (replaceCommas_separator _ Is) as Wi.
  destruct (after_label_scanned l H) as (_ & C & _). cbv zeta in C.
  split; [exact Wi |].
  unfold seen, label_text. destruct (sl_label l) as [name |].
  - destruct (token_ok_clean name (Hl name eq_refl)) as (A & _ & _).
    destruct (atom_token name A) as [(Hne & Hs & Hc) Rn].
    assert (F : colon_free (replaceCommas (sl_indent l) ++ name))
      by (apply colon_free_append; [now apply white_no_colon | exact Hc]).
    assert (E : replaceCommas
                  (sl_indent l ++ (name ++ ":") ++ sl_gap l ++
                   spaced (sl_tokens l) ++
                   match sl_comment l with Some _ => "" | None => nl end) =
                (replaceCommas (sl_indent l) ++ name ++ ":" ++
                 replaceCommas (sl_gap l ++ spaced (sl_tokens l) ++
                   match sl_comment l with Some _ => "" | None => nl end))
                %string).
    { rewrite replaceCommas_append, append_assoc.
      rewrite (replaceCommas_append name), Rn. cbn [append replaceCommas].
      reflexivity. }
    split; [exact E |]. rewrite E. split.
    { unfold splitString. rewrite <- append_assoc. cbn [append].
      rewrite (strchr_found _ ":" _ F).
      destruct (replaceCommas _); reflexivity. }
    split; [exact F |]. split; [| now split].
    unfold sscanf_s. rewrite scan_tokens_white by exact Wi.
    fold (sscanf_s name ""). now apply sscanf_s_solid.
  - cbn [append].
    assert (E : replaceCommas
                  (sl_indent l ++ sl_gap l ++ spaced (sl_tokens l) ++
                   match sl_comment l with Some _ => "" | None => nl end) =
                (replaceCommas (sl_indent l) ++
                 replaceCommas (sl_gap l ++ spaced (sl_tokens l) ++
                   match sl_comment l with Some _ => "" | None => nl end))
                %string)
      by apply replaceCommas_append.
    split; [exact E |]. rewrite E. unfold splitString.
    rewrite strchr_no_colon; [reflexivity |].
    apply colon_free_append; [now apply white_no_colon | exact C].
Qed.

(** The code counts the line exactly when it holds an instruction. *)
Lemma recognised_text l :
  well_formed l = true ->
  recognised_line (normalise (text_of l)) = holds_instruction l.
Proof.
  intros H. rewrite normalise_text by exact H.
  destruct (after_label_scanned l H) as (S & C & E). cbv zeta in S, C, E.
  destruct (seen_split l H) as (Wi & P). cbv zeta in Wi, P.
  unfold recognised_line, body, holds_instruction.
  destruct (sl_label l) as [name |].
  - destruct P as (Es & Sp & _ & _ & Hne & Hs). rewrite Sp. cbn [snd].
    destruct (replaceCommas (sl_gap l ++ _)) as [| c r] eqn:A.
    + destruct (proj1 E eq_refl) as (_ & Et & _). rewrite Et. cbn [map].
      rewrite Es. rewrite scan_tokens_white by exact Wi.
      rewrite <- (append_nil_r (name ++ ":" ++ "")).
      rewrite scan_tokens_solid.
      * cbn [read_token fst snd scan_tokens skip_ws List.length].
        rewrite !append_nil_r. unfold recognised, mem, mnemonics.
        cbn [Z.of_nat Pos.of_succ_nat Z.eqb Pos.eqb existsb].
        now rewrite colon_not_ret.
      * destruct name; discriminate.
      * apply solid_append; [exact Hs | reflexivity].
    + now rewrite S.
  - destruct P as (Es & Sp). rewrite Sp. cbn [snd].
    rewrite Es. rewrite scan_tokens_white by exact Wi. now rewrite S.
Qed.

(** The label pass one enters for the line. *)
Lemma line_label_text uninit l :
  well_formed l = true -> line_label uninit (text_of l) = entered l.
Proof.
  intros H. unfold line_label. rewrite normalise_text by exact H.
  destruct (after_label_scanned l H) as (_ & _ & E). cbv zeta in E.
  destruct (seen_split l H) as (Wi & P). cbv zeta in Wi, P.
  unfold entered. destruct (sl_label l) as [name |].
  - destruct P as (_ & Sp & F & _ & Hne & Hs). rewrite Sp.
    destruct (replaceCommas (sl_gap l ++ _)) as [| c r] eqn:A.
    + destruct (proj1 E eq_refl) as (-> & -> & Ec).
      destruct (sl_comment l); [reflexivity | contradiction].
    + rewrite remove_colon_none by exact F.
      assert (Sc : sscanf_s (replaceCommas (sl_indent l) ++ name) uninit =
                   name).
      { unfold sscanf_s. rewrite scan_tokens_white by exact Wi.
        fold (sscanf_s name uninit). now apply sscanf_s_solid. }
      rewrite Sc.
      destruct (sl_gap l) as [| g gs]; [| reflexivity].
      destruct (sl_tokens l) as [| p ps]; [| reflexivity].
      destruct (sl_comment l); [| reflexivity].
      assert (X : String c r = EmptyString)
        by (apply E; repeat split; discriminate).
      discriminate X.
  - destruct P as (_ & Sp). rewrite Sp.
    destruct (sl_gap l), (sl_tokens l), (sl_comment l); reflexivity.
Qed.

Lemma line_body_clean l :
  well_formed l = true ->
  no_newline (line_body l) /\ (String.length (line_body l) <= 254)%nat.
Proof.
  intros H.
  destruct (well_formed_parts l H) as (Hi & Hg & _ & Ht & _ & Hc & Hlen).
  destruct (blanks_clean _ Hi) as (_ & _ & In').
  destruct (blanks_clean _ Hg) as (_ & _ & Gn).
  destruct (spaced_clean _ Ht) as [_ Sn].
  destruct (label_text_clean l H) as [_ Ln].
  split.
  - unfold line_body, comment_text.
    repeat apply no_newline_append; try assumption.
    destruct (sl_comment l) as [c |]; [| reflexivity].
    apply no_newline_append; [reflexivity | now apply Hc].
  - unfold text_of in Hlen. rewrite length_append in Hlen.
    cbn [String.length nl] in Hlen. lia.
Qed.

(** The lines that [main] reads from the file of a program. *)
Lemma file_lines_program ls :
  forallb well_formed ls = true ->
  file_lines (program_text ls) = map text_of ls.
Proof.
  intros H. unfold file_lines, program_text.
  rewrite <- (append_nil_r (unlines (map line_body ls))) at 2.
  rewrite read_lines_unlines.
  - rewrite app_nil_r, map_map. reflexivity.
  - apply Forall_map. apply Forall_forall. intros l Hl.
    rewrite forallb_forall in H. apply line_body_clean. now apply H.
  - reflexivity.
  - cbn. lia.
  - rewrite append_nil_r. apply Nat.le_refl.
Qed.

Lemma count_recognised_program ls :
  forallb well_formed ls = true ->
  count_recognised (map text_of ls) = instructions ls.
Proof.
  unfold instructions. induction ls as [| l ls IH]; [reflexivity |].
  cbn [forallb map filter]. intros H. apply andb_true_iff in H.
  destruct H as [Hl Hls]. rewrite count_recognised_cons, IH by exact Hls.
  rewrite recognised_text by exact Hl.
  destruct (holds_instruction l); cbn [List.length]; lia.
Qed.

Lemma labels_program uninit ls :
  forallb well_formed ls = true ->
  flat_map (line_label uninit) (map text_of ls) = flat_map entered ls.
Proof.
  induction ls as [| l ls IH]; [reflexivity |].
  cbn [forallb map flat_map]. intros H. apply andb_true_iff in H.
  destruct H as [Hl Hls]. now rewrite IH, line_label_text.
Qed.
(** ** Immediates written as decimal numerals *)






(** ** The words of the formats, from the four fields *)










(** Pass two on a line of the input format. *)
Lemma pass_two_text uninit isHex isBin st l f :
  isHex || isBin = true -> well_formed l = true ->
  let r := assemble_instruction uninit st (normalise (text_of l)) in
  pass_two uninit isHex isBin [text_of l] st f =
    (snd r, write_word isHex isBin (fst r) f) /\
  if holds_instruction l
  then snd r = incr_count2 st /\
       count_lines (write_word isHex isBin (fst r) f) = count_lines f + 1
  else r = (0, st) /\ write_word isHex isBin (fst r) f = f.
Proof.
  intros Hflag Hwf. cbv zeta. split.
  - rewrite pass_two_cons. reflexivity.
  - rewrite <- (recognised_text l Hwf).
    exact (pass_two_line uninit isHex isBin st (text_of l) f Hflag).
Qed.
(** ** The output of pass two *)

Lemma pass_two_size uninit isHex isBin lines st f :
  isHex || isBin = true ->
  Z.of_nat (String.length (snd (pass_two uninit isHex isBin lines st f))) =
  Z.of_nat (String.length f) +
  (if isHex then 11 else 33) * count_recognised lines.
Proof.
  intros Hflag. revert st f.
  induction lines as [| line lines IH]; intros st f.
  - cbn [pass_two snd]. unfold count_recognised. cbn [filter List.length].
    lia.
  - rewrite pass_two_cons. cbv zeta. rewrite IH, count_recognised_cons.
    pose proof (assemble_instruction_recognised uninit st (normalise line))
      as H.
    destruct (recognised_line (normalise line)).
    + destruct H as (_ & Hodd & Hw).
      rewrite write_word_length by assumption.
      destruct isHex; lia.
    + rewrite H. cbn [fst]. rewrite write_word_zero. lia.
Qed.

Lemma forallb_firstn {A} (p : A -> bool) k l :
  forallb p l = true -> forallb p (firstn k l) = true.
Proof.
  revert k. induction l as [| a l IH]; intros [| k] H; try reflexivity.
  cbn [firstn forallb] in *. apply andb_true_iff in H. destruct H as [Ha Hl].
  now rewrite Ha, IH.
Qed.

(** ** A run within the limits of the source *)

Lemma splitString_colon_free str : colon_free (fst (splitString str)).
Proof.
  unfold splitString.
  destruct (strchr str ":") as [[b a] |] eqn:E; cbn [fst].
  - destruct (strchr_parts _ _ _ _ E) as (_ & _ & F). now destruct a.
  - unfold colon_free.
    induction str as [| d s IH]; [reflexivity |]. cbn [strchr] in E.
    cbn [all_chars]. destruct (Ascii.eqb d ":"); [discriminate |].
    destruct (strchr s ":") as [[b a] |]; [discriminate |]. now apply IH.
Qed.

Lemma skip_ws_length s : (String.length (skip_ws s) <= String.length s)%nat.
Proof.
  induction s as [| c s IH]; cbn [skip_ws String.length]; [lia |].
  destruct (isspace c); cbn [String.length]; lia.
Qed.

Lemma read_token_length s :
  (String.length (fst (read_token s)) <= String.length s)%nat.
Proof.
  induction s as [| c s IH]; cbn [read_token]; [cbn; lia |].
  destruct (isspace c); [cbn; lia |].
  destruct (read_token s) as [t r]. cbn [fst String.length] in *. lia.
Qed.

Lemma scan_tokens_first_length n s t rest :
  scan_tokens n s = t :: rest -> (String.length t <= String.length s)%nat.
Proof.
  destruct n as [| n]; cbn [scan_tokens]; [discriminate |].
  pose proof (skip_ws_length s) as L.
  destruct (skip_ws s) as [| c r]; [discriminate |].
  pose proof (read_token_length (String c r)) as R.
  destruct (read_token (String c r)) as [t' r']. cbn [fst] in R.
  intros [= <- _]. lia.
Qed.

Lemma skip_ws_chars p s :
  all_chars p s = true -> all_chars p (skip_ws s) = true.
Proof.
  induction s as [| c s IH]; cbn [skip_ws]; [reflexivity |].
  destruct (isspace c); [| tauto].
  cbn [all_chars]. intros H. apply andb_true_iff in H. now apply IH.
Qed.

Lemma read_token_chars p s :
  all_chars p s = true -> all_chars p (fst (read_token s)) = true.
Proof.
  induction s as [| c s IH]; cbn [read_token]; [reflexivity |].
  destruct (isspace c); [reflexivity |].
  cbn [all_chars]. intros H. apply andb_true_iff in H. destruct H as [Hc Hs].
  destruct (read_token s) as [t r]. cbn [fst all_chars] in *.
  now rewrite Hc, IH.
Qed.

Lemma scan_tokens_first_chars p n s t rest :
  all_chars p s = true -> scan_tokens n s = t :: rest ->
  all_chars p t = true.
Proof.
  intros H. destruct n as [| n]; cbn [scan_tokens]; [discriminate |].
  pose proof (skip_ws_chars p s H) as L.
  destruct (skip_ws s) as [| c r]; [discriminate |].
  pose proof (read_token_chars p (String c r) L) as R.
  destruct (read_token (String c r)) as [t' r']. cbn [fst] in R.
  now intros [= <- _].
Qed.

Lemma splitString_chars p str :
  all_chars p str = true -> all_chars p (fst (splitString str)) = true.
Proof.
  unfold splitString. intros H.
  destruct (strchr str ":") as [[b a] |] eqn:E; cbn [fst]; [| exact H].
  destruct (strchr_parts _ _ _ _ E) as (-> & _ & _).
  rewrite all_chars_append in H. apply andb_true_iff in H.
  now destruct a.
Qed.

(** The name pass one enters for a line within the limits is a C string
    shorter than the 30 bytes of [label]. *)
Lemma line_label_fits uninit line name :
  line_within_limits (normalise line) = true ->
  line_label uninit line = [name] ->
  c_string name = true /\ fits 256 name = true.
Proof.
  unfold line_within_limits, within_buffers, labelled_line, label_scans,
    line_label.
  pose proof (splitString_colon_free (normalise line)) as F.
  pose proof (splitString_chars (fun c => negb (Ascii.eqb c Ascii.zero))
                (normalise line)) as Z.
  destruct (splitString (normalise line)) as [lbl after]. cbn [fst snd] in *.
  destruct after as [| c r]; [discriminate |]. cbn [negb orb].
  rewrite remove_colon_none by exact F.
  intros H [= <-]. apply andb_true_iff in H. destruct H as [H S].
  repeat (apply andb_true_iff in H; destruct H as [H ?]).
  unfold sscanf_s.
  destruct (scan_tokens 1 lbl) as [| t rest] eqn:T; [discriminate |].
  split.
  - apply (scan_tokens_first_chars _ _ _ _ _ (Z H) T).
  - apply scan_tokens_first_length in T.
    unfold fits in *.
    match goal with X : (String.length lbl <? 30)%nat = true |- _ =>
      apply Nat.ltb_lt in X end.
    apply Nat.ltb_lt. lia.
Qed.

Lemma line_label_cases uninit line :
  line_label uninit line =
  if labelled_line (normalise line)
  then [sscanf_s (remove_colon (fst (splitString (normalise line)))) uninit]
  else [].
Proof.
  unfold line_label, labelled_line.
  now destruct (splitString (normalise line)) as [lbl [| c r]].
Qed.

Lemma pass_one_within uninit lines st :
  forallb line_within_limits (map normalise lines) = true ->
  0 <= instruction_count st ->
  instruction_count st + Z.of_nat (List.length lines) < INT_MAX ->
  0 <= instruction_count2 st < INT_MAX ->
  labelCount st +
    Z.of_nat (List.length (filter labelled_line (map normalise lines))) <=
    MAX_INSTRUCTIONS ->
  forallb entry_ok (labelTable st) = true ->
  pass_one_defined uninit lines st = true /\
  state_ok (pass_one uninit lines st) = true /\
  instruction_count2 (pass_one uninit lines st) = instruction_count2 st.
Proof.
  revert st. induction lines as [| line lines IH]; intros st Hl H0 H1 H2 H3 H4.
  - cbn [pass_one_defined pass_one]. split; [reflexivity |].
    split; [| reflexivity].
    cbn [List.length map filter] in *. unfold state_ok. rewrite H4.
    repeat (apply andb_true_iff; split); try reflexivity;
      first [apply Z.leb_le | apply Z.ltb_lt]; lia.
  - cbn [pass_one_defined pass_one map forallb List.length filter] in *.
    cbv zeta. fold (normalise line).
    apply andb_true_iff in Hl. destruct Hl as [Hline Hrest].
    set (st' := first_pass uninit st (normalise line)).
    destruct (first_pass_counters uninit st (normalise line)) as [C1 C2].
    pose proof (first_pass_table uninit st line) as T.
    fold st' in C1, C2, T.
    pose proof (line_label_fits uninit line) as Fit.
    rewrite line_label_cases in T, Fit.
    assert (Hlim := Hline).
    unfold line_within_limits in Hline.
    apply andb_true_iff in Hline. destruct Hline as [Hbuf Hscan].
    assert (Hst : state_ok st = true).
    { unfold state_ok. rewrite H4.
      repeat (apply andb_true_iff; split); try reflexivity;
        first [apply Z.leb_le | apply Z.ltb_lt]; lia. }
    assert (Hdef : first_pass_defined st (normalise line) = true).
    { unfold first_pass_defined. rewrite Hst, Hbuf. cbn [andb].
      destruct (labelled_line (normalise line)); [| reflexivity].
      cbn [negb orb] in *. rewrite Hscan. cbn [andb List.length] in *.
      apply Z.ltb_lt. lia. }
    rewrite Hdef. cbn [andb].
    assert (I : pass_one_defined uninit lines st' = true /\
                state_ok (pass_one uninit lines st') = true /\
                instruction_count2 (pass_one uninit lines st') =
                instruction_count2 st').
    { apply IH; try exact Hrest.
      - rewrite C1. destruct (recognised_line _); lia.
      - rewrite C1. destruct (recognised_line _); lia.
      - rewrite C2. exact H2.
      - unfold labelCount in *. rewrite T, length_app, length_map.
        destruct (labelled_line (normalise line));
          cbn [List.length] in *; lia.
      - rewrite T, forallb_app, H4. cbn [andb].
        destruct (labelled_line (normalise line)); [| reflexivity].
        cbn [map forallb]. unfold entry_ok. cbn [label address].
        destruct (Fit _ Hlim eq_refl) as [F1 F2]. rewrite F1, F2.
        cbn [andb]. rewrite andb_true_r. apply andb_true_iff.
        split; [apply Z.leb_le | apply Z.leb_le]; lia. }
    destruct I as (I1 & I2 & I3). rewrite I3, C2. now repeat split.
Qed.

Lemma pass_two_within uninit lines st :
  forallb within_buffers (map normalise lines) = true ->
  0 <= instruction_count2 st ->
  instruction_count2 st + Z.of_nat (List.length lines) < INT_MAX ->
  0 <= instruction_count st < INT_MAX ->
  labelCount st <= MAX_INSTRUCTIONS ->
  forallb entry_ok (labelTable st) = true ->
  pass_two_defined uninit lines st = true.
Proof.
  revert st. induction lines as [| line lines IH]; intros st Hl H0 H1 H2 H3 H4;
    [reflexivity |].
  cbn [pass_two_defined map forallb List.length] in *.
  apply andb_true_iff in Hl. destruct Hl as [Hbuf Hrest].
  assert (Hst : state_ok st = true).
  { unfold state_ok. rewrite H4.
    repeat (apply andb_true_iff; split); try reflexivity;
      first [apply Z.leb_le | apply Z.ltb_lt]; lia. }
  unfold assemble_instruction_defined. rewrite Hst, Hbuf. cbn [andb].
  pose proof (assemble_instruction_recognised uninit st (normalise line)) as R.
  destruct (recognised_line (normalise line)).
  - destruct R as (-> & _). apply IH; try assumption;
      cbn [incr_count2 instruction_count instruction_count2 labelTable];
      try lia.
  - rewrite R. cbn [snd]. apply IH; try assumption; lia.
Qed.

Lemma state_ok_parts st :
  state_ok st = true ->
  0 <= instruction_count st < INT_MAX /\
  0 <= instruction_count2 st < INT_MAX /\
  labelCount st <= MAX_INSTRUCTIONS /\
  forallb entry_ok (labelTable st) = true.
Proof.
  unfold state_ok. intros H.
  repeat (apply andb_true_iff in H; destruct H as [H ?]).
  repeat match goal with
         | X : (_ <=? _) = true |- _ => apply Z.leb_le in X
         | X : (_ <? _) = true |- _ => apply Z.ltb_lt in X
         end.
  repeat split; assumption.
Qed.

Lemma forallb_weaken {A} (p q : A -> bool) l :
  (forall a, p a = true -> q a = true) ->
  forallb p l = true -> forallb q l = true.
Proof.
  intros I. induction l as [| a l IH]; [reflexivity |]. cbn [forallb].
  intros H. apply andb_true_iff in H. destruct H as [Ha Hl].
  now rewrite (I a Ha), IH.
Qed.
(** * The claims *)

(** C1.  The branch back to [loop] has the byte offset -4, whose bit 12 is
    set; the word the program writes for [bne] is 0x7E209EE3, with
    [inst[31]] clear, and not 0xFE209EE3.  Every branch places bits 10 to 5
    of the offset [(k - j) * 4] in [inst[30:25]], bits 4 to 1 in
    [inst[11:8]] and bit 11 in [inst[7]]; bit 12 reaches [inst[31]] in [blt]
    only, which shifts by 19: the other seven shift by 20 and leave
    [inst[31]] at 0. *)
Theorem backward_branch_word :
  run "" ["assembler"; "in.s"; "out.txt"; "-h"] loop_program =
    mkOutcome 0 EmptyString
      (Some ("0x00108093" ++ nl ++ "0x7E209EE3" ++ nl)%string) /\
  run "" ["assembler"; "in.s"; "out.txt"; "-h"] loop_program_blt =
    mkOutcome 0 EmptyString
      (Some ("0x00108093" ++ nl ++ "0xFE20CEE3" ++ nl)%string) /\
  Forall (fun opcode => forall uninit st rd rs1 lbl,
            let w := fst (assemble_fields uninit st 4 opcode rd rs1 lbl) in
            let off := branch_offset st lbl in
            Forall (fun i => Z.testbit w (i + 20) = Z.testbit off i)
                   [5; 6; 7; 8; 9; 10] /\
            Forall (fun i => Z.testbit w (i + 7) = Z.testbit off i)
                   [1; 2; 3; 4] /\
            Z.testbit w 7 = Z.testbit off 11 /\
            Z.testbit w 31 =
              (if opcode =s? "blt" then Z.testbit off 12 else false))
         b_type.
Proof.
  split; [vm_compute; reflexivity |].
  split; [vm_compute; reflexivity |].
  apply Forall_forall. intros opcode H uninit st rd rs1 lbl.
  now apply branch_scatter.
Qed.

(** C2.  A program is a list of lines of the input format: blanks, an
    optional label, the tokens of an optional instruction, an optional
    comment.  A line holds a recognised instruction when its first token is
    a supported mnemonic for the number of its tokens; a blank line, a line
    with a comment only and a line with a label only have no token and hold
    none.  For a program within the limits of the source whose lines hold
    [N] recognised instructions, the counter of pass one ends at [N], the
    counter of pass two ends at [N], and the run in which the files open,
    which exits with code 0, leaves an output file of exactly [N] lines;
    pass two writes nothing for a line without tokens. *)
Theorem passes_count_and_emit uninit a0 a1 a2 flag ls :
  flag = "-h" \/ flag = "-b" ->
  forallb well_formed ls = true ->
  input_within_limits (program_text ls) = true ->
  let input := program_text ls in
  let N := instructions ls in
  let lines := file_lines input in
  let st1 := pass_one uninit lines initial_state in
  let r := pass_two uninit (flag =s? "-h") (flag =s? "-b") lines st1
                    EmptyString in
  lines = map text_of ls /\
  instruction_count st1 = N /\
  instruction_count2 (fst r) = N /\
  instruction_count (fst r) = instruction_count2 (fst r) /\
  run uninit [a0; a1; a2; flag] input =
    mkOutcome 0 EmptyString (Some (snd r)) /\
  count_lines (snd r) = N /\
  (forall l st f,
     well_formed l = true -> sl_tokens l = [] ->
     assemble_instruction_defined st (normalise (text_of l)) = true ->
     holds_instruction l = false /\
     pass_two uninit (flag =s? "-h") (flag =s? "-b") [text_of l] st f =
       (st, f)).
Proof.
  intros Hflag Hwf _. cbv zeta.
  assert (Hb : (flag =s? "-h") || (flag =s? "-b") = true)
    by (destruct Hflag as [-> | ->]; reflexivity).
  split; [now apply file_lines_program |].
  rewrite main_runs by exact Hflag.
  rewrite (file_lines_program ls Hwf).
  destruct (pass_one_counters uninit (map text_of ls) initial_state)
    as [P1 P2].
  pose proof (pass_two_counters uninit _ _ (map text_of ls)
                (pass_one uninit (map text_of ls) initial_state)
                EmptyString Hb) as T.
  cbv zeta in T. destruct T as (T1 & T2 & T3).
  rewrite T1, T2, T3, P1, P2, (count_recognised_program ls Hwf).
  cbn [initial_state instruction_count instruction_count2 count_lines].
  do 5 (split; [first [lia | reflexivity] |]).
  intros l st f Hl Ht _.
  assert (Hn : holds_instruction l = false)
    by (unfold holds_instruction; now rewrite Ht).
  split; [exact Hn |].
  destruct (pass_two_text uninit _ _ st l f Hb Hl) as [E L].
  cbv zeta in E, L. rewrite E. rewrite Hn in L.
  destruct L as [Hr Hw]. rewrite Hw, Hr. reflexivity.
Qed.

Lemma passes_count_and_emit_witness :
  let ls := annotated_loop in
  let input := program_text ls in
  let lines := file_lines input in
  let st1 := pass_one "" lines initial_state in
  let r := pass_two "" true false lines st1 EmptyString in
  (input =
     ("loop: addi x1, x1, 1" ++ nl ++ "# only a comment" ++ nl ++ nl ++
      "      bne  x1, x2, loop" ++ nl ++ "end:" ++ nl)%string /\
   instructions ls = 2) /\
  lines = map text_of ls /\
  instruction_count st1 = 2 /\
  instruction_count2 (fst r) = 2 /\
  instruction_count (fst r) = instruction_count2 (fst r) /\
  run "" ["assembler"; "in.s"; "out.txt"; "-h"] input =
    mkOutcome 0 EmptyString (Some (snd r)) /\
  count_lines (snd r) = 2 /\
  (forall l st f,
     well_formed l = true -> sl_tokens l = [] ->
     assemble_instruction_defined st (normalise (text_of l)) = true ->
     holds_instruction l = false /\
     pass_two "" true false [text_of l] st f = (st, f)).
Proof.
  split; [split; reflexivity |].
  apply (passes_count_and_emit "" "assembler" "in.s" "out.txt" "-h"
           annotated_loop).
  - now left.
  - reflexivity.
  - vm_compute. reflexivity.
Defined.

(** C3.  Every pseudo-instruction is encoded as its base expansion: on
    lines that fit the buffers of the encoder, [li rd imm] gives the word
    (and the state) of [addi rd x0 imm], [mv rd rs] those of [addi rd rs 0],
    [j label] those of [jal x0 label], [jr rs] those of [jalr x0 rs 0] and
    [ret] those of [jalr x0 ra 0]; and [li t0, 42] is written as
    0x02A00293. *)
Theorem pseudo_instructions uninit st rd rs imm lbl :
  token rd -> token rs -> token imm -> token lbl ->
  state_ok st = true ->
  forallb within_buffers
    ["li " ++ rd ++ " " ++ imm; "addi " ++ rd ++ " x0 " ++ imm;
     "mv " ++ rd ++ " " ++ rs; "addi " ++ rd ++ " " ++ rs ++ " 0";
     "j " ++ lbl; "jal x0 " ++ lbl;
     "jr " ++ rs; "jalr x0 " ++ rs ++ " 0";
     "ret"; "jalr x0 ra 0"; "li t0 42"]%string = true ->
  assemble_instruction uninit st ("li " ++ rd ++ " " ++ imm) =
    assemble_instruction uninit st ("addi " ++ rd ++ " x0 " ++ imm) /\
  assemble_instruction uninit st ("mv " ++ rd ++ " " ++ rs) =
    assemble_instruction uninit st ("addi " ++ rd ++ " " ++ rs ++ " 0") /\
  assemble_instruction uninit st ("j " ++ lbl) =
    assemble_instruction uninit st ("jal x0 " ++ lbl) /\
  assemble_instruction uninit st ("jr " ++ rs) =
    assemble_instruction uninit st ("jalr x0 " ++ rs ++ " 0") /\
  assemble_instruction uninit st "ret" =
    assemble_instruction uninit st "jalr x0 ra 0" /\
  fst (assemble_instruction uninit st "li t0 42") = 0x02A00293 /\
  input_within_limits ("li t0, 42" ++ nl) = true /\
  run uninit ["assembler"; "in.s"; "out.txt"; "-h"] ("li t0, 42" ++ nl) =
    mkOutcome 0 EmptyString (Some ("0x02A00293" ++ nl)%string).
Proof.
  intros Hrd Hrs Himm Hlbl _ _.
  split.
  { change ("li " ++ rd ++ " " ++ imm)%string with (join ["li"; rd; imm]).
    change ("addi " ++ rd ++ " x0 " ++ imm)%string
      with (join ["addi"; rd; "x0"; imm]).
    rewrite !assemble_instruction_tokens by tokens.
    apply li_is_addi. }
  split.
  { change ("mv " ++ rd ++ " " ++ rs)%string with (join ["mv"; rd; rs]).
    change ("addi " ++ rd ++ " " ++ rs ++ " 0")%string
      with (join ["addi"; rd; rs; "0"]).
    rewrite !assemble_instruction_tokens by tokens.
    apply mv_is_addi. }
  split.
  { change ("j " ++ lbl)%string with (join ["j"; lbl]).
    change ("jal x0 " ++ lbl)%string with (join ["jal"; "x0"; lbl]).
    rewrite !assemble_instruction_tokens by tokens.
    apply j_is_jal. }
  split.
  { change ("jr " ++ rs)%string with (join ["jr"; rs]).
    change ("jalr x0 " ++ rs ++ " 0")%string
      with (join ["jalr"; "x0"; rs; "0"]).
    rewrite !assemble_instruction_tokens by tokens.
    apply jr_is_jalr. }
  split.
  { change "ret" with (join ["ret"]).
    change "jalr x0 ra 0" with (join ["jalr"; "x0"; "ra"; "0"]).
    rewrite !assemble_instruction_tokens by tokens.
    apply ret_is_jalr. }
  split.
  { change "li t0 42" with (join ["li"; "t0"; "42"]).
    rewrite assemble_instruction_tokens by tokens.
    reflexivity. }
  split; [vm_compute; reflexivity |].
  rewrite main_runs by now left. vm_compute. reflexivity.
Qed.

Lemma pseudo_instructions_witness :
  assemble_instruction "" initial_state "li t0 42" =
    assemble_instruction "" initial_state "addi t0 x0 42" /\
  assemble_instruction "" initial_state "mv t0 a1" =
    assemble_instruction "" initial_state "addi t0 a1 0" /\
  assemble_instruction "" initial_state "j loop" =
    assemble_instruction "" initial_state "jal x0 loop" /\
  assemble_instruction "" initial_state "jr a1" =
    assemble_instruction "" initial_state "jalr x0 a1 0" /\
  assemble_instruction "" initial_state "ret" =
    assemble_instruction "" initial_state "jalr x0 ra 0" /\
  fst (assemble_instruction "" initial_state "li t0 42") = 0x02A00293 /\
  input_within_limits ("li t0, 42" ++ nl) = true /\
  run "" ["assembler"; "in.s"; "out.txt"; "-h"] ("li t0, 42" ++ nl) =
    mkOutcome 0 EmptyString (Some ("0x02A00293" ++ nl)%string).
Proof.
  apply (pseudo_instructions "" initial_state "t0" "a1" "42" "loop");
    first [literal_token | reflexivity].
Defined.

(** C4 (as amended).  [get_register_number] maps the numeric names x0 to
    x31 to 0 to 31 and every ABI name to the index of its numeric
    counterpart, so a line written with an ABI name is encoded, in every
    register operand, to the same word as with the numeric name, when both
    lines fit the buffers of the encoder; and it returns -1 for every string
    that is none of these names, unless the string is an [x] followed by
    text in which [atoi] reads a number from 0 to 31. *)
Theorem register_names :
  Forall (fun i =>
            get_register_number (nth i numeric_names "") = Z.of_nat i /\
            get_register_number (nth i abi_names "") = Z.of_nat i)
         (seq 0 32) /\
  (forall abi num uninit st count opcode rd rs1 rs2 imm pos,
     In (abi, num) aliases ->
     token rd -> token rs1 -> token rs2 -> word imm ->
     state_ok st = true ->
     let same a b :=
       within_buffers a = true -> within_buffers b = true ->
       assemble_instruction uninit st a = assemble_instruction uninit st b in
     (In (Rd, pos) (register_fields count opcode) ->
      same (line_of count opcode abi rs1 rs2)
           (line_of count opcode num rs1 rs2)) /\
     (In (Rs1, pos) (register_fields count opcode) ->
      same (line_of count opcode rd abi rs2)
           (line_of count opcode rd num rs2)) /\
     (In (Rs2, pos) (register_fields count opcode) ->
      same (line_of count opcode rd rs1 abi)
           (line_of count opcode rd rs1 num)) /\
     (In (Mem, pos) (register_fields count opcode) ->
      same (line_of count opcode rd (imm ++ "(" ++ abi ++ ")") rs2)
           (line_of count opcode rd (imm ++ "(" ++ num ++ ")") rs2))) /\
  (forall s,
     is_register_name s = false -> x_numbered s = false ->
     get_register_number s = -1).
Proof.
  split.
  { cbn [seq].
    repeat (apply Forall_cons; [split; reflexivity |]). apply Forall_nil. }
  split; [| exact get_register_number_other].
  intros abi num uninit st count opcode rd rs1 rs2 imm pos Hal
         Hrd Hrs1 Hrs2 Wi _. cbv zeta.
  destruct (aliases_same_register abi num Hal) as (E & (Wa & Ta) & (Wn & Tn)).
  split.
  { intros H _ _. rewrite !(line_fields _ _ _ _ _ _ _ Rd pos) by assumption.
    now apply (same_register_rd _ _ _ _ pos). }
  split.
  { intros H _ _. rewrite !(line_fields _ _ _ _ _ _ _ Rs1 pos) by assumption.
    now apply (same_register_rs1 _ _ _ _ pos). }
  split.
  { intros H _ _. rewrite !(line_fields _ _ _ _ _ _ _ Rs2 pos) by assumption.
    now apply (same_register_rs2 _ _ _ _ pos). }
  intros H _ _.
  rewrite !(line_fields _ _ _ _ _ _ _ Mem pos)
    by first [assumption | apply mem_operand_token; assumption].
  destruct (mem_operand_parts uninit imm abi Wi Wa) as [Ra Ia].
  destruct (mem_operand_parts uninit imm num Wi Wn) as [Rn In'].
  apply (same_register_mem _ _ _ _ pos); [exact H | |].
  - now rewrite Ra, Rn.
  - now rewrite Ia, In'.
Qed.

Lemma register_names_witness :
  assemble_instruction "" initial_state "add a0 sp t6" =
    assemble_instruction "" initial_state "add x10 sp t6" /\
  assemble_instruction "" initial_state "add a0 a0 t6" =
    assemble_instruction "" initial_state "add a0 x10 t6" /\
  assemble_instruction "" initial_state "add a0 sp a0" =
    assemble_instruction "" initial_state "add a0 sp x10" /\
  assemble_instruction "" initial_state "lw a0 8(a0)" =
    assemble_instruction "" initial_state "lw a0 8(x10)" /\
  get_register_number "q7" = -1 /\
  get_register_number "x32" = -1.
Proof.
  destruct register_names as (_ & Same & Other).
  assert (Hal : In ("a0", "x10") aliases) by (vm_compute; tauto).
  assert (T : token "a0" /\ token "sp" /\ token "t6")
    by (repeat split; reflexivity || discriminate).
  destruct T as (Ta & Ts & Tt).
  split.
  { apply (Same "a0" "x10" "" initial_state 4 "add" "a0" "sp" "t6" "8" 7 Hal
             Ta Ts Tt eq_refl eq_refl); [vm_compute; tauto | reflexivity ..]. }
  split.
  { apply (Same "a0" "x10" "" initial_state 4 "add" "a0" "sp" "t6" "8" 15 Hal
             Ta Ts Tt eq_refl eq_refl); [vm_compute; tauto | reflexivity ..]. }
  split.
  { apply (Same "a0" "x10" "" initial_state 4 "add" "a0" "sp" "t6" "8" 20 Hal
             Ta Ts Tt eq_refl eq_refl); [vm_compute; tauto | reflexivity ..]. }
  split.
  { apply (Same "a0" "x10" "" initial_state 3 "lw" "a0" "sp" "t6" "8" 15 Hal
             Ta Ts Tt eq_refl eq_refl); [vm_compute; tauto | reflexivity ..]. }
  split; apply Other; reflexivity.
Defined.

(** C4, the claim as stated fails: [x05] and [xyz] are none of the register
    names, and [get_register_number] answers 5 and 0 for them. *)
Lemma unnamed_register_accepted :
  (is_register_name "x05" = false /\ get_register_number "x05" = 5) /\
  (is_register_name "xyz" = false /\ get_register_number "xyz" = 0) /\
  get_register_number "x05" <> -1 /\ get_register_number "xyz" <> -1.
Proof. repeat split; vm_compute; (reflexivity || discriminate). Qed.

(** C5 (as amended).  Defining a label again is not an error: [add_label]
    appends every definition to the table without looking at the names
    already there, so after pass one on a program within the limits of the
    source the table holds one entry for every line that enters a label,
    duplicates included; [find_label_address] goes on resolving the name to
    its first definition, and a run in which the files open, on input
    within these limits, reports nothing. *)
Theorem duplicate_label_appended uninit st lbl addr :
  defined lbl (labelTable st) ->
  add_label_defined lbl addr st = true ->
  labelTable (add_label lbl addr st) =
    (labelTable st ++ [mkLabel lbl addr])%list /\
  labelCount (add_label lbl addr st) = labelCount st + 1 /\
  find_label_address (add_label lbl addr st) lbl = find_label_address st lbl /\
  (forall ls,
     forallb well_formed ls = true ->
     input_within_limits (program_text ls) = true ->
     map label (labelTable (pass_one uninit (file_lines (program_text ls))
                                     initial_state)) =
     flat_map entered ls) /\
  (forall a0 a1 a2 input,
     input_within_limits input = true ->
     ~ reports_error (run uninit [a0; a1; a2; "-h"] input) /\
     ~ reports_error (run uninit [a0; a1; a2; "-b"] input)).
Proof.
  intros Hdef _. split; [reflexivity |]. split.
  { unfold labelCount, add_label. cbn [labelTable].
    rewrite length_app. cbn [List.length]. lia. }
  split.
  { unfold find_label_address, add_label. cbn [labelTable].
    now apply find_in_table_first. }
  split.
  { intros ls Hwf _.
    rewrite (file_lines_program ls Hwf), pass_one_labels.
    cbn [initial_state labelTable map app].
    now apply labels_program. }
  intros a0 a1 a2 input _.
  split; apply main_no_error; [now left | now right].
Qed.

Lemma duplicate_label_appended_witness :
  let st := pass_one "" (file_lines ("a: addi x1, x0, 1" ++ nl)) initial_state in
  labelTable (add_label "a" 2 st) = (labelTable st ++ [mkLabel "a" 2])%list /\
  labelCount (add_label "a" 2 st) = labelCount st + 1 /\
  find_label_address (add_label "a" 2 st) "a" = find_label_address st "a" /\
  (forall ls,
     forallb well_formed ls = true ->
     input_within_limits (program_text ls) = true ->
     map label (labelTable (pass_one "" (file_lines (program_text ls))
                                     initial_state)) =
     flat_map entered ls) /\
  (forall a0 a1 a2 input,
     input_within_limits input = true ->
     ~ reports_error (run "" [a0; a1; a2; "-h"] input) /\
     ~ reports_error (run "" [a0; a1; a2; "-b"] input)).
Proof.
  apply (duplicate_label_appended ""
           (pass_one "" (file_lines ("a: addi x1, x0, 1" ++ nl)) initial_state)
           "a" 2).
  - exists (mkLabel "a" 1). split; [vm_compute; now left | reflexivity].
  - vm_compute. reflexivity.
Defined.

(** C5, the claim as stated fails: a file within the limits of the source
    that defines [a] twice is assembled without any error, and both
    definitions are in the table. *)
Lemma duplicate_label_no_error :
  input_within_limits twice_defined = true /\
  labelTable (pass_one "" (file_lines twice_defined) initial_state) =
    [mkLabel "a" 1; mkLabel "a" 2] /\
  run "" ["assembler"; "in.s"; "out.txt"; "-h"] twice_defined =
    mkOutcome 0 EmptyString
      (Some ("0x00100093" ++ nl ++ "0x00200093" ++ nl)%string) /\
  ~ reports_error (run "" ["assembler"; "in.s"; "out.txt"; "-h"] twice_defined).
Proof.
  split; [vm_compute; reflexivity |].
  split; [vm_compute; reflexivity |].
  split; [vm_compute; reflexivity |].
  apply main_no_error. now left.
Qed.

(** C6 (as amended).  A branch or jump to a label that is not in the table
    is not an error: [find_label_address] answers -1, and a line that fits
    the buffers of the encoder is counted and encoded, as an odd 32-bit word
    that [main] writes, exactly as if the label were defined with index
    -1; a run in which the files open, on input within the limits of the
    source, reports no error. *)
Theorem unresolved_label_encoded uninit st rd rs1 lbl :
  token rd -> token rs1 -> token lbl ->
  ~ defined lbl (labelTable st) ->
  state_ok st = true ->
  state_ok (add_label lbl (-1) st) = true ->
  let as_if_minus_one line :=
    within_buffers line = true ->
    emitted st (assemble_instruction uninit st line) /\
    fst (assemble_instruction uninit st line) =
    fst (assemble_instruction uninit (add_label lbl (-1) st) line) in
  find_label_address st lbl = -1 /\
  Forall (fun opcode => as_if_minus_one (join [opcode; rd; rs1; lbl])) b_type /\
  as_if_minus_one (join ["jal"; rd; lbl]) /\
  as_if_minus_one (join ["j"; lbl]) /\
  (forall a0 a1 a2 input,
     input_within_limits input = true ->
     ~ reports_error (run uninit [a0; a1; a2; "-h"] input) /\
     ~ reports_error (run uninit [a0; a1; a2; "-b"] input)).
Proof.
  intros Hrd Hrs1 Hlbl Habs _ _. cbv zeta.
  split; [now apply find_in_table_absent |].
  split.
  { apply Forall_forall. intros opcode H _.
    assert (Hop : token opcode /\ recognised 4 opcode = true).
    { unfold b_type in H. in_cases H; (split; [literal_token | reflexivity]). }
    destruct Hop as [Hop Hrec].
    rewrite !assemble_instruction_tokens by tokens.
    cbn [firstn List.length Z.of_nat Pos.of_succ_nat Pos.succ nth].
    split; [now apply recognised_emitted | now apply missing_label_word4]. }
  split.
  { intros _. rewrite !assemble_instruction_tokens by tokens.
    cbn [firstn List.length Z.of_nat Pos.of_succ_nat Pos.succ nth].
    split; [now apply recognised_emitted | now apply missing_label_word3]. }
  split.
  { intros _. rewrite !assemble_instruction_tokens by tokens.
    cbn [firstn List.length Z.of_nat Pos.of_succ_nat Pos.succ nth].
    split; [now apply recognised_emitted | now apply missing_label_word2]. }
  intros a0 a1 a2 input _.
  split; apply main_no_error; [now left | now right].
Qed.

Lemma unresolved_label_encoded_witness :
  let as_if_minus_one line :=
    emitted initial_state (assemble_instruction "" initial_state line) /\
    fst (assemble_instruction "" initial_state line) =
    fst (assemble_instruction "" (add_label "nowhere" (-1) initial_state)
                              line) in
  find_label_address initial_state "nowhere" = -1 /\
  Forall (fun opcode => as_if_minus_one (join [opcode; "x1"; "x2"; "nowhere"]))
         b_type /\
  as_if_minus_one (join ["jal"; "x1"; "nowhere"]) /\
  as_if_minus_one (join ["j"; "nowhere"]) /\
  (forall a0 a1 a2 input,
     input_within_limits input = true ->
     ~ reports_error (run "" [a0; a1; a2; "-h"] input) /\
     ~ reports_error (run "" [a0; a1; a2; "-b"] input)).
Proof.
  destruct (unresolved_label_encoded "" initial_state "x1" "x2" "nowhere")
    as (F & B & J & J' & M);
    try first [literal_token | apply nothing_defined | reflexivity].
  split; [exact F |]. split.
  { apply Forall_forall. intros opcode H.
    refine (proj1 (Forall_forall _ _) B opcode H _).
    unfold b_type in H. in_cases H; reflexivity. }
  split; [apply J; reflexivity |].
  split; [apply J'; reflexivity | exact M].
Defined.

(** C6, the claim as stated fails: a branch to a label that is defined
    nowhere, in a file within the limits of the source, is assembled
    without any error, and its word is written. *)
Lemma unresolved_label_no_error :
  input_within_limits dangling_branch = true /\
  flat_map (line_label "") (file_lines dangling_branch) = [] /\
  run "" ["assembler"; "in.s"; "out.txt"; "-h"] dangling_branch =
    mkOutcome 0 EmptyString (Some ("0x7E208CE3" ++ nl)%string) /\
  ~ reports_error (run "" ["assembler"; "in.s"; "out.txt"; "-h"]
                       dangling_branch).
Proof.
  split; [vm_compute; reflexivity |].
  split; [vm_compute; reflexivity |].
  split; [vm_compute; reflexivity |].
  apply main_no_error. now left.
Qed.

(** C7 (as amended).  A line of the input format whose first token is not
    a supported mnemonic for the number of its tokens is dropped without a
    diagnostic: [assemble_instruction] returns 0 and leaves the state alone,
    and nothing is written for it.  A line that holds a recognised
    instruction is counted and adds exactly one line to the output.  A run
    in which the files open, on input within the limits of the source,
    reports no error. *)
Theorem unknown_mnemonic_dropped uninit isHex isBin st l f :
  isHex || isBin = true ->
  well_formed l = true ->
  assemble_instruction_defined st (normalise (text_of l)) = true ->
  let line := text_of l in
  let r := pass_two uninit isHex isBin [line] st f in
  (if holds_instruction l
   then fst r = incr_count2 st /\ count_lines (snd r) = count_lines f + 1
   else assemble_instruction uninit st (normalise line) = (0, st) /\
        r = (st, f)) /\
  (forall a0 a1 a2 input,
     input_within_limits input = true ->
     ~ reports_error (run uninit [a0; a1; a2; "-h"] input) /\
     ~ reports_error (run uninit [a0; a1; a2; "-b"] input)).
Proof.
  intros Hflag Hwf _. cbv zeta. split.
  - destruct (pass_two_text uninit isHex isBin st l f Hflag Hwf) as [E L].
    cbv zeta in E, L. rewrite E. cbn [fst snd].
    destruct (holds_instruction l).
    + exact L.
    + destruct L as [Hr Hw]. rewrite Hw, Hr. cbn [snd]. split; reflexivity.
  - intros a0 a1 a2 input _.
    split; apply main_no_error; [now left | now right].
Qed.

Lemma unknown_mnemonic_dropped_witness :
  let l := mkLine "" None "" [("foo", " "); ("x1", ", "); ("x2", "")] None in
  let line := text_of l in
  (line = ("foo x1, x2" ++ nl)%string /\ holds_instruction l = false) /\
  (assemble_instruction "" initial_state (normalise line) =
     (0, initial_state) /\
   pass_two "" true false [line] initial_state EmptyString =
     (initial_state, EmptyString)) /\
  (forall a0 a1 a2 input,
     input_within_limits input = true ->
     ~ reports_error (run "" [a0; a1; a2; "-h"] input) /\
     ~ reports_error (run "" [a0; a1; a2; "-b"] input)).
Proof.
  split; [split; reflexivity |].
  exact (unknown_mnemonic_dropped "" true false initial_state
           (mkLine "" None "" [("foo", " "); ("x1", ", "); ("x2", "")] None)
           EmptyString eq_refl eq_refl eq_refl).
Defined.

(** C7, the claim as stated fails: a file within the limits of the source
    with an unsupported mnemonic is assembled without any error, and its
    line leaves no trace. *)
Lemma unknown_mnemonic_no_error :
  let input := ("foo x1, x2" ++ nl)%string in
  input_within_limits input = true /\
  recognised_line (normalise input) = false /\
  run "" ["assembler"; "in.s"; "out.txt"; "-h"] input =
    mkOutcome 0 EmptyString (Some EmptyString) /\
  ~ reports_error (run "" ["assembler"; "in.s"; "out.txt"; "-h"] input).
Proof.
  cbv zeta. split; [vm_compute; reflexivity |].
  split; [vm_compute; reflexivity |].
  split; [vm_compute; reflexivity |].
  apply main_no_error. now left.
Qed.




(** C9.  For a 32-bit word, [output_hex] appends [0x], eight upper-case
    hexadecimal digits (leading zeros included) and a line break;
    [output_binary] appends the 32 bits, most significant first, and a line
    break; and those bits are the big-endian expansion of the value the
    eight digits show. *)
Theorem formatters_agree code f :
  0 <= code < 2 ^ 32 ->
  exists digits,
    output_hex code f = (f ++ "0x" ++ digits ++ nl)%string /\
    String.length digits = 8%nat /\
    all_chars is_upper_hex digits = true /\
    hex_value digits = code /\
    output_binary code f = (f ++ bits_be 32 code ++ nl)%string /\
    String.length (bits_be 32 code) = 32%nat /\
    all_chars is_bit (bits_be 32 code) = true /\
    output_binary code f = (f ++ bits_be 32 (hex_value digits) ++ nl)%string.
Proof.
  intros Hcode. exists (fixed_hex 8 code).
  assert (V : hex_value (fixed_hex 8 code) = code).
  { rewrite fixed_hex_value. apply Z.mod_small.
    change (16 ^ Z.of_nat 8) with (2 ^ 32). exact Hcode. }
  assert (B : output_binary code f = (f ++ bits_be 32 code ++ nl)%string).
  { unfold output_binary. rewrite output_binary_loop_bits by lia.
    apply append_assoc. }
  split.
  { unfold output_hex. now rewrite printf_08X_fixed. }
  split; [apply fixed_hex_length |].
  split; [apply fixed_hex_upper |].
  split; [exact V |].
  split; [exact B |].
  split; [reflexivity |].
  split; [apply bits_be_bits |].
  rewrite V. exact B.
Qed.

Lemma formatters_agree_witness :
  exists digits,
    output_hex 0x02A00293 "" = ("" ++ "0x" ++ digits ++ nl)%string /\
    String.length digits = 8%nat /\
    all_chars is_upper_hex digits = true /\
    hex_value digits = 0x02A00293 /\
    output_binary 0x02A00293 "" = ("" ++ bits_be 32 0x02A00293 ++ nl)%string /\
    String.length (bits_be 32 0x02A00293) = 32%nat /\
    all_chars is_bit (bits_be 32 0x02A00293) = true /\
    output_binary 0x02A00293 "" =
      ("" ++ bits_be 32 (hex_value digits) ++ nl)%string.
Proof.
  apply (formatters_agree 0x02A00293 ""). lia.
Defined.

(** C10.  For every line that fits the buffers of the encoder: when a
    register operand of the supported instruction it holds is not a register
    name, so that [get_register_number] answers -1, [assemble_instruction]
    still counts the instruction and returns its word, an odd 32-bit value
    that [main] writes; the conversion of -1 to [unsigned char] and the mask
    leave 31 in the five-bit field of that operand; and a run in which the
    files open, on input within the limits of the source, reports no
    error. *)
Theorem invalid_register_encoded uninit st instruction o pos :
  let count := fst (scan_head uninit instruction) in
  let f := snd (scan_head uninit instruction) in
  assemble_instruction_defined st instruction = true ->
  In (o, pos) (register_fields count (f_opcode f)) ->
  get_register_number (operand_text o (f_rd f) (f_rs1 f) (f_rs2 f)) = -1 ->
  emitted st (assemble_instruction uninit st instruction) /\
  field5 pos (fst (assemble_instruction uninit st instruction)) = 31 /\
  (uchar (-1) & 0x1F) = 31 /\
  (forall a0 a1 a2 input,
     input_within_limits input = true ->
     ~ reports_error (run uninit [a0; a1; a2; "-h"] input) /\
     ~ reports_error (run uninit [a0; a1; a2; "-b"] input)).
Proof.
  cbv zeta. intros _. rewrite assemble_instruction_head.
  destruct (scan_head uninit instruction) as [count f]. cbn [fst snd].
  intros Hin Hreg. split.
  { apply recognised_emitted.
    exact (register_fields_recognised count (f_opcode f) o pos Hin). }
  split.
  { now apply (invalid_register_field uninit st count (f_opcode f)
                 (f_rd f) (f_rs1 f) (f_rs2 f) o pos). }
  split; [reflexivity |].
  intros a0 a1 a2 input _.
  split; apply main_no_error; [now left | now right].
Qed.

Lemma invalid_register_encoded_witness :
  let line := normalise ("  sw x3, 8(bogus)  # store" ++ nl) in
  emitted initial_state (assemble_instruction "" initial_state line) /\
  field5 15 (fst (assemble_instruction "" initial_state line)) = 31 /\
  (uchar (-1) & 0x1F) = 31 /\
  (forall a0 a1 a2 input,
     input_within_limits input = true ->
     ~ reports_error (run "" [a0; a1; a2; "-h"] input) /\
     ~ reports_error (run "" [a0; a1; a2; "-b"] input)).
Proof.
  apply (invalid_register_encoded "" initial_state
           (normalise ("  sw x3, 8(bogus)  # store" ++ nl)) Mem 15).
  - reflexivity.
  - vm_compute. right. left. reflexivity.
  - vm_compute. reflexivity.
Defined.

(** * Further properties *)

(** ** The words of the formats *)

(** In this section [assemble_instruction_defined st instruction] says that
    the counters and the table of [st] are in the range of the program and
    that the tokens, the label and the body of the line fit the arrays of
    [assemble_instruction]. *)

(** X1.  A line that fits the buffers of the encoder and is scanned into
    four fields whose mnemonic is one of the ten register instructions is
    counted and encoded as the R-format word of opcode 0110011: [rd] at bit
    7, [funct3] at bit 12, [rs1] at bit 15, [rs2] at bit 20 and [funct7] at
    bit 25, with the function codes of [r_funct] and five bits of each
    register number. *)
Theorem r_type_word uninit st instruction funct3 funct7 :
  let count := fst (scan_head uninit instruction) in
  let f := snd (scan_head uninit instruction) in
  assemble_instruction_defined st instruction = true ->
  count = 4 -> In (f_opcode f, (funct3, funct7)) r_funct ->
  assemble_instruction uninit st instruction =
  (R_word funct7 (reg (f_rs2 f)) (reg (f_rs1 f)) funct3 (reg (f_rd f)) 0x33,
   incr_count2 st).
Proof.
  cbv zeta. intros _. rewrite assemble_instruction_head.
  destruct (scan_head uninit instruction) as [count f]. cbn [fst snd].
  intros ->. unfold r_funct.
  table_cases ltac:(rewrite chain_R by small_constants; reflexivity).
Qed.

Lemma r_type_word_witness :
  assemble_instruction "" initial_state (normalise ("sub x1, x2, x3" ++ nl)) =
  (R_word 0x20 3 2 0 1 0x33, incr_count2 initial_state) /\
  R_word 0x20 3 2 0 1 0x33 = 0x403100B3.
Proof.
  split; [| reflexivity].
  apply (r_type_word "" initial_state (normalise ("sub x1, x2, x3" ++ nl))
           0 0x20).
  - reflexivity.
  - reflexivity.
  - vm_compute. tauto.
Defined.

(** X2.  On a line that fits the buffers of the encoder, [addi], [slti],
    [sltiu], [xori], [ori], [andi], [slli], [srli] and [jalr] are encoded as
    the I-format word: the low twelve bits of the immediate
    [convertToDecimal] reads from the fourth field stand at bit 20.  An
    immediate from -2048 to 2047 is the one a processor reads back from the
    word. *)
Theorem i_type_word uninit st instruction opcode funct3 :
  let count := fst (scan_head uninit instruction) in
  let f := snd (scan_head uninit instruction) in
  let imm := convertToDecimal (f_rs2 f) in
  let r := assemble_instruction uninit st instruction in
  assemble_instruction_defined st instruction = true ->
  count = 4 -> In (f_opcode f, (opcode, funct3)) i_funct ->
  r = (I_word imm (reg (f_rs1 f)) funct3 (reg (f_rd f)) opcode,
       incr_count2 st) /\
  (-2048 <= imm <= 2047 -> I_imm (fst r) = imm).
Proof.
  cbv zeta. intros _. rewrite assemble_instruction_head.
  destruct (scan_head uninit instruction) as [count f]. cbn [fst snd].
  intros ->. unfold i_funct.
  table_cases
    ltac:(rewrite chain_I by small_constants;
          rewrite ?(or_assign_zero _ (b0000000 << 25)) by reflexivity;
          split; [reflexivity |];
          cbn [fst]; intros Hr;
          apply I_imm_word;
          [small_constants | small_constants | apply reg_range
          | apply reg_range | exact Hr]).
Qed.

Lemma i_type_word_witness :
  let line := normalise ("addi a0, zero, -1" ++ nl) in
  let r := assemble_instruction "" initial_state line in
  (r = (I_word (-1) 0 0 10 0x13, incr_count2 initial_state) /\
   I_imm (fst r) = -1) /\
  I_word (-1) 0 0 10 0x13 = 0xFFF00513.
Proof.
  split; [| reflexivity].
  destruct (i_type_word "" initial_state
              (normalise ("addi a0, zero, -1" ++ nl)) 0x13 0) as [E D].
  - reflexivity.
  - reflexivity.
  - vm_compute. tauto.
  - split; [exact E |]. apply D. vm_compute. split; discriminate.
Defined.

(** X3.  On a line that fits the buffers of the encoder, a shift by a
    constant from 0 to 31 is encoded as the R-format word of opcode 0010011
    with the constant in the place of [rs2]; [srai] differs from [srli] by
    its [funct7] 0100000. *)
Theorem shift_word uninit st instruction funct3 funct7 :
  let count := fst (scan_head uninit instruction) in
  let f := snd (scan_head uninit instruction) in
  let shamt := convertToDecimal (f_rs2 f) in
  assemble_instruction_defined st instruction = true ->
  count = 4 -> In (f_opcode f, (funct3, funct7)) shift_funct ->
  0 <= shamt < 32 ->
  assemble_instruction uninit st instruction =
  (R_word funct7 shamt (reg (f_rs1 f)) funct3 (reg (f_rd f)) 0x13,
   incr_count2 st).
Proof.
  cbv zeta. intros _. rewrite assemble_instruction_head.
  destruct (scan_head uninit instruction) as [count f]. cbn [fst snd].
  intros ->. unfold shift_funct.
  table_cases
    ltac:(intros Hs; rewrite chain_shift by (small_constants || exact Hs);
          reflexivity).
Qed.

Lemma shift_word_witness :
  assemble_instruction "" initial_state (normalise ("srai x5, x6, 3" ++ nl)) =
  (R_word 0x20 3 6 5 5 0x13, incr_count2 initial_state) /\
  R_word 0x20 3 6 5 5 0x13 = 0x40335293.
Proof.
  split; [| reflexivity].
  apply (shift_word "" initial_state (normalise ("srai x5, x6, 3" ++ nl))
           5 0x20).
  - reflexivity.
  - reflexivity.
  - vm_compute. tauto.
  - vm_compute. split; [discriminate | reflexivity].
Defined.

(** X4.  On a line that fits the buffers of the encoder, a load is
    encoded as the I-format word of opcode 0000011, from the offset and the
    base register its memory operand is taken apart into; an offset from
    -2048 to 2047 is read back from the word. *)
Theorem load_word uninit st instruction funct3 :
  let count := fst (scan_head uninit instruction) in
  let f := snd (scan_head uninit instruction) in
  let imm := mem_imm uninit (f_rs1 f) in
  let r := assemble_instruction uninit st instruction in
  assemble_instruction_defined st instruction = true ->
  count = 3 -> In (f_opcode f, funct3) load_funct ->
  r = (I_word imm (reg (mem_reg (f_rs1 f))) funct3 (reg (f_rd f)) 0x03,
       incr_count2 st) /\
  (-2048 <= imm <= 2047 -> I_imm (fst r) = imm).
Proof.
  cbv zeta. intros _. rewrite assemble_instruction_head.
  destruct (scan_head uninit instruction) as [count f]. cbn [fst snd].
  intros ->. unfold load_funct.
  table_cases
    ltac:(rewrite chain_I by small_constants;
          split; [reflexivity |];
          cbn [fst]; intros Hr;
          apply I_imm_word;
          [small_constants | small_constants | apply reg_range
          | apply reg_range | exact Hr]).
Qed.

Lemma load_word_witness :
  let line := normalise ("lw a0, -4(sp)" ++ nl) in
  let r := assemble_instruction "" initial_state line in
  (r = (I_word (-4) 2 2 10 0x03, incr_count2 initial_state) /\
   I_imm (fst r) = -4) /\
  I_word (-4) 2 2 10 0x03 = 0xFFC12503.
Proof.
  split; [| reflexivity].
  destruct (load_word "" initial_state
              (normalise ("lw a0, -4(sp)" ++ nl)) 2) as [E D].
  - reflexivity.
  - reflexivity.
  - vm_compute. tauto.
  - split; [exact E |]. apply D. vm_compute. split; discriminate.
Defined.

(** X5.  On a line that fits the buffers of the encoder, a store is
    encoded as the S-format word of opcode 0100011: the low five bits of the
    offset at bit 7, bits 5 to 11 at bit 25, the stored register at bit 20
    and the base register at bit 15; an offset from -2048 to 2047 is read
    back from the word. *)
Theorem store_word uninit st instruction funct3 :
  let count := fst (scan_head uninit instruction) in
  let f := snd (scan_head uninit instruction) in
  let imm := mem_imm uninit (f_rs1 f) in
  let r := assemble_instruction uninit st instruction in
  assemble_instruction_defined st instruction = true ->
  count = 3 -> In (f_opcode f, funct3) store_funct ->
  r = (S_word imm (reg (f_rd f)) (reg (mem_reg (f_rs1 f))) funct3 0x23,
       incr_count2 st) /\
  (-2048 <= imm <= 2047 -> S_imm (fst r) = imm).
Proof.
  cbv zeta. intros _. rewrite assemble_instruction_head.
  destruct (scan_head uninit instruction) as [count f]. cbn [fst snd].
  intros ->. unfold store_funct.
  table_cases
    ltac:(rewrite chain_S by small_constants;
          split; [reflexivity |];
          cbn [fst]; intros Hr;
          apply S_imm_word;
          [small_constants | small_constants | apply reg_range
          | apply reg_range | exact Hr]).
Qed.

Lemma store_word_witness :
  let line := normalise ("sw x3, -8(x2)" ++ nl) in
  let r := assemble_instruction "" initial_state line in
  (r = (S_word (-8) 3 2 2 0x23, incr_count2 initial_state) /\
   S_imm (fst r) = -8) /\
  S_word (-8) 3 2 2 0x23 = 0xFE312C23.
Proof.
  split; [| reflexivity].
  destruct (store_word "" initial_state
              (normalise ("sw x3, -8(x2)" ++ nl)) 2) as [E D].
  - reflexivity.
  - reflexivity.
  - vm_compute. tauto.
  - split; [exact E |]. apply D. vm_compute. split; discriminate.
Defined.

(** X6.  On a line that fits the buffers of the encoder, [lui] and
    [auipc] are encoded as the U-format word: the low twenty bits of the
    immediate stand at bit 12. *)
Theorem upper_word uninit st instruction opcode :
  let count := fst (scan_head uninit instruction) in
  let f := snd (scan_head uninit instruction) in
  assemble_instruction_defined st instruction = true ->
  count = 3 -> In (f_opcode f, opcode) u_opcode ->
  assemble_instruction uninit st instruction =
  (U_word (convertToDecimal (f_rs1 f)) (reg (f_rd f)) opcode,
   incr_count2 st).
Proof.
  cbv zeta. intros _. rewrite assemble_instruction_head.
  destruct (scan_head uninit instruction) as [count f]. cbn [fst snd].
  intros ->. unfold u_opcode.
  table_cases ltac:(rewrite chain_U by small_constants; reflexivity).
Qed.

Lemma upper_word_witness :
  assemble_instruction "" initial_state (normalise ("lui t0, 0x12345" ++ nl)) =
  (U_word 0x12345 5 0x37, incr_count2 initial_state) /\
  U_word 0x12345 5 0x37 = 0x123452B7.
Proof.
  split; [| reflexivity].
  apply (upper_word "" initial_state
           (normalise ("lui t0, 0x12345" ++ nl)) 0x37).
  - reflexivity.
  - reflexivity.
  - vm_compute. tauto.
Defined.

(** X7.  On a line that fits the buffers of the encoder, [jal rd, label]
    is encoded as the J-format word of opcode 1101111, with the bits of the
    byte offset to the label where the format has them; an offset from
    -2^20 up to 2^20 is read back from the word. *)
Theorem jal_word uninit st instruction :
  let count := fst (scan_head uninit instruction) in
  let f := snd (scan_head uninit instruction) in
  let off := branch_offset st (f_rs1 f) in
  let r := assemble_instruction uninit st instruction in
  assemble_instruction_defined st instruction = true ->
  count = 3 -> f_opcode f = "jal" ->
  r = (J_word off (reg (f_rd f)) 0x6F, incr_count2 st) /\
  (- 2 ^ 20 <= off < 2 ^ 20 -> J_imm (fst r) = off).
Proof.
  cbv zeta. intros _. rewrite assemble_instruction_head.
  destruct (scan_head uninit instruction) as [count f]. cbn [fst snd].
  intros -> ->. unfold assemble_fields, assemble_count3.
  concrete_opcode. rewrite jump_offset.
  rewrite chain_J by small_constants. split; [reflexivity |].
  cbn [fst]. intros Hr. unfold b1101111.
  apply J_imm_word;
    [lia | apply reg_range | apply branch_offset_even | exact Hr].
Qed.

Lemma jal_word_witness :
  let st := add_label "top" 1 initial_state in
  let r := assemble_instruction "" st (normalise ("jal ra, top" ++ nl)) in
  (r = (J_word 0 1 0x6F, incr_count2 st) /\ J_imm (fst r) = 0) /\
  J_word 0 1 0x6F = 0x000000EF.
Proof.
  split; [| reflexivity].
  destruct (jal_word "" (add_label "top" 1 initial_state)
              (normalise ("jal ra, top" ++ nl))) as [E D].
  - reflexivity.
  - reflexivity.
  - reflexivity.
  - split; [exact E |]. apply D. vm_compute. split; [discriminate | reflexivity].
Defined.

(** X8.  [j label], on a line of two fields that fits the buffers of the
    encoder, is encoded as the J-format word with [rd] zero, and the offset
    is read back likewise. *)
Theorem j_word uninit st instruction :
  let count := fst (scan_head uninit instruction) in
  let f := snd (scan_head uninit instruction) in
  let off := branch_offset st (f_rd f) in
  let r := assemble_instruction uninit st instruction in
  assemble_instruction_defined st instruction = true ->
  count = 2 -> f_opcode f = "j" ->
  r = (J_word off 0 0x6F, incr_count2 st) /\
  (- 2 ^ 20 <= off < 2 ^ 20 -> J_imm (fst r) = off).
Proof.
  cbv zeta. intros _. rewrite assemble_instruction_head.
  destruct (scan_head uninit instruction) as [count f]. cbn [fst snd].
  intros -> ->. unfold assemble_fields, assemble_count2.
  concrete_opcode. rewrite jump_offset.
  rewrite chain_J by small_constants. split; [reflexivity |].
  cbn [fst]. intros Hr. unfold b1101111.
  change (get_register_number "x0" mod 32) with 0.
  apply J_imm_word; [lia | lia | apply branch_offset_even | exact Hr].
Qed.

Lemma j_word_witness :
  let st := add_label "top" 1 (mkState [] 0 2) in
  let r := assemble_instruction "" st (normalise ("j top" ++ nl)) in
  (r = (J_word (-8) 0 0x6F, incr_count2 st) /\ J_imm (fst r) = -8) /\
  J_word (-8) 0 0x6F = 0xFF9FF06F.
Proof.
  split; [| reflexivity].
  destruct (j_word "" (add_label "top" 1 (mkState [] 0 2))
              (normalise ("j top" ++ nl))) as [E D].
  - reflexivity.
  - reflexivity.
  - reflexivity.
  - split; [exact E |]. apply D. vm_compute. split; [discriminate | reflexivity].
Defined.

(** X9.  On a line that fits the buffers of the encoder, a branch is
    encoded as the B-format word of opcode 1100011 with bits 1 to 11 of the
    byte offset where the format has them; [bgt] and [ble] are [blt] and
    [bge] with the two registers exchanged; bit 31 holds bit 12 of the
    offset in [blt] and is zero otherwise.  A forward offset below 4096 is
    read back from the word, whatever the mnemonic. *)
Theorem branch_word uninit st instruction funct3 swap :
  let count := fst (scan_head uninit instruction) in
  let f := snd (scan_head uninit instruction) in
  let a := reg (f_rd f) in
  let b := reg (f_rs1 f) in
  let off := branch_offset st (f_rs2 f) in
  let sign := if f_opcode f =s? "blt" then (off / 2 ^ 12) mod 2 else 0 in
  let r := assemble_instruction uninit st instruction in
  assemble_instruction_defined st instruction = true ->
  count = 4 -> In (f_opcode f, (funct3, swap)) b_funct ->
  r = (B_word sign off (if swap then a else b) (if swap then b else a) funct3,
       incr_count2 st) /\
  (0 <= off < 2 ^ 12 -> B_imm (fst r) = off).
Proof.
  cbv zeta. intros _. rewrite assemble_instruction_head.
  destruct (scan_head uninit instruction) as [count f]. cbn [fst snd].
  intros ->. unfold b_funct.
  table_cases
    ltac:(rewrite jump_offset;
          pose proof (branch_offset_even st (f_rs2 f)) as Heven;
          pose proof (reg_range (f_rd f)) as Hrd;
          pose proof (reg_range (f_rs1 f)) as Hrs;
          first [ rewrite (chain_B 20) by (small_constants || (now right))
                | rewrite (chain_B 19) by (small_constants || (now left)) ];
          cbn [Z.eqb Pos.eqb Z.sub Z.add Z.opp Z.pos_sub Pos.sub Pos.pred_double
                 Pos.sub_mask Pos.double_mask Pos.succ_double_mask
                 Pos.double_pred_mask Pos.pred_mask];
          fold (reg (f_rd f)); fold (reg (f_rs1 f));
          unfold b0110011, b1100011, b000, b001, b100, b101, b110, b111;
          change (99 - 99 + ?x) with x;
          split; [reflexivity |];
          cbn [fst]; intros Hoff;
          apply B_imm_word;
          [ lia | lia | lia | exact Heven
          | try (symmetry; apply Z.mod_small);
            try (rewrite Z.div_small by lia; reflexivity);
            try (rewrite Z.div_small by lia; lia)
          | lia ]).
Qed.

Lemma branch_word_witness :
  let st := add_label "end" 3 initial_state in
  let r := assemble_instruction "" st (normalise ("bgt x1, x2, end" ++ nl)) in
  (r = (B_word 0 8 1 2 4, incr_count2 st) /\ B_imm (fst r) = 8) /\
  B_word 0 8 1 2 4 = 0x00114463.
Proof.
  split; [| reflexivity].
  destruct (branch_word "" (add_label "end" 3 initial_state)
              (normalise ("bgt x1, x2, end" ++ nl)) 4 true) as [E D].
  - reflexivity.
  - reflexivity.
  - vm_compute. tauto.
  - split; [exact E |]. apply D. vm_compute. split; [discriminate | reflexivity].
Defined.

(** ** Labels *)

(** X10.  After pass one on a program within the limits of the source,
    the address of a label is one more than the number of instructions on
    the lines before the first line that enters it: the index, from 1, of
    the instruction the label stands in front of. *)
Theorem label_address uninit pre l post name :
  forallb well_formed (pre ++ l :: post) = true ->
  input_within_limits (program_text (pre ++ l :: post)) = true ->
  entered l = [name] ->
  ~ In name (flat_map entered pre) ->
  find_label_address
    (pass_one uninit (file_lines (program_text (pre ++ l :: post)))
              initial_state) name =
  instructions pre + 1.
Proof.
  intros Hwf _ Hl Hpre.
  rewrite (file_lines_program _ Hwf), map_app. cbn [map].
  rewrite forallb_app in Hwf. cbn [forallb] in Hwf.
  apply andb_true_iff in Hwf. destruct Hwf as [Wpre W].
  apply andb_true_iff in W. destruct W as [Wl Wpost].
  rewrite (label_address_from uninit (map text_of pre) (text_of l)
             (map text_of post) name initial_state).
  - rewrite (count_recognised_program pre Wpre).
    cbn [initial_state instruction_count]. lia.
  - now rewrite line_label_text.
  - now rewrite labels_program.
  - intros (e & Hin & _). exact Hin.
Qed.

Lemma label_address_witness :
  let pre := [mkLine "" None "" [("addi", " "); ("x1", ", "); ("x0", ", ");
                                 ("1", "")] None;
              mkLine "" None "" [] (Some " note")] in
  let l := mkLine "" (Some "top") " "
                  [("add", " "); ("x1", ", "); ("x1", ", "); ("x1", "")]
                  None in
  let post := [mkLine "" None "" [("j", " "); ("top", "")] None] in
  program_text (pre ++ l :: post) =
    ("addi x1, x0, 1" ++ nl ++ "# note" ++ nl ++ "top: add x1, x1, x1" ++ nl ++
     "j top" ++ nl)%string /\
  find_label_address
    (pass_one "" (file_lines (program_text (pre ++ l :: post))) initial_state)
    "top" = instructions pre + 1 /\
  instructions pre + 1 = 2.
Proof.
  split; [reflexivity |]. split; [| reflexivity].
  apply (label_address ""
           [mkLine "" None "" [("addi", " "); ("x1", ", "); ("x0", ", ");
                               ("1", "")] None;
            mkLine "" None "" [] (Some " note")]
           (mkLine "" (Some "top") " "
                   [("add", " "); ("x1", ", "); ("x1", ", "); ("x1", "")]
                   None)
           [mkLine "" None "" [("j", " "); ("top", "")] None] "top").
  - reflexivity.
  - vm_compute. reflexivity.
  - reflexivity.
  - vm_compute. tauto.
Defined.

(** X11.  On a program within the limits of the source, pass two leaves
    the label table as pass one built it, and when it has gone through the
    first [k] lines, the byte offset it computes to a label is four times
    the difference between the number of instructions before the line of
    the label and the number of instructions in those [k] lines: the
    distance from the instruction encoded next to the one the label stands
    in front of. *)
Theorem label_offset uninit isHex isBin pre l post k name f :
  forallb well_formed (pre ++ l :: post) = true ->
  input_within_limits (program_text (pre ++ l :: post)) = true ->
  entered l = [name] ->
  ~ In name (flat_map entered pre) ->
  let ls := (pre ++ l :: post)%list in
  let lines := file_lines (program_text ls) in
  let st1 := pass_one uninit lines initial_state in
  let st2 := fst (pass_two uninit isHex isBin (firstn k lines) st1 f) in
  labelTable st2 = labelTable st1 /\
  branch_offset st2 name =
  s32 ((instructions pre - instructions (firstn k ls)) * 4).
Proof.
  intros Hwf _ Hl Hpre. cbv zeta. rewrite pass_two_state.
  cbn [labelTable]. split; [reflexivity |].
  unfold branch_offset. cbn [instruction_count2].
  change (find_label_address (mkState ?t ?a ?b) name)
    with (find_in_table t name).
  rewrite (file_lines_program _ Hwf).
  rewrite firstn_map,
    (count_recognised_program _ (forallb_firstn _ k _ Hwf)).
  rewrite (proj2 (pass_one_counters uninit _ initial_state)).
  rewrite map_app. cbn [map].
  rewrite forallb_app in Hwf. cbn [forallb] in Hwf.
  apply andb_true_iff in Hwf. destruct Hwf as [Wpre W].
  apply andb_true_iff in W. destruct W as [Wl Wpost].
  fold (find_label_address
          (pass_one uninit (map text_of pre ++ text_of l :: map text_of post)
                    initial_state) name).
  rewrite (label_address_from uninit (map text_of pre) (text_of l)
             (map text_of post) name initial_state).
  - rewrite (count_recognised_program pre Wpre).
    cbn [instruction_count instruction_count2 initial_state]. f_equal; lia.
  - now rewrite line_label_text.
  - now rewrite labels_program.
  - intros (e & Hin & _). exact Hin.
Qed.

Lemma label_offset_witness :
  let pre := [mkLine "" None "" [("addi", " "); ("x1", ", "); ("x0", ", ");
                                 ("1", "")] None] in
  let l := mkLine "" (Some "top") " "
                  [("add", " "); ("x1", ", "); ("x1", ", "); ("x1", "")]
                  None in
  let post := [mkLine "" None "" [("sub", " "); ("x1", ", "); ("x1", ", ");
                                  ("x2", "")] None;
               mkLine "" None "" [("j", " "); ("top", "")] None] in
  let ls := (pre ++ l :: post)%list in
  let lines := file_lines (program_text ls) in
  let st1 := pass_one "" lines initial_state in
  let st2 := fst (pass_two "" true false (firstn 3 lines) st1 "") in
  program_text ls =
    ("addi x1, x0, 1" ++ nl ++ "top: add x1, x1, x1" ++ nl ++
     "sub x1, x1, x2" ++ nl ++ "j top" ++ nl)%string /\
  (labelTable st2 = labelTable st1 /\
   branch_offset st2 "top" =
   s32 ((instructions pre - instructions (firstn 3 ls)) * 4)) /\
  s32 ((instructions pre - instructions (firstn 3 ls)) * 4) = -8.
Proof.
  split; [reflexivity |]. split; [| reflexivity].
  apply (label_offset "" true false
           [mkLine "" None "" [("addi", " "); ("x1", ", "); ("x0", ", ");
                               ("1", "")] None]
           (mkLine "" (Some "top") " "
                   [("add", " "); ("x1", ", "); ("x1", ", "); ("x1", "")]
                   None)
           [mkLine "" None "" [("sub", " "); ("x1", ", "); ("x1", ", ");
                               ("x2", "")] None;
            mkLine "" None "" [("j", " "); ("top", "")] None] 3 "top" "").
  - reflexivity.
  - vm_compute. reflexivity.
  - reflexivity.
  - vm_compute. tauto.
Defined.

(** X12.  In a call within the limits of the source, pass one enters the
    label of a line, whatever blanks stand before it, with the index of the
    next instruction, when some text follows the colon, be it a blank or
    the line break; when the line ends at the colon the table stays as it
    is. *)
Theorem label_line uninit st k lbl rest :
  word lbl -> lbl <> EmptyString ->
  first_pass_defined st (blanks k ++ lbl ++ ":" ++ rest) = true ->
  labelTable (first_pass uninit st (blanks k ++ lbl ++ ":" ++ rest)) =
  match rest with
  | EmptyString => labelTable st
  | String _ _ =>
      (labelTable st ++ [mkLabel lbl (instruction_count st + 1)])%list
  end.
Proof.
  intros Hw Hne _. rewrite first_pass_recognised.
  assert (L : labelTable (labelled uninit st (blanks k ++ lbl ++ ":" ++ rest)) =
              match rest with
              | EmptyString => labelTable st
              | String _ _ =>
                  (labelTable st ++
                   [mkLabel lbl (instruction_count st + 1)])%list
              end).
  { assert (F : colon_free (blanks k ++ lbl))
      by (apply colon_free_append;
          [apply blanks_no_colon | now apply word_no_colon]).
    unfold labelled, splitString.
    rewrite <- append_assoc. cbn [append].
    rewrite (strchr_found (blanks k ++ lbl) ":" rest F).
    destruct rest as [| c r]; [reflexivity |].
    rewrite remove_colon_none by exact F.
    unfold sscanf_s. rewrite scan_tokens_blanks.
    fold (sscanf_s lbl uninit).
    rewrite sscanf_s_solid by (try assumption; now apply word_solid).
    reflexivity. }
  now destruct (recognised_line _).
Qed.

Lemma label_line_witness :
  labelTable (first_pass "" initial_state (normalise ("  end:# stop here" ++ nl)))
  = [] /\
  labelTable (first_pass "" initial_state (normalise ("  end: # stop here" ++ nl)))
  = [mkLabel "end" 1].
Proof.
  split.
  - apply (label_line "" initial_state 2 "end" "");
      [reflexivity | discriminate | reflexivity].
  - apply (label_line "" initial_state 2 "end" " ");
      [reflexivity | discriminate | reflexivity].
Defined.

(** X13.  [splitString] cuts a text at its first colon: the part before
    it has no colon, so that [remove_colon] finds nothing to remove in it,
    and the two parts with a colon between them are the text; a text
    without a colon is returned whole, with nothing after it. *)
Theorem splitString_parts str :
  let before := fst (splitString str) in
  let after := snd (splitString str) in
  colon_free before /\ remove_colon before = before /\
  (str = before ++ ":" ++ after \/ (str = before /\ after = EmptyString))%string.
Proof.
  cbv zeta. unfold splitString.
  destruct (strchr str ":") as [[b a] |] eqn:E.
  - destruct (strchr_parts _ _ _ _ E) as (-> & (r & ->) & F).
    cbn [fst snd]. split; [exact F |].
    split; [now apply remove_colon_none |]. left. reflexivity.
  - cbn [fst snd].
    assert (F : colon_free str).
    { clear -E. unfold colon_free.
      induction str as [| d s IH]; [reflexivity |]. cbn [strchr] in E.
      cbn [all_chars]. destruct (Ascii.eqb d ":"); [discriminate |].
      destruct (strchr s ":") as [[b a] |]; [discriminate |]. now apply IH. }
    split; [exact F |]. split; [now apply remove_colon_none |]. now right.
Qed.

(** ** The text of a line *)

(** X14.  Both passes see only the tokens of a line without a label:
    however many blanks, tabs and commas stand before the first token and
    after each one, as long as the line fits the buffers of the passes, it
    is treated as its tokens with one blank between them. *)
Theorem layout_ignored uninit st lead ps :
  let line := replaceCommas (lead ++ spaced ps) in
  let plain_line := join (map fst ps) in
  all_chars separator_char lead = true ->
  Forall (fun p => atom (fst p) /\ separator (snd p)) ps ->
  first_pass_defined st line = true ->
  first_pass_defined st plain_line = true ->
  assemble_instruction_defined st line = true ->
  assemble_instruction_defined st plain_line = true ->
  assemble_instruction uninit st line =
  assemble_instruction uninit st plain_line /\
  first_pass uninit st line = first_pass uninit st plain_line.
Proof.
  cbv zeta. intros Hlead H _ _ _ _.
  destruct (spaced_scanned 4 lead ps Hlead H) as [S C].
  assert (T : Forall token (map fst ps)).
  { apply Forall_map. eapply Forall_impl; [| exact H].
    intros p [Ha _]. now apply atom_token. }
  apply colon_free_passes.
  - exact C.
  - now apply join_no_colon.
  - rewrite S. symmetry. now apply scan_tokens_join.
Qed.

Lemma layout_ignored_witness :
  let line := normalise ("  add   x1,x2 , x3" ++ nl) in
  assemble_instruction "" initial_state line =
  assemble_instruction "" initial_state "add x1 x2 x3" /\
  first_pass "" initial_state line = first_pass "" initial_state "add x1 x2 x3".
Proof.
  apply (layout_ignored "" initial_state "  "
           [("add", "   "); ("x1", ","); ("x2", " , "); ("x3", nl)]).
  - reflexivity.
  - repeat constructor; discriminate.
  - reflexivity.
  - reflexivity.
  - reflexivity.
  - reflexivity.
Defined.

(** X15.  What follows the first [#] of a line, the line break included,
    is cut off before either pass looks at the line. *)
Theorem comment_ignored uninit st text note :
  all_chars (fun c => negb (Ascii.eqb c "#")) text = true ->
  let line := (text ++ "#" ++ note)%string in
  normalise line = replaceCommas text /\
  first_pass uninit st (normalise line) =
  first_pass uninit st (normalise text) /\
  assemble_instruction uninit st (normalise line) =
  assemble_instruction uninit st (normalise text).
Proof.
  intros H. cbv zeta.
  assert (E : normalise (text ++ "#" ++ note) = replaceCommas text).
  { unfold normalise, removeComment. cbn [append].
    now rewrite (strchr_found text "#" note H). }
  assert (E' : normalise text = replaceCommas text).
  { unfold normalise, removeComment.
    destruct (strchr text "#") as [[b a] |] eqn:S; [| reflexivity].
    destruct (strchr_parts _ _ _ _ S) as (-> & (r & ->) & _).
    rewrite all_chars_append in H. cbn [all_chars] in H.
    rewrite Ascii.eqb_refl in H. cbn in H. rewrite andb_false_r in H.
    discriminate. }
  rewrite E, E'. now repeat split.
Qed.

Lemma comment_ignored_witness :
  let line := ("add x1, x2, x3 " ++ "#" ++ " sum: a, b" ++ nl)%string in
  normalise line = replaceCommas "add x1, x2, x3 " /\
  first_pass "" initial_state (normalise line) =
  first_pass "" initial_state (normalise "add x1, x2, x3 ") /\
  assemble_instruction "" initial_state (normalise line) =
  assemble_instruction "" initial_state (normalise "add x1, x2, x3 ").
Proof.
  apply (comment_ignored "" initial_state "add x1, x2, x3 "
           (" sum: a, b" ++ nl)).
  reflexivity.
Defined.

(** ** The run as a whole *)

(** X16.  [main], on input within the limits of the source, ends with exit
    code 0 or 1; with 0 exactly when there are at least three arguments
    after the program name, every call of [fopen] returns a stream and the
    third argument is [-h] or [-b], and exactly then nothing is written to
    [stderr]; arguments after the third are ignored.  With fewer arguments,
    or when one of the two files does not open before the first pass, the
    output file is not touched; when the run fails later, it has been opened
    for writing already and is left empty.  An input file that cannot be
    opened is reported with [perror]. *)
Theorem main_outcomes uninit argv fin fout fin' fout' :
  stream_within_limits fin = true ->
  stream_within_limits fin' = true ->
  let o := main uninit argv fin fout fin' fout' in
  let argc := List.length argv in
  let flag := nth 3 argv EmptyString in
  (exit_code o = 0 \/ exit_code o = 1) /\
  (exit_code o = 0 <->
   (4 <= argc)%nat /\ opened fin = true /\ opened fout = true /\
   (flag = "-h" \/ flag = "-b") /\
   opened fin' = true /\ opened fout' = true) /\
  (exit_code o = 0 <-> stderr o = EmptyString) /\
  (output o = None <->
   (argc < 4)%nat \/ opened fin = false \/ opened fout = false) /\
  (exit_code o = 1 -> output o = None \/ output o = Some EmptyString) /\
  (forall strerror,
     (4 <= argc)%nat -> fin = Failed strerror ->
     o = mkOutcome 1 (perror "Error opening input file" strerror) None).
Proof.
  intros _ _. cbv zeta. unfold main. cbv zeta.
  destruct (Z.ltb_spec (Z.of_nat (List.length argv)) 4) as [Lt | Ge].
  { cbn [exit_code stderr output].
    repeat split; try (intros; lia); try discriminate; try (now right);
      try (now left); try (intros (? & _); lia). }
  destruct fin as [input_file | e1].
  2: { cbn [exit_code stderr output opened perror].
       repeat split; try (intros; lia); try discriminate; try (now right);
         try (now left); try (intros (_ & ? & _); discriminate);
         try (intros; right; now left).
       intros strerror _ [= ->]. reflexivity. }
  destruct fout as [out | e2].
  2: { cbn [exit_code stderr output opened perror].
       repeat split; try (intros; lia); try discriminate; try (now right);
         try (now left); try (intros (_ & _ & ? & _); discriminate);
         try (intros; right; now right). }
  assert (No : forall w : string,
             Some w = None <->
             (List.length argv < 4)%nat \/ true = false \/ true = false).
  { intros w. split; [discriminate |].
    intros [? | [? | ?]]; [lia | discriminate ..]. }
  destruct (String.eqb_spec (nth 3 argv "") "-h") as [Eh | Nh];
    destruct (String.eqb_spec (nth 3 argv "") "-b") as [Eb | Nb];
    cbn [negb andb];
    try (destruct fin' as [input_file' | e3];
         [destruct fout' as [out' | e4];
          [destruct (pass_two _ _ _ _ _ _) as [st w] |] |]);
    cbn [exit_code stderr output opened perror];
    (split; [first [now left | now right] |]);
    (split; [split;
             [ first [discriminate | intros _; repeat split; first [lia | tauto] ]
             | first [ reflexivity
                     | intros (_ & _ & _ & ? & ? & ?);
                       first [discriminate | tauto] ] ] |]);
    (split; [split; first [discriminate | reflexivity] |]);
    (split; [apply No |]);
    (split; [intros; first [now right | discriminate] |]);
    intros strerror _; discriminate.
Qed.

Lemma main_outcomes_witness :
  let o := main "" ["asm"; "in.s"; "out.hex"; "-h"]
                (Failed "No such file or directory") (Opened tt)
                (Opened loop_program) (Opened tt) in
  let o' := main "" ["asm"; "in.s"; "out.hex"; "-x"]
                 (Opened loop_program) (Opened tt)
                 (Opened loop_program) (Opened tt) in
  o = mkOutcome 1
        ("Error opening input file: No such file or directory" ++ nl) None /\
  exit_code o' = 1 /\ output o' = Some EmptyString.
Proof.
  cbv zeta. split.
  - pose proof (main_outcomes "" ["asm"; "in.s"; "out.hex"; "-h"]
                  (Failed "No such file or directory") (Opened tt)
                  (Opened loop_program) (Opened tt) eq_refl eq_refl) as H.
    cbv zeta in H. destruct H as (_ & _ & _ & _ & _ & H).
    apply (H "No such file or directory"); [cbn; lia | reflexivity].
  - pose proof (main_outcomes "" ["asm"; "in.s"; "out.hex"; "-x"]
                  (Opened loop_program) (Opened tt)
                  (Opened loop_program) (Opened tt) eq_refl eq_refl) as H.
    cbv zeta in H. destruct H as (_ & _ & _ & N & H & _).
    split; [reflexivity |].
    destruct (H eq_refl) as [E | E]; [| exact E].
    apply N in E. cbn in E. destruct E as [E | [E | E]];
      [lia | discriminate ..].
Defined.

(** X17.  With a valid flag, the output file of a run on a program within
    the limits of the source has eleven characters for every instruction in
    hexadecimal mode ([0x], eight digits and a line break), thirty-three in
    binary mode, and nothing else. *)
Theorem output_size uninit a0 a1 a2 flag ls :
  flag = "-h" \/ flag = "-b" ->
  forallb well_formed ls = true ->
  input_within_limits (program_text ls) = true ->
  exists out,
    run uninit [a0; a1; a2; flag] (program_text ls) =
      mkOutcome 0 EmptyString (Some out) /\
    Z.of_nat (String.length out) =
    (if flag =s? "-h" then 11 else 33) * instructions ls.
Proof.
  intros Hflag Hwf _.
  assert (Hb : (flag =s? "-h") || (flag =s? "-b") = true)
    by (destruct Hflag as [-> | ->]; reflexivity).
  eexists. split; [now apply main_runs |].
  rewrite pass_two_size by exact Hb.
  rewrite (file_lines_program ls Hwf), (count_recognised_program ls Hwf).
  cbn [String.length]. lia.
Qed.

Lemma output_size_witness :
  exists out,
    run "" ["asm"; "in.s"; "out.txt"; "-b"] (program_text annotated_loop) =
      mkOutcome 0 EmptyString (Some out) /\
    Z.of_nat (String.length out) = 33 * 2.
Proof.
  destruct (output_size "" "asm" "in.s" "out.txt" "-b" annotated_loop)
    as (out & R & L).
  - now right.
  - reflexivity.
  - vm_compute. reflexivity.
  - exists out. split; [exact R | exact L].
Defined.

(** X24.  A run on input within the limits of the source stays within
    them: every call of [first_pass] in pass one and every call of
    [assemble_instruction] in pass two finds the counters and the table in
    the range of the program and a line that fits its arrays, with a free
    entry in the table and a token in the label where the call enters
    one. *)
Theorem run_within_limits uninit input :
  input_within_limits input = true ->
  let lines := file_lines input in
  pass_one_defined uninit lines initial_state = true /\
  pass_two_defined uninit lines (pass_one uninit lines initial_state) = true.
Proof.
  unfold input_within_limits, lines_within_limits. intros H. cbv zeta.
  apply andb_true_iff in H. destruct H as [H Hn].
  apply andb_true_iff in H. destruct H as [Hl Hc].
  apply Z.ltb_lt in Hn. apply Z.leb_le in Hc.
  destruct (pass_one_within uninit (file_lines input) initial_state)
    as (D & S & C2); try exact Hl;
    change (labelCount initial_state) with 0;
    cbn [initial_state instruction_count instruction_count2 labelTable
           forallb];
    try (unfold INT_MAX in *; lia); try reflexivity.
  split; [exact D |].
  destruct (state_ok_parts _ S) as (I1 & I2 & I3 & I4).
  apply pass_two_within; try assumption.
  - apply (forallb_weaken line_within_limits); [| exact Hl].
    intros a Ha. unfold line_within_limits in Ha.
    now apply andb_true_iff in Ha.
  - lia.
  - rewrite C2. cbn [initial_state instruction_count2]. lia.
Qed.

Lemma run_within_limits_witness :
  let lines := file_lines loop_program in
  pass_one_defined "" lines initial_state = true /\
  pass_two_defined "" lines (pass_one "" lines initial_state) = true.
Proof.
  apply (run_within_limits "" loop_program). vm_compute. reflexivity.
Defined.

(** ** Operands *)

(** X18.  [get_register_number] returns a number from 0 to 31, or -1;
    the five bits the encoder keeps of it are the number itself, and 31 for
    -1. *)
Theorem get_register_number_range name :
  -1 <= get_register_number name <= 31 /\
  reg name = (if get_register_number name =? -1 then 31
              else get_register_number name).
Proof.
  assert (R : -1 <= get_register_number name <= 31).
  { unfold get_register_number.
    repeat match goal with
           | |- context [if ?b then _ else _] =>
               match b with
               | orb _ _ => destruct b; [lia |]
               end
           end.
    destruct (starts_with "x" name); [| lia]. cbv zeta.
    destruct (Z.leb_spec 0 (atoi (substring 1 (String.length name - 1) name)));
      cbn [andb]; [| lia].
    destruct (Z.leb_spec (atoi (substring 1 (String.length name - 1) name)) 31);
      lia. }
  split; [exact R |]. unfold reg.
  destruct (Z.eqb_spec (get_register_number name) (-1)) as [-> | N];
    [reflexivity |].
  apply Z.mod_small. lia.
Qed.

(** X19.  [convertToDecimal] reads [0x] and up to fifteen upper-case
    hexadecimal digits as the number the digits show. *)
Theorem hex_literal ds :
  all_chars is_upper_hex ds = true -> (String.length ds <= 15)%nat ->
  convertToDecimal ("0x" ++ ds) = hex_value ds.
Proof.
  intros H L. unfold convertToDecimal.
  cbn [append]. prefix_known. cbv iota.
  unfold strtol. cbn [append skip_ws].
  change (isspace "0") with false. cbv iota beta zeta.
  change (16 =? 16) with true. cbv iota.
  rewrite strtol_digits_hex by exact H. fold (hex_value ds).
  apply clamp_long.
  destruct (hex_fold_range ds 0 H ltac:(lia)) as [Lo Hi].
  fold (hex_value ds) in Lo, Hi.
  assert (16 ^ Z.of_nat (String.length ds) <= 16 ^ 15)
    by (apply Z.pow_le_mono_r; lia).
  unfold LONG_MIN, LONG_MAX. lia.
Qed.

Lemma hex_literal_witness :
  convertToDecimal ("0x" ++ "7FF") = hex_value "7FF" /\ hex_value "7FF" = 2047.
Proof.
  split; [| reflexivity].
  apply (hex_literal "7FF"); [reflexivity | cbn; lia].
Defined.

(** X20.  A hexadecimal immediate with a sign, or with a capital [X], is
    read in base ten, which stops at the [x]: its value is 0 whatever
    digits follow. *)
Theorem signed_hex_reads_zero s :
  convertToDecimal ("-0x" ++ s) = 0 /\ convertToDecimal ("+0x" ++ s) = 0 /\
  convertToDecimal ("0X" ++ s) = 0.
Proof.
  unfold convertToDecimal. cbn [append]. prefix_known. repeat split.
Qed.

(** X21.  [convertToDecimal] reads the decimal numeral of every number in
    the range of [long] as that number. *)
Theorem decimal_round_trip n :
  LONG_MIN <= n <= LONG_MAX -> convertToDecimal (decimal n) = n.
Proof.
  intros H. unfold decimal, convertToDecimal.
  destruct n as [| p | p]; [reflexivity | |];
    cbn [Z.to_int NilZero.string_of_int];
    pose proof (Unsigned.to_uint_nonnil p) as Hn;
    destruct (strtol_uint (Pos.to_uint p) Hn) as (X & X' & U & N);
    assert (V : Z.of_uint (Pos.to_uint p) = Z.pos p)
      by (unfold Z.of_uint; now rewrite DecimalPos.Unsigned.of_to);
    assert (E : NilZero.string_of_uint (Pos.to_uint p) =
                NilEmpty.string_of_uint (Pos.to_uint p))
      by (unfold NilZero.string_of_uint;
          destruct (Pos.to_uint p); [contradiction | reflexivity ..]);
    rewrite E.
  - rewrite X, U, V. now apply clamp_long.
  - rewrite X', N, V. now apply clamp_long.
Qed.

Lemma decimal_round_trip_witness :
  convertToDecimal (decimal (-2048)) = -2048 /\ decimal (-2048) = "-2048".
Proof.
  split; [| reflexivity].
  apply (decimal_round_trip (-2048)). unfold LONG_MIN, LONG_MAX. lia.
Defined.

(** X22.  A memory operand [imm(r)] is taken apart into the offset [imm]
    and the register name [r].  An operand without brackets is the offset,
    and the register field is then 31: the name is looked up in a text of
    blanks. *)
Theorem memory_operand uninit imm r :
  word imm -> imm <> EmptyString -> word r ->
  (mem_imm uninit (imm ++ "(" ++ r ++ ")") = convertToDecimal imm /\
   mem_reg (imm ++ "(" ++ r ++ ")") = r) /\
  (mem_imm uninit imm = convertToDecimal imm /\ reg (mem_reg imm) = 31).
Proof.
  intros Hi Hne Hr. split.
  - destruct (mem_operand_parts uninit imm r Hi Hr) as [A B]. now split.
  - split.
    + unfold mem_imm.
      rewrite sscanf_s_solid by (try assumption; now apply word_solid).
      now rewrite separateImmediate_plain.
    + unfold mem_reg, reg. rewrite separate_rs1_word by exact Hi.
      unfold sscanf_s. rewrite scan_tokens_only_blanks.
      now rewrite removeBracket_blanks, get_register_number_blanks.
Qed.

Lemma memory_operand_witness :
  (mem_imm "" ("-4" ++ "(" ++ "sp" ++ ")") = convertToDecimal "-4" /\
   mem_reg ("-4" ++ "(" ++ "sp" ++ ")") = "sp") /\
  (mem_imm "" "-4" = convertToDecimal "-4" /\ reg (mem_reg "-4") = 31).
Proof.
  apply (memory_operand "" "-4" "sp"); [reflexivity | discriminate | reflexivity].
Defined.

(** ** Reading the input *)

(** X23.  A file of lines of at most 254 characters, each ended by a line
    break, and a last line of at most 255 characters without one, is read
    as these lines, line breaks included; an empty last line is not
    read. *)
Theorem file_lines_unlines ls last :
  Forall (fun l => no_newline l /\ (String.length l <= 254)%nat) ls ->
  no_newline last -> (String.length last <= 255)%nat ->
  file_lines (unlines ls ++ last) =
  (map (fun l => l ++ nl)%string ls ++
   match last with EmptyString => [] | _ => [last] end)%list.
Proof.
  intros H Hn Hl. unfold file_lines.
  now apply read_lines_unlines.
Qed.

Lemma file_lines_unlines_witness :
  file_lines (unlines ["loop: addi x1, x1, 1"; ""] ++ "ret") =
  ["loop: addi x1, x1, 1" ++ nl; nl; "ret"].
Proof.
  apply (file_lines_unlines ["loop: addi x1, x1, 1"; ""] "ret").
  - repeat constructor; cbn; lia.
  - reflexivity.
  - cbn. lia.
Defined.
